(** * ClaudeGUI: streaming event reconstruction and session supervision

    A shallow embedding of the main-process session supervisor
    (src/main/claude-process.ts, src/main/claude-process-manager.ts,
    src/main/ipc-handlers.ts) and of the renderer-side conversation reducer
    (src/renderer/App.tsx), followed by the properties proved about them.

    Part I holds the model, Part II the theorems. *)

From Stdlib Require Import ZArith String Ascii List Lia PrimFloat.
From stdpp Require Import base option list gmap strings.

Set Warnings "-register-all,-inexact-float".

(* ===================================================================== *)
(** * Part I: the model                                                   *)
(* ===================================================================== *)

(** ** JavaScript string primitives used by the sources

    A JavaScript string is modelled by [string]; one [ascii] stands for one
    code unit in the range 0..255. *)
Module Js.

Definition LF : ascii := "010"%char.
Definition CR : ascii := "013"%char.

(** [s.indexOf(c)] for a one-character needle; [None] stands for [-1]. *)
Fixpoint indexOf (c : ascii) (s : string) : option nat :=
  match s with
  | EmptyString => None
  | String a s' => if Ascii.eqb a c then Some 0 else S <$> indexOf c s'
  end.

(** [s.substring(0, n)]. *)
Fixpoint substring_to (n : nat) (s : string) : string :=
  match n, s with
  | S n', String a s' => String a (substring_to n' s')
  | _, _ => EmptyString
  end.

(** [s.substring(n)]. *)
Fixpoint substring_from (n : nat) (s : string) : string :=
  match n, s with
  | S n', String _ s' => substring_from n' s'
  | _, _ => s
  end.

(** [s.endsWith(c)] for a one-character suffix. *)
Fixpoint endsWith (s : string) (c : ascii) : bool :=
  match s with
  | EmptyString => false
  | String a EmptyString => Ascii.eqb a c
  | String _ s' => endsWith s' c
  end.

(** [s.slice(0, -1)]: everything but the last code unit. *)
Fixpoint slice_0_m1 (s : string) : string :=
  match s with
  | EmptyString => EmptyString
  | String _ EmptyString => EmptyString
  | String a s' => String a (slice_0_m1 s')
  end.

(** White space as [String.prototype.trim] sees it, among the code units
    0..255: TAB, LF, VT, FF, CR, SPACE and NBSP. *)
Definition is_whitespace (a : ascii) : bool :=
  match nat_of_ascii a with
  | 9 | 10 | 11 | 12 | 13 | 32 | 160 => true
  | _ => false
  end.

Fixpoint trimStart (s : string) : string :=
  match s with
  | EmptyString => EmptyString
  | String a s' => if is_whitespace a then trimStart s' else s
  end.

Definition trimEnd (s : string) : string :=
  String.rev (trimStart (String.rev s)).

Definition trim (s : string) : string := trimEnd (trimStart s).

(** Truthiness of a string: every string but the empty one. *)
Definition truthy (s : string) : bool :=
  match s with EmptyString => false | String _ _ => true end.

(** [a || b] on strings. *)
Definition or_else (a b : string) : string := if truthy a then a else b.

(** [s.startsWith(p)], [s.endsWith(p)] and [s.includes(p)]. *)
Definition startsWith (s p : string) : bool := String.prefix p s.

Definition endsWithStr (s p : string) : bool :=
  String.prefix (String.rev p) (String.rev s).

Definition includes (s p : string) : bool :=
  match String.index 0 p s with Some _ => true | None => false end.

(** [s.toLowerCase()] on the code units 0..255. *)
Definition lower_char (a : ascii) : ascii :=
  let n := nat_of_ascii a in
  if ((65 <=? n) && (n <=? 90))
     || ((192 <=? n) && (n <=? 222) && negb (n =? 215))
  then ascii_of_nat (n + 32) else a.

Fixpoint toLowerCase (s : string) : string :=
  match s with
  | EmptyString => EmptyString
  | String a s' => String (lower_char a) (toLowerCase s')
  end.

End Js.

(** ** Line Framer: the stdout [data] handler of [ClaudeProcess.start]

    claude-process.ts, lines 179-208. The handler appends the chunk to
    [stdoutBuffer] and then runs

      while ((newlineIndex = buffer.indexOf('\n')) !== -1) { ... }

    handing every non-blank line to [handleStreamLine]. The loop is written
    once, over the state [St] that the line handler works on. This is the
    handler from [chunkStr] on, the text that [chunk.toString()] has made
    of the chunk; [StdoutHandler] below has it from the bytes. *)
Module LineFramer.
Import Js.

Section Loop.
Context {St : Type} (handleStreamLine : string → St → St).

(** One run of the [while] loop. Each iteration removes at least the newline
    from the buffer, so [String.length buffer] iterations always suffice;
    [fuel] counts them. *)
Fixpoint frame_loop (fuel : nat) (buffer : string) (st : St) : string * St :=
  match fuel with
  | 0 => (buffer, st)
  | S fuel' =>
    match indexOf LF buffer with
    | None => (buffer, st)
    | Some newlineIndex =>
      let line := substring_to newlineIndex buffer in
      let buffer' := substring_from (newlineIndex + 1) buffer in
      let line := if endsWith line CR then slice_0_m1 line else line in
      if truthy (trim line)
      then frame_loop fuel' buffer' (handleStreamLine line st)
      else frame_loop fuel' buffer' st
    end
  end.

(** The [data] event from [chunkStr] on: [this.stdoutBuffer += chunkStr],
    then the loop. *)
Definition on_data (chunkStr : string) (bst : string * St) : string * St :=
  let buffer := fst bst +:+ chunkStr in
  frame_loop (String.length buffer) buffer (snd bst).

(** A sequence of [data] events, oldest first, each given by the text its
    chunk was decoded to. *)
Definition on_texts (texts : list string) (bst : string * St) : string * St :=
  foldl (λ acc chunkStr, on_data chunkStr acc) bst texts.

End Loop.

(** The lines the framer yields: the arguments of the successive
    [handleStreamLine] calls, in call order. *)
Definition record_line (line : string) (seen : list string) : list string :=
  seen ++ [line].

(** [start] resets [stdoutBuffer] to the empty string before it attaches
    the handler; [feed_texts] runs the handler from there over the texts
    that the chunks were decoded to. The result is the final buffer and the
    lines yielded. *)
Definition feed_texts (texts : list string) : string * list string :=
  on_texts record_line texts (EmptyString, []).

(** *** Reference reading of a text as lines

    The newline-terminated lines of a text and the unterminated data that
    follows the last newline, by one pass over the text. *)
Fixpoint lines_and_rest (s : string) : list string * string :=
  match s with
  | EmptyString => ([], EmptyString)
  | String a s' =>
    let (ls, r) := lines_and_rest s' in
    if Ascii.eqb a LF then (EmptyString :: ls, r)
    else match ls with
         | [] => ([], String a r)
         | l :: ls' => (String a l :: ls', r)
         end
  end.

Definition complete_lines (s : string) : list string := fst (lines_and_rest s).
Definition unterminated (s : string) : string := snd (lines_and_rest s).

(** One trailing carriage return removed, if there is one. *)
Definition strip_cr (line : string) : string :=
  if endsWith line CR then slice_0_m1 line else line.

(** A blank line: nothing in it but white space. *)
Fixpoint all_whitespace (s : string) : bool :=
  match s with
  | EmptyString => true
  | String a s' => is_whitespace a && all_whitespace s'
  end.

(** What the framer is to hand on from a text: its complete lines, each
    without its trailing carriage return, the blank ones left out. *)
Definition yielded_of (s : string) : list string :=
  List.filter (λ line, negb (all_whitespace line)) (strip_cr <$> complete_lines s).

(** The concatenation of the texts. *)
Definition concat_chunks (chunks : list string) : string :=
  foldr String.append EmptyString chunks.

(** One chunk per code unit. *)
Fixpoint one_at_a_time (s : string) : list string :=
  match s with
  | EmptyString => []
  | String a s' => String a EmptyString :: one_at_a_time s'
  end.

End LineFramer.

(** ** The stdout [data] handler on the bytes of the pipe

    claude-process.ts, lines 179-206, from the [Buffer] that the handler
    is called with. The handler decodes every chunk by itself,
    [chunk.toString()], before it appends it to [stdoutBuffer]: the stream
    has no encoding set and no decoder state passes from one chunk to the
    next. A [Buffer] is a list of bytes and a JavaScript string a list of
    UTF-16 code units, both as integers. *)
Module StdoutHandler.

(** *** [Buffer.prototype.toString()]

    UTF-8 decoding as Node does it, which is the decoder of the WHATWG
    Encoding Standard: a byte that cannot start or continue a sequence, and
    a sequence that the end of the buffer cuts short, give U+FFFD. *)

(** A sequence under way: the bits of the code point read so far, the
    number of continuation bytes still to come, and the range the next one
    must be in. *)
Record Pending := mkPending {
  codePoint : Z;
  bytesNeeded : nat;
  lowerBoundary : Z;
  upperBoundary : Z
}.

Definition REPLACEMENT : Z := 0xFFFD.

(** A byte met outside any sequence: the code points given out and the
    sequence begun. *)
Definition lead (byte : Z) : list Z * option Pending :=
  if (byte <=? 0x7F)%Z then ([byte], None)
  else if (0xC2 <=? byte)%Z && (byte <=? 0xDF)%Z then
    ([], Some {| codePoint := Z.land byte 0x1F; bytesNeeded := 1;
                 lowerBoundary := 0x80; upperBoundary := 0xBF |})
  else if (0xE0 <=? byte)%Z && (byte <=? 0xEF)%Z then
    ([], Some {| codePoint := Z.land byte 0xF; bytesNeeded := 2;
                 lowerBoundary := if (byte =? 0xE0)%Z then 0xA0 else 0x80;
                 upperBoundary := if (byte =? 0xED)%Z then 0x9F else 0xBF |})
  else if (0xF0 <=? byte)%Z && (byte <=? 0xF4)%Z then
    ([], Some {| codePoint := Z.land byte 0x7; bytesNeeded := 3;
                 lowerBoundary := if (byte =? 0xF0)%Z then 0x90 else 0x80;
                 upperBoundary := if (byte =? 0xF4)%Z then 0x8F else 0xBF |})
  else ([REPLACEMENT], None).

(** One byte. A byte out of range ends the sequence under way with U+FFFD
    and is then read again as a byte outside any sequence. *)
Definition decode_byte (pending : option Pending) (byte : Z)
    : list Z * option Pending :=
  match pending with
  | None => lead byte
  | Some p =>
    if (lowerBoundary p <=? byte)%Z && (byte <=? upperBoundary p)%Z then
      let codePoint := Z.lor (Z.shiftl (codePoint p) 6) (Z.land byte 0x3F) in
      match bytesNeeded p with
      | S (S n) =>
        ([], Some {| codePoint := codePoint; bytesNeeded := S n;
                     lowerBoundary := 0x80; upperBoundary := 0xBF |})
      | _ => ([codePoint], None)
      end
    else
      let '(out, pending) := lead byte in (REPLACEMENT :: out, pending)
  end.

(** The code points of a buffer; a sequence still under way at its end
    gives U+FFFD. *)
Fixpoint decode (pending : option Pending) (bytes : list Z) : list Z :=
  match bytes with
  | [] => match pending with Some _ => [REPLACEMENT] | None => [] end
  | byte :: bytes' =>
    let '(out, pending) := decode_byte pending byte in
    out ++ decode pending bytes'
  end.

(** The UTF-16 code units of a code point. *)
Definition code_units (codePoint : Z) : list Z :=
  if (codePoint <? 0x10000)%Z then [codePoint]
  else
    let v := (codePoint - 0x10000)%Z in
    [(0xD800 + Z.shiftr v 10)%Z; (0xDC00 + Z.land v 0x3FF)%Z].

Definition toString (chunk : list Z) : list Z :=
  concat (code_units <$> decode None chunk).

(** *** The string operations of the loop, on code units *)

Definition LF : Z := 10.
Definition CR : Z := 13.

(** [s.indexOf('\n')]; [None] stands for [-1]. *)
Fixpoint indexOf (c : Z) (s : list Z) : option nat :=
  match s with
  | [] => None
  | a :: s' => if (a =? c)%Z then Some 0 else S <$> indexOf c s'
  end.

Definition endsWith (s : list Z) (c : Z) : bool :=
  match last s with
  | Some a => (a =? c)%Z
  | None => false
  end.

(** [s.slice(0, -1)] *)
Definition slice_0_m1 (s : list Z) : list Z := take (length s - 1) s.

(** White space as [String.prototype.trim] sees it: the WhiteSpace and
    LineTerminator code points of ECMAScript. *)
Definition is_whitespace (c : Z) : bool :=
  bool_decide (c ∈ [0x9; 0xA; 0xB; 0xC; 0xD; 0x20; 0xA0; 0x1680; 0x2028; 0x2029;
                    0x202F; 0x205F; 0x3000; 0xFEFF]%Z)
  || ((0x2000 <=? c)%Z && (c <=? 0x200A)%Z).

Fixpoint trimStart (s : list Z) : list Z :=
  match s with
  | [] => []
  | a :: s' => if is_whitespace a then trimStart s' else s
  end.

Definition trim (s : list Z) : list Z :=
  reverse (trimStart (reverse (trimStart s))).

(** Truthiness of a string: every string but the empty one. *)
Definition truthy (s : list Z) : bool :=
  match s with [] => false | _ :: _ => true end.

Section Loop.
Context {St : Type} (handleStreamLine : list Z → St → St).

(** One run of the [while] loop. Each iteration removes at least the newline
    from the buffer, so [length buffer] iterations always suffice; [fuel]
    counts them. *)
Fixpoint frame_loop (fuel : nat) (buffer : list Z) (st : St) : list Z * St :=
  match fuel with
  | 0 => (buffer, st)
  | S fuel' =>
    match indexOf LF buffer with
    | None => (buffer, st)
    | Some newlineIndex =>
      let line := take newlineIndex buffer in
      let buffer' := drop (newlineIndex + 1) buffer in
      let line := if endsWith line CR then slice_0_m1 line else line in
      if truthy (trim line)
      then frame_loop fuel' buffer' (handleStreamLine line st)
      else frame_loop fuel' buffer' st
    end
  end.

(** The [data] event: [chunkStr = chunk.toString()],
    [this.stdoutBuffer += chunkStr], then the loop. *)
Definition on_data (chunk : list Z) (bst : list Z * St) : list Z * St :=
  let chunkStr := toString chunk in
  let buffer := fst bst ++ chunkStr in
  frame_loop (length buffer) buffer (snd bst).

End Loop.

(** The lines handed to [handleStreamLine], in call order. *)
Definition record_line (line : list Z) (seen : list (list Z)) : list (list Z) :=
  seen ++ [line].

(** [start] sets [stdoutBuffer] to the empty string and attaches the
    handler; [feed] is the handler run on the chunks that the pipe
    delivers, oldest first: the final buffer and the lines yielded. *)
Definition feed (chunks : list (list Z)) : list Z * list (list Z) :=
  foldl (λ bst chunk, on_data record_line chunk bst) ([], []) chunks.

(** One chunk per byte. *)
Definition one_at_a_time (bytes : list Z) : list (list Z) :=
  (λ byte, [byte]) <$> bytes.

(** The code units of a text of [LineFramer], whose code units are those
    below 256, and the texts that are ASCII: as bytes they are their own
    UTF-8. *)
Definition unit_of (a : ascii) : Z := Z.of_nat (nat_of_ascii a).

Fixpoint units (s : string) : list Z :=
  match s with
  | EmptyString => []
  | String a s' => unit_of a :: units s'
  end.

Definition is_ascii (s : string) : Prop := Forall (λ b, 0 ≤ b ≤ 0x7F)%Z (units s).

End StdoutHandler.

(** ** Insertion-ordered maps

    A JavaScript [Map] iterates in insertion order, and [set] on a key
    already present keeps the key's place. The maps that the sources iterate
    over are modelled as association lists with exactly that behaviour. *)
Module JsMap.

Section Ops.
Context {K V : Type} `{EqDecision K}.

Fixpoint get (k : K) (m : list (K * V)) : option V :=
  match m with
  | [] => None
  | (k', v) :: m' => if decide (k' = k) then Some v else get k m'
  end.

Fixpoint set (k : K) (v : V) (m : list (K * V)) : list (K * V) :=
  match m with
  | [] => [(k, v)]
  | (k', v') :: m' =>
    if decide (k' = k) then (k, v) :: m' else (k', v') :: set k v m'
  end.

Fixpoint delete (k : K) (m : list (K * V)) : list (K * V) :=
  match m with
  | [] => []
  | (k', v') :: m' => if decide (k' = k) then m' else (k', v') :: delete k m'
  end.

Definition has (k : K) (m : list (K * V)) : bool :=
  match get k m with Some _ => true | None => false end.

Definition size (m : list (K * V)) : nat := length m.

Definition keys (m : list (K * V)) : list K := m.*1.

Definition clear (m : list (K * V)) : list (K * V) := [].

End Ops.

End JsMap.

(** ** The event vocabulary

    The sources read the subprocess's JSON records as untyped objects and
    probe their fields ([event.event?.delta?.type], [data.usage],
    [data.index ?? ...]). The model reads each field at the type the stream
    protocol gives it; an absent field is [None]. One record type serves for
    a stdout record and for the streaming event wrapped in it, since the
    reducer runs the same [switch] over both. *)
Module Protocol.

(** A parsed JSON value, for tool inputs, which the sources keep as they
    come. *)
Inductive json :=
| JNull
| JBool (b : bool)
| JNum (n : float)
| JStr (s : string)
| JArr (items : list json)
| JObj (fields : list (string * json)).

Record Usage := mkUsage {
  input_tokens : option Z;
  output_tokens : option Z
}.

Record Delta := mkDelta {
  delta_type : option string;
  delta_text : option string;
  delta_thinking : option string;
  delta_partial_json : option string
}.

(** A content block as it arrives: in [content_block_start] and in the
    [content] array of a whole [assistant] message. *)
Record BlockInit := mkBlockInit {
  block_type : option string;
  block_text : option string;
  block_thinking : option string;
  block_name : option string;
  block_input : option json
}.

Record MessageInit := mkMessageInit {
  message_usage : option Usage;
  message_content : option (list BlockInit)
}.

Record Identity := mkIdentity {
  identity_email : option string;
  identity_name : option string
}.

Inductive Payload := mkPayload {
  p_type : option string;  (* type *)
  p_subtype : option string;  (* subtype *)
  p_model : option string;  (* model *)
  p_slash_commands : option (list string);  (* slash_commands *)
  p_session_id : option string;  (* session_id *)
  p_user : option Identity;  (* user *)
  p_email : option string;  (* email *)
  p_account : option Identity;  (* account *)
  p_name : option string;  (* name *)
  p_uuid : option string;  (* uuid *)
  p_event : option Payload;  (* event: the wrapped streaming event *)
  p_index : option Z;  (* index *)
  p_delta : option Delta;  (* delta *)
  p_content_block : option BlockInit;  (* content_block *)
  p_message : option MessageInit;  (* message *)
  p_usage : option Usage;  (* usage *)
  p_total_cost_usd : option float  (* total_cost_usd *)
}.

Definition set_p_event (v : option Payload) (r : Payload) : Payload :=
  {| p_type := p_type r; p_subtype := p_subtype r; p_model := p_model r;
     p_slash_commands := p_slash_commands r; p_session_id := p_session_id r;
     p_user := p_user r; p_email := p_email r; p_account := p_account r;
     p_name := p_name r; p_uuid := p_uuid r; p_event := v;
     p_index := p_index r; p_delta := p_delta r;
     p_content_block := p_content_block r; p_message := p_message r;
     p_usage := p_usage r; p_total_cost_usd := p_total_cost_usd r |}.
Definition set_p_index (v : option Z) (r : Payload) : Payload :=
  {| p_type := p_type r; p_subtype := p_subtype r; p_model := p_model r;
     p_slash_commands := p_slash_commands r; p_session_id := p_session_id r;
     p_user := p_user r; p_email := p_email r; p_account := p_account r;
     p_name := p_name r; p_uuid := p_uuid r; p_event := p_event r;
     p_index := v; p_delta := p_delta r;
     p_content_block := p_content_block r; p_message := p_message r;
     p_usage := p_usage r; p_total_cost_usd := p_total_cost_usd r |}.
Definition set_p_delta (v : option Delta) (r : Payload) : Payload :=
  {| p_type := p_type r; p_subtype := p_subtype r; p_model := p_model r;
     p_slash_commands := p_slash_commands r; p_session_id := p_session_id r;
     p_user := p_user r; p_email := p_email r; p_account := p_account r;
     p_name := p_name r; p_uuid := p_uuid r; p_event := p_event r;
     p_index := p_index r; p_delta := v;
     p_content_block := p_content_block r; p_message := p_message r;
     p_usage := p_usage r; p_total_cost_usd := p_total_cost_usd r |}.

(** The object without fields. *)
Definition empty_payload : Payload :=
  {| p_type := None; p_subtype := None; p_model := None;
     p_slash_commands := None; p_session_id := None; p_user := None;
     p_email := None; p_account := None; p_name := None; p_uuid := None;
     p_event := None; p_index := None; p_delta := None;
     p_content_block := None; p_message := None; p_usage := None;
     p_total_cost_usd := None |}.

(** What travels from the main process to the renderer on the channel
    [claude:stream]: the fields of the object handed to [sendToRenderer],
    with [sessionId] added. *)
Record Envelope := mkEnvelope {
  e_type : string;
  e_sessionId : string;
  e_data : option Payload;
  e_status : option string;
  e_code : option Z;
  e_cwd : option string;
  e_error : option string;
  e_timestamp : option Z
}.

Definition set_e_sessionId (v : string) (e : Envelope) : Envelope :=
  {| e_type := e_type e; e_sessionId := v; e_data := e_data e;
     e_status := e_status e; e_code := e_code e; e_cwd := e_cwd e;
     e_error := e_error e; e_timestamp := e_timestamp e |}.

(** [{ type: 'error', error }] *)
Definition error_envelope (sessionId error : string) : Envelope :=
  {| e_type := "error"; e_sessionId := sessionId; e_data := None;
     e_status := None; e_code := None; e_cwd := None; e_error := Some error;
     e_timestamp := None |}.

(** [{ type: 'status', status, code }] and [{ type: 'status', status, cwd }] *)
Definition status_envelope (status : string) (code : option Z)
    (cwd : option string) : Envelope :=
  {| e_type := "status"; e_sessionId := ""; e_data := None;
     e_status := Some status; e_code := code; e_cwd := cwd; e_error := None;
     e_timestamp := None |}.

(** [{ type, data }] *)
Definition data_envelope (type : string) (data : Payload) : Envelope :=
  {| e_type := type; e_sessionId := ""; e_data := Some data;
     e_status := None; e_code := None; e_cwd := None; e_error := None;
     e_timestamp := None |}.

(** [{ type: 'heartbeat', sessionId, timestamp }] *)
Definition heartbeat_envelope (sessionId : string) (now : Z) : Envelope :=
  {| e_type := "heartbeat"; e_sessionId := sessionId; e_data := None;
     e_status := None; e_code := None; e_cwd := None; e_error := None;
     e_timestamp := Some now |}.

(** [o || d] for an optional string: absent and empty both give [d]. *)
Definition str_or (o : option string) (d : string) : string :=
  match o with
  | Some s => if Js.truthy s then s else d
  | None => d
  end.

(** [o.k] on a parsed value, [None] when there is no such property. *)
Fixpoint assoc_get (k : string) (fields : list (string * json)) : option json :=
  match fields with
  | [] => None
  | (k', v) :: fields' => if String.eqb k' k then Some v else assoc_get k fields'
  end.

Definition json_get (k : string) (v : json) : option json :=
  match v with
  | JObj fields => assoc_get k fields
  | _ => None
  end.

(** Truthiness of a number, of a parsed value and of an optional one. *)
Definition float_truthy (f : float) : bool :=
  negb (PrimFloat.is_zero f || PrimFloat.is_nan f).

Definition Z_truthy (z : Z) : bool := negb (z =? 0)%Z.

Definition json_truthy (v : json) : bool :=
  match v with
  | JNull => false
  | JBool b => b
  | JNum n => float_truthy n
  | JStr s => Js.truthy s
  | JArr _ => true
  | JObj _ => true
  end.

Definition opt_truthy (o : option json) : bool :=
  match o with Some v => json_truthy v | None => false end.

(** [o || d] for an optional integer and an optional float. *)
Definition Z_or (o : option Z) (d : Z) : Z :=
  match o with
  | Some z => if Z_truthy z then z else d
  | None => d
  end.

Definition float_or (o : option float) (d : float) : float :=
  match o with
  | Some f => if float_truthy f then f else d
  | None => d
  end.

End Protocol.

(** ** Session Process: [ClaudeProcess] (src/main/claude-process.ts)

    The object's fields are a record; what it does to its surroundings (the
    window's IPC channel, the operating system's processes) is a second
    record, [World]. Every method takes and returns both. The debug log
    ([debugLog]) is left out: nothing reads it. *)
Module ClaudeProcess.
Import Js Protocol.

Record ClaudeProcess := mkClaudeProcess {
  process : option nat;  (* the ChildProcess, by the index of its spawn *)
  sessionId : string;
  currentCwd : option string;
  messageIdCounter : Z;
  stdoutBuffer : string;
  stderrRl : bool;  (* a readline interface on stderr is open *)
  claudePath : option string;
  heartbeatInterval : bool;  (* the heartbeat timer is set *)
  eventCounter : Z;
  deltaBuffer : list (Z * string);  (* Map: blockIndex -> accumulated partial_json *)
  deltaFlushTimer : bool;  (* the batch timer is set *)
  lastDeltaEvent : option Payload
}.

Definition set_process (v : option nat) (r : ClaudeProcess) : ClaudeProcess :=
  {| process := v; sessionId := sessionId r; currentCwd := currentCwd r;
     messageIdCounter := messageIdCounter r; stdoutBuffer := stdoutBuffer r;
     stderrRl := stderrRl r; claudePath := claudePath r;
     heartbeatInterval := heartbeatInterval r;
     eventCounter := eventCounter r; deltaBuffer := deltaBuffer r;
     deltaFlushTimer := deltaFlushTimer r;
     lastDeltaEvent := lastDeltaEvent r |}.
Definition set_currentCwd (v : option string) (r : ClaudeProcess) : ClaudeProcess :=
  {| process := process r; sessionId := sessionId r; currentCwd := v;
     messageIdCounter := messageIdCounter r; stdoutBuffer := stdoutBuffer r;
     stderrRl := stderrRl r; claudePath := claudePath r;
     heartbeatInterval := heartbeatInterval r;
     eventCounter := eventCounter r; deltaBuffer := deltaBuffer r;
     deltaFlushTimer := deltaFlushTimer r;
     lastDeltaEvent := lastDeltaEvent r |}.
Definition set_messageIdCounter (v : Z) (r : ClaudeProcess) : ClaudeProcess :=
  {| process := process r; sessionId := sessionId r;
     currentCwd := currentCwd r; messageIdCounter := v;
     stdoutBuffer := stdoutBuffer r; stderrRl := stderrRl r;
     claudePath := claudePath r; heartbeatInterval := heartbeatInterval r;
     eventCounter := eventCounter r; deltaBuffer := deltaBuffer r;
     deltaFlushTimer := deltaFlushTimer r;
     lastDeltaEvent := lastDeltaEvent r |}.
Definition set_stdoutBuffer (v : string) (r : ClaudeProcess) : ClaudeProcess :=
  {| process := process r; sessionId := sessionId r;
     currentCwd := currentCwd r; messageIdCounter := messageIdCounter r;
     stdoutBuffer := v; stderrRl := stderrRl r; claudePath := claudePath r;
     heartbeatInterval := heartbeatInterval r;
     eventCounter := eventCounter r; deltaBuffer := deltaBuffer r;
     deltaFlushTimer := deltaFlushTimer r;
     lastDeltaEvent := lastDeltaEvent r |}.
Definition set_stderrRl (v : bool) (r : ClaudeProcess) : ClaudeProcess :=
  {| process := process r; sessionId := sessionId r;
     currentCwd := currentCwd r; messageIdCounter := messageIdCounter r;
     stdoutBuffer := stdoutBuffer r; stderrRl := v;
     claudePath := claudePath r; heartbeatInterval := heartbeatInterval r;
     eventCounter := eventCounter r; deltaBuffer := deltaBuffer r;
     deltaFlushTimer := deltaFlushTimer r;
     lastDeltaEvent := lastDeltaEvent r |}.
Definition set_claudePath (v : option string) (r : ClaudeProcess) : ClaudeProcess :=
  {| process := process r; sessionId := sessionId r;
     currentCwd := currentCwd r; messageIdCounter := messageIdCounter r;
     stdoutBuffer := stdoutBuffer r; stderrRl := stderrRl r; claudePath := v;
     heartbeatInterval := heartbeatInterval r;
     eventCounter := eventCounter r; deltaBuffer := deltaBuffer r;
     deltaFlushTimer := deltaFlushTimer r;
     lastDeltaEvent := lastDeltaEvent r |}.
Definition set_heartbeatInterval (v : bool) (r : ClaudeProcess) : ClaudeProcess :=
  {| process := process r; sessionId := sessionId r;
     currentCwd := currentCwd r; messageIdCounter := messageIdCounter r;
     stdoutBuffer := stdoutBuffer r; stderrRl := stderrRl r;
     claudePath := claudePath r; heartbeatInterval := v;
     eventCounter := eventCounter r; deltaBuffer := deltaBuffer r;
     deltaFlushTimer := deltaFlushTimer r;
     lastDeltaEvent := lastDeltaEvent r |}.
Definition set_eventCounter (v : Z) (r : ClaudeProcess) : ClaudeProcess :=
  {| process := process r; sessionId := sessionId r;
     currentCwd := currentCwd r; messageIdCounter := messageIdCounter r;
     stdoutBuffer := stdoutBuffer r; stderrRl := stderrRl r;
     claudePath := claudePath r; heartbeatInterval := heartbeatInterval r;
     eventCounter := v; deltaBuffer := deltaBuffer r;
     deltaFlushTimer := deltaFlushTimer r;
     lastDeltaEvent := lastDeltaEvent r |}.
Definition set_deltaBuffer (v : list (Z * string)) (r : ClaudeProcess) : ClaudeProcess :=
  {| process := process r; sessionId := sessionId r;
     currentCwd := currentCwd r; messageIdCounter := messageIdCounter r;
     stdoutBuffer := stdoutBuffer r; stderrRl := stderrRl r;
     claudePath := claudePath r; heartbeatInterval := heartbeatInterval r;
     eventCounter := eventCounter r; deltaBuffer := v;
     deltaFlushTimer := deltaFlushTimer r;
     lastDeltaEvent := lastDeltaEvent r |}.
Definition set_deltaFlushTimer (v : bool) (r : ClaudeProcess) : ClaudeProcess :=
  {| process := process r; sessionId := sessionId r;
     currentCwd := currentCwd r; messageIdCounter := messageIdCounter r;
     stdoutBuffer := stdoutBuffer r; stderrRl := stderrRl r;
     claudePath := claudePath r; heartbeatInterval := heartbeatInterval r;
     eventCounter := eventCounter r; deltaBuffer := deltaBuffer r;
     deltaFlushTimer := v; lastDeltaEvent := lastDeltaEvent r |}.
Definition set_lastDeltaEvent (v : option Payload) (r : ClaudeProcess) : ClaudeProcess :=
  {| process := process r; sessionId := sessionId r;
     currentCwd := currentCwd r; messageIdCounter := messageIdCounter r;
     stdoutBuffer := stdoutBuffer r; stderrRl := stderrRl r;
     claudePath := claudePath r; heartbeatInterval := heartbeatInterval r;
     eventCounter := eventCounter r; deltaBuffer := deltaBuffer r;
     deltaFlushTimer := deltaFlushTimer r; lastDeltaEvent := v |}.

(** One record on the subprocess's stdin: the line
    [{type:user, message:{role:user, content}}] followed by a newline. *)
Inductive StdinRecord :=
| UserLine (content : string).

Record Child := mkChild {
  c_command : string;  (* the executable *)
  c_args : list string;
  c_cwd : string;
  c_shell : bool;
  c_session : string;  (* the session whose ClaudeProcess spawned it *)
  c_stdin : list StdinRecord;  (* what was written to its stdin, oldest first *)
  c_stdin_error : option string;  (* the message of the error a write would throw *)
  c_signals : list string  (* the signals sent to it, oldest first *)
}.

Definition set_c_stdin (v : list StdinRecord) (r : Child) : Child :=
  {| c_command := c_command r; c_args := c_args r; c_cwd := c_cwd r;
     c_shell := c_shell r; c_session := c_session r; c_stdin := v;
     c_stdin_error := c_stdin_error r; c_signals := c_signals r |}.
Definition set_c_signals (v : list string) (r : Child) : Child :=
  {| c_command := c_command r; c_args := c_args r; c_cwd := c_cwd r;
     c_shell := c_shell r; c_session := c_session r; c_stdin := c_stdin r;
     c_stdin_error := c_stdin_error r; c_signals := v |}.

Record World := mkWorld {
  windowDestroyed : bool;  (* window.isDestroyed() *)
  immediates : list Envelope;  (* the sends queued by setImmediate, oldest first *)
  sent : list Envelope;  (* webContents.send on claude:stream, oldest first *)
  children : list Child  (* every process spawned so far, in spawn order *)
}.

Definition set_windowDestroyed (v : bool) (r : World) : World :=
  {| windowDestroyed := v; immediates := immediates r; sent := sent r;
     children := children r |}.
Definition set_immediates (v : list Envelope) (r : World) : World :=
  {| windowDestroyed := windowDestroyed r; immediates := v; sent := sent r;
     children := children r |}.
Definition set_sent (v : list Envelope) (r : World) : World :=
  {| windowDestroyed := windowDestroyed r; immediates := immediates r;
     sent := v; children := children r |}.
Definition set_children (v : list Child) (r : World) : World :=
  {| windowDestroyed := windowDestroyed r; immediates := immediates r;
     sent := sent r; children := v |}.

(** What [start] reads from the machine it runs on. *)
Record Env := mkEnv {
  env_findClaudeCli : option string;  (* what findClaudeCli() finds now *)
  env_isWindows : bool;               (* process.platform === 'win32' *)
  env_homedir : string;               (* os.homedir() *)
  env_resolve : string → string       (* path.resolve *)
}.

(** [new ClaudeProcess(window, sessionId)] *)
Definition new (env : Env) (sessionId : string) : ClaudeProcess :=
  {| process := None; sessionId := sessionId; currentCwd := None;
     messageIdCounter := 0; stdoutBuffer := EmptyString; stderrRl := false;
     claudePath := env_findClaudeCli env; heartbeatInterval := false;
     eventCounter := 0; deltaBuffer := []; deltaFlushTimer := false;
     lastDeltaEvent := None |}.

Definition validateCwd (env : Env) (cwd : string) : string :=
  let resolvedPath := env_resolve env cwd in
  let homeDir := env_homedir env in
  let safePaths := [homeDir; "C:\Users"; "C:\Projects"; "D:\"; "E:\"] in
  let isSafe :=
    existsb (λ safePath,
      startsWith (toLowerCase resolvedPath) (toLowerCase safePath)) safePaths in
  if isSafe then resolvedPath else homeDir.

(** [sendToRenderer]: nothing happens when the window is gone; otherwise the
    event is counted, tagged with the session and queued by [setImmediate]. *)
Definition sendToRenderer (data : Envelope) (pw : ClaudeProcess * World)
    : ClaudeProcess * World :=
  let '(p, w) := pw in
  if windowDestroyed w then pw
  else (set_eventCounter (eventCounter p + 1)%Z p,
        set_immediates (immediates w ++ [set_e_sessionId (sessionId p) data]) w).

(** The callback of the oldest [setImmediate]: it sends unless the window
    was destroyed in between. *)
Definition run_immediate (w : World) : World :=
  match immediates w with
  | [] => w
  | e :: queue =>
    let w := set_immediates queue w in
    if windowDestroyed w then w else set_sent (sent w ++ [e]) w
  end.

(** The heartbeat timer's callback, at time [now]: sent at once. *)
Definition heartbeat_tick (now : Z) (pw : ClaudeProcess * World)
    : ClaudeProcess * World :=
  let '(p, w) := pw in
  if heartbeatInterval p && negb (windowDestroyed w)
  then (p, set_sent (sent w ++ [heartbeat_envelope (sessionId p) now]) w)
  else pw.

Definition stopHeartbeat (p : ClaudeProcess) : ClaudeProcess :=
  if heartbeatInterval p then set_heartbeatInterval false p else p.

Definition startHeartbeat (p : ClaudeProcess) : ClaudeProcess :=
  set_heartbeatInterval true (stopHeartbeat p).

(** The batched event of [flushDeltaBuffer]:
    [{...last, event: {...last.event, index, delta: {type, partial_json}}}]. *)
Definition batchedEvent (last : Payload) (blockIndex : Z)
    (accumulatedJson : string) : Payload :=
  let inner := default empty_payload (p_event last) in
  set_p_event
    (Some (set_p_delta
             (Some {| delta_type := Some "input_json_delta";
                      delta_text := None; delta_thinking := None;
                      delta_partial_json := Some accumulatedJson |})
             (set_p_index (Some blockIndex) inner)))
    last.

(** The body of the [for ... of this.deltaBuffer] loop. *)
Definition flush_entry (pw : ClaudeProcess * World) (entry : Z * string)
    : ClaudeProcess * World :=
  let '(blockIndex, accumulatedJson) := entry in
  match lastDeltaEvent pw.1 with
  | Some last =>
    if truthy accumulatedJson
    then sendToRenderer
           (data_envelope "stream_event" (batchedEvent last blockIndex accumulatedJson))
           pw
    else pw
  | None => pw
  end.

Definition flushDeltaBuffer (pw : ClaudeProcess * World) : ClaudeProcess * World :=
  if JsMap.size (deltaBuffer pw.1) =? 0 then pw
  else
    let '(p, w) := foldl flush_entry pw (deltaBuffer pw.1) in
    (set_deltaBuffer (JsMap.clear (deltaBuffer p)) p, w).

Definition ensureDeltaFlushTimer (p : ClaudeProcess) : ClaudeProcess :=
  if deltaFlushTimer p then p else set_deltaFlushTimer true p.

Definition stopDeltaFlushTimer (pw : ClaudeProcess * World) : ClaudeProcess * World :=
  let '(p, w) := pw in
  let p := if deltaFlushTimer p then set_deltaFlushTimer false p else p in
  flushDeltaBuffer (p, w).

(** The batch timer's callback. *)
Definition delta_timer_tick (pw : ClaudeProcess * World) : ClaudeProcess * World :=
  if deltaFlushTimer pw.1 then flushDeltaBuffer pw else pw.

Section Parsing.
(** [JSON.parse] read at the protocol's types: [None] when it throws, and
    for the value [null], whose [.type] throws in its turn; both end in the
    [catch] of [handleStreamLine]. *)
Context (JSON_parse : string → option Payload).

Definition handleStreamLine (line : string) (pw : ClaudeProcess * World)
    : ClaudeProcess * World :=
  if negb (truthy (trim line)) then pw
  else
    match JSON_parse line with
    | None => pw
    | Some event =>
      let innerType := p_event event ≫= p_type in
      let deltaType := (p_event event ≫= p_delta) ≫= delta_type in
      if decide (deltaType = Some "input_json_delta") then
        let partialJson :=
          str_or ((p_event event ≫= p_delta) ≫= delta_partial_json) "" in
        let blockIndex := default 0%Z (p_event event ≫= p_index) in
        let '(p, w) := pw in
        let existing := str_or (JsMap.get blockIndex (deltaBuffer p)) "" in
        let p :=
          set_deltaBuffer
            (JsMap.set blockIndex (existing +:+ partialJson) (deltaBuffer p)) p in
        let p := set_lastDeltaEvent (Some event) p in
        (ensureDeltaFlushTimer p, w)
      else
        let pw := if 0 <? JsMap.size (deltaBuffer pw.1)
                  then flushDeltaBuffer pw else pw in
        let pw := if decide (innerType = Some "content_block_stop")
                  then stopDeltaFlushTimer pw else pw in
        sendToRenderer (data_envelope (str_or (p_type event) "unknown") event) pw
    end.

(** The [data] handler on the subprocess's stdout. *)
Definition on_stdout_data (chunk : string) (pw : ClaudeProcess * World)
    : ClaudeProcess * World :=
  let '(buffer, (p, w)) :=
    LineFramer.on_data handleStreamLine chunk (stdoutBuffer pw.1, pw) in
  (set_stdoutBuffer buffer p, w).

End Parsing.

(** *** How the handler reads a line, and what a buffer stands for *)

Inductive LineKind :=
| Ignored                        (* blank or not JSON: dropped *)
| Fragment (event : Payload)     (* an input_json_delta: batched *)
| Structural (event : Payload).  (* anything else: forwarded *)

Definition deltaType (event : Payload) : option string :=
  (p_event event ≫= p_delta) ≫= delta_type.

Definition fragment_json (event : Payload) : string :=
  str_or ((p_event event ≫= p_delta) ≫= delta_partial_json) "".

Definition fragment_index (event : Payload) : Z :=
  default 0%Z (p_event event ≫= p_index).

Definition line_kind (JSON_parse : string → option Payload) (line : string)
    : LineKind :=
  if negb (truthy (trim line)) then Ignored
  else match JSON_parse line with
       | None => Ignored
       | Some event =>
         if decide (deltaType event = Some "input_json_delta")
         then Fragment event else Structural event
       end.

(** The fragments that a run of lines delivers for block index [i], in
    arrival order, and their concatenation. *)
Definition fragments_for (JSON_parse : string → option Payload) (i : Z)
    (lines : list string) : list string :=
  omap (λ line,
          match line_kind JSON_parse line with
          | Fragment event =>
            if decide (fragment_index event = i)
            then Some (fragment_json event) else None
          | _ => None
          end) lines.

Definition concat_fragments (fragments : list string) : string :=
  foldr String.append EmptyString fragments.

(** The batched event for one entry of the buffer, as it is queued, and the
    batches that a buffer stands for: one per block index whose accumulated
    text is not empty, in the order the indices entered the buffer. *)
Definition batch_envelope (sessionId : string) (last : Payload)
    (entry : Z * string) : Envelope :=
  set_e_sessionId sessionId
    (data_envelope "stream_event" (batchedEvent last entry.1 entry.2)).

Definition pending_batches (p : ClaudeProcess) : list Envelope :=
  match lastDeltaEvent p with
  | Some last =>
    batch_envelope (sessionId p) last
      <$> List.filter (λ entry, truthy entry.2) (deltaBuffer p)
  | None => []
  end.

(** The forwarded form of a structural event. *)
Definition structural_envelope (sessionId : string) (event : Payload) : Envelope :=
  set_e_sessionId sessionId
    (data_envelope (str_or (p_type event) "unknown") event).

(** The block index and the fragment text that an envelope carries, and the
    fragment texts that a list of envelopes carries for block index [i]. *)
Definition envelope_index (e : Envelope) : option Z :=
  (e_data e ≫= p_event) ≫= p_index.

Definition envelope_partial_json (e : Envelope) : option string :=
  ((e_data e ≫= p_event) ≫= p_delta) ≫= delta_partial_json.

Definition emitted_for (i : Z) (envelopes : list Envelope) : list (option string) :=
  envelope_partial_json
    <$> List.filter (λ e, bool_decide (envelope_index e = Some i)) envelopes.

(** An object never holds fragments without the event they came in. *)
Definition buffer_has_template (p : ClaudeProcess) : Prop :=
  deltaBuffer p = [] ∨ is_Some (lastDeltaEvent p).

(** The batcher's state as its own methods leave it: distinct block
    indices, and a template whenever something is buffered. *)
Definition buffer_ok (p : ClaudeProcess) : Prop :=
  NoDup (JsMap.keys (deltaBuffer p)) ∧ buffer_has_template p.

(** The stream_event record that wraps an input_json_delta for block [i],
    the one that wraps a content_block_stop, and a parser that knows three
    lines; they serve as concrete inputs. *)
Definition fragment_event (i : Z) (json : string) : Payload :=
  set_p_event
    (Some (set_p_delta
             (Some {| delta_type := Some "input_json_delta";
                      delta_text := None; delta_thinking := None;
                      delta_partial_json := Some json |})
             (set_p_index (Some i)
                {| p_type := Some "content_block_delta"; p_subtype := None;
                   p_model := None; p_slash_commands := None;
                   p_session_id := None; p_user := None; p_email := None;
                   p_account := None; p_name := None; p_uuid := None;
                   p_event := None; p_index := None; p_delta := None;
                   p_content_block := None; p_message := None;
                   p_usage := None; p_total_cost_usd := None |})))
    {| p_type := Some "stream_event"; p_subtype := None; p_model := None;
       p_slash_commands := None; p_session_id := None; p_user := None;
       p_email := None; p_account := None; p_name := None; p_uuid := None;
       p_event := None; p_index := None; p_delta := None;
       p_content_block := None; p_message := None; p_usage := None;
       p_total_cost_usd := None |}.

Definition block_stop_event (i : Z) : Payload :=
  set_p_event
    (Some (set_p_index (Some i)
             {| p_type := Some "content_block_stop"; p_subtype := None;
                p_model := None; p_slash_commands := None;
                p_session_id := None; p_user := None; p_email := None;
                p_account := None; p_name := None; p_uuid := None;
                p_event := None; p_index := None; p_delta := None;
                p_content_block := None; p_message := None;
                p_usage := None; p_total_cost_usd := None |}))
    {| p_type := Some "stream_event"; p_subtype := None; p_model := None;
       p_slash_commands := None; p_session_id := None; p_user := None;
       p_email := None; p_account := None; p_name := None; p_uuid := None;
       p_event := None; p_index := None; p_delta := None;
       p_content_block := None; p_message := None; p_usage := None;
       p_total_cost_usd := None |}.

Definition sample_parse (line : string) : option Payload :=
  if String.eqb line "fragment-1" then Some (fragment_event 1 "{todos:")
  else if String.eqb line "fragment-2" then Some (fragment_event 1 "[]}")
  else if String.eqb line "stop-1" then Some (block_stop_event 1)
  else None.

Definition sample_world : World :=
  {| windowDestroyed := false; immediates := []; sent := []; children := [] |}.

Definition sample_env : Env :=
  {| env_findClaudeCli := Some "/usr/local/bin/claude"; env_isWindows := false;
     env_homedir := "/home/user"; env_resolve := λ path, path |}.

(** All queued sends delivered, oldest first. *)
Definition drain_immediates (w : World) : World :=
  Nat.iter (length (immediates w)) run_immediate w.

(** The [line] handler on the subprocess's stderr. *)
Definition on_stderr_line (line : string) (pw : ClaudeProcess * World)
    : ClaudeProcess * World :=
  if includes line "error" || includes line "Error"
  then sendToRenderer (error_envelope "" line) pw
  else pw.

(** The subprocess's [error] and [close] events. *)
Definition on_error (message : string) (pw : ClaudeProcess * World)
    : ClaudeProcess * World :=
  sendToRenderer (error_envelope "" message) pw.

Definition on_close (code : option Z) (pw : ClaudeProcess * World)
    : ClaudeProcess * World :=
  let '(p, w) := sendToRenderer (status_envelope "stopped" code None) pw in
  (set_process None p, w).

(** [this.process.stdin.write(jsonLine)] and [this.process.kill('SIGTERM')]
    on the process spawned as number [pid]. *)
Definition write_stdin (pid : nat) (r : StdinRecord) (w : World) : World :=
  set_children (alter (λ c, set_c_stdin (c_stdin c ++ [r]) c) pid (children w)) w.

Definition kill (pid : nat) (signal : string) (w : World) : World :=
  set_children (alter (λ c, set_c_signals (c_signals c ++ [signal]) c) pid (children w)) w.

Definition send (message : string) (pw : ClaudeProcess * World)
    : ClaudeProcess * World :=
  let '(p, w) := pw in
  match process p with
  | None =>
    sendToRenderer (error_envelope "" "Claude process not running. Please restart.") pw
  | Some pid =>
    match (children w !! pid) ≫= c_stdin_error with
    | Some message' =>
      sendToRenderer
        (error_envelope "" ("Failed to send message: " +:+ message')) pw
    | None => (p, write_stdin pid (UserLine message) w)
    end
  end.

Definition stop (pw : ClaudeProcess * World) : ClaudeProcess * World :=
  let '(p, w) := pw in
  let p := stopHeartbeat p in
  let '(p, w) := stopDeltaFlushTimer (p, w) in
  let p := set_deltaBuffer (JsMap.clear (deltaBuffer p)) p in
  let p := set_lastDeltaEvent None p in
  let p := set_stdoutBuffer EmptyString p in
  let p := if stderrRl p then set_stderrRl false p else p in
  let '(p, w) :=
    match process p with
    | Some pid => (set_process None p, kill pid "SIGTERM" w)
    | None => (p, w)
    end in
  (set_eventCounter 0 p, w).

Definition isRunning (p : ClaudeProcess) : bool :=
  match process p with Some _ => true | None => false end.

Definition getCwd (p : ClaudeProcess) : option string := currentCwd p.

Definition spawn_args (resumeSessionId : option string) : list string :=
  ["--print"; "--dangerously-skip-permissions";
   "--input-format"; "stream-json"; "--output-format"; "stream-json";
   "--include-partial-messages"; "--verbose"]
  ++ match resumeSessionId with
     | Some r => if truthy r then ["--resume"; r] else []
     | None => []
     end.

Definition start (env : Env) (cwd : string) (resumeSessionId : option string)
    (pw : ClaudeProcess * World) : ClaudeProcess * World :=
  let '(p, w) := stop pw in
  let p := if truthy (str_or (claudePath p) "") then p
           else set_claudePath (env_findClaudeCli env) p in
  if negb (truthy (str_or (claudePath p) "")) then
    sendToRenderer
      (error_envelope ""
         "Claude CLI not found. Please install it with: npm install -g @anthropic-ai/claude-code")
      (p, w)
  else
    let path := str_or (claudePath p) "" in
    let safeCwd := validateCwd env cwd in
    let p := set_currentCwd (Some safeCwd) p in
    let p := set_messageIdCounter 0 p in
    let useShell := env_isWindows env && endsWithStr path ".cmd" in
    let child :=
      {| c_command := path; c_args := spawn_args resumeSessionId;
         c_cwd := safeCwd; c_shell := useShell; c_session := sessionId p;
         c_stdin := []; c_stdin_error := None; c_signals := [] |} in
    let pid := length (children w) in
    let w := set_children (children w ++ [child]) w in
    let p := set_process (Some pid) p in
    let p := set_stdoutBuffer EmptyString p in
    let p := set_stderrRl true p in
    let '(p, w) := sendToRenderer (status_envelope "started" None (Some cwd)) (p, w) in
    (startHeartbeat p, w).

(** The test that [validateCwd] applies to the resolved path: it starts,
    letter case apart, with the home directory or one of the four fixed
    locations. *)
Definition isSafe (env : Env) (path : string) : bool :=
  existsb (λ safePath, startsWith (toLowerCase path) (toLowerCase safePath))
    [env_homedir env; "C:\Users"; "C:\Projects"; "D:\"; "E:\"].

(** The executable that [start] runs: the path found when the object was
    created, or else the one found now. *)
Definition cli_path (env : Env) (p : ClaudeProcess) : string :=
  if truthy (str_or (claudePath p) "") then str_or (claudePath p) ""
  else str_or (env_findClaudeCli env) "".

(** The object as [stop] leaves it: unbound, both timers cleared, nothing
    buffered, the event counter at zero. *)
Definition stopped (p : ClaudeProcess) : Prop :=
  process p = None ∧ heartbeatInterval p = false ∧ deltaFlushTimer p = false
  ∧ deltaBuffer p = [] ∧ lastDeltaEvent p = None ∧ stdoutBuffer p = EmptyString
  ∧ stderrRl p = false ∧ eventCounter p = 0%Z.

(** *** Everything that can happen to an object

    The listeners that [start] attaches and the timers stay attached to the
    object whatever becomes of the subprocess, so each of these can come at
    any time: the events of a subprocess, the callbacks of the two timers
    and of [setImmediate], the destruction of the window, and the calls of
    the public methods. *)
Inductive Action :=
| StdoutData (chunk : string)
| StderrLine (line : string)
| ChildError (message : string)
| ChildClose (code : option Z)
| DeltaTick
| HeartbeatTick (now : Z)
| RunImmediate
| WindowDestroyed
| CallSend (message : string)
| CallStop
| CallStart (env : Env) (cwd : string) (resumeSessionId : option string).

Definition perform (JSON_parse : string → option Payload) (pw : ClaudeProcess * World)
    (action : Action) : ClaudeProcess * World :=
  match action with
  | StdoutData chunk => on_stdout_data JSON_parse chunk pw
  | StderrLine line => on_stderr_line line pw
  | ChildError message => on_error message pw
  | ChildClose code => on_close code pw
  | DeltaTick => delta_timer_tick pw
  | HeartbeatTick now => heartbeat_tick now pw
  | RunImmediate => (pw.1, run_immediate pw.2)
  | WindowDestroyed => (pw.1, set_windowDestroyed true pw.2)
  | CallSend message => send message pw
  | CallStop => stop pw
  | CallStart env cwd resumeSessionId => start env cwd resumeSessionId pw
  end.

(** A history of the object, oldest action first. *)
Definition history (JSON_parse : string → option Payload) (actions : list Action)
    (pw : ClaudeProcess * World) : ClaudeProcess * World :=
  foldl (perform JSON_parse) pw actions.

(** A world in which nothing has been queued or sent yet. *)
Definition quiet_world (destroyed : bool) (children : list Child) : World :=
  {| windowDestroyed := destroyed; immediates := []; sent := [];
     children := children |}.

End ClaudeProcess.

(** ** Session Registry: [ClaudeProcessManager]
    (src/main/claude-process-manager.ts)

    [processes] maps a session id to its [ClaudeProcess] object. The objects
    are reached through the map only, so a method call on one is modelled by
    writing the object it returns back under its id. *)
Module ClaudeProcessManager.
Import Protocol.
Import ClaudeProcess.

(** [sendError]: sent at once, unless the window is gone. *)
Definition sendError (sessionId error : string) (w : World) : World :=
  if windowDestroyed w then w
  else set_sent (sent w ++ [error_envelope sessionId error]) w.

Definition start (env : Env) (sessionId cwd : string)
    (claudeSessionId : option string)
    (mw : gmap string ClaudeProcess * World) : gmap string ClaudeProcess * World :=
  let '(processes, w) := mw in
  let '(process, w) :=
    match processes !! sessionId with
    | Some process =>
      if ClaudeProcess.isRunning process
      then ClaudeProcess.stop (process, w) else (process, w)
    | None => (ClaudeProcess.new env sessionId, w)
    end in
  let '(process, w) := ClaudeProcess.start env cwd claudeSessionId (process, w) in
  (<[sessionId := process]> processes, w).

Definition send (sessionId message : string)
    (mw : gmap string ClaudeProcess * World) : gmap string ClaudeProcess * World :=
  let '(processes, w) := mw in
  match processes !! sessionId with
  | None =>
    (processes,
     sendError sessionId
       "No Claude process running for this session. Please restart." w)
  | Some process =>
    if negb (ClaudeProcess.isRunning process) then
      (processes,
       sendError sessionId "Claude process not running. Please restart." w)
    else
      let '(process, w) := ClaudeProcess.send message (process, w) in
      (<[sessionId := process]> processes, w)
  end.

Definition stop (sessionId : string)
    (mw : gmap string ClaudeProcess * World) : gmap string ClaudeProcess * World :=
  let '(processes, w) := mw in
  match processes !! sessionId with
  | Some process =>
    let '(process, w) := ClaudeProcess.stop (process, w) in
    (<[sessionId := process]> processes, w)
  | None => mw
  end.

(** [stopAll]: every process is stopped, then the map is cleared, so only
    the effect of the stops on the world remains. *)
Definition stopAll (mw : gmap string ClaudeProcess * World)
    : gmap string ClaudeProcess * World :=
  let '(processes, w) := mw in
  (∅, map_fold (λ _ process w, (ClaudeProcess.stop (process, w)).2) w processes).

Definition isRunning (sessionId : string) (processes : gmap string ClaudeProcess)
    : bool :=
  match processes !! sessionId with
  | Some process => ClaudeProcess.isRunning process
  | None => false
  end.

Definition getCwd (sessionId : string) (processes : gmap string ClaudeProcess)
    : option string :=
  processes !! sessionId ≫= ClaudeProcess.getCwd.

Definition removeSession (sessionId : string)
    (mw : gmap string ClaudeProcess * World) : gmap string ClaudeProcess * World :=
  let '(processes, w) := mw in
  match processes !! sessionId with
  | Some process =>
    let '(_, w) :=
      if ClaudeProcess.isRunning process
      then ClaudeProcess.stop (process, w) else (process, w) in
    (delete sessionId processes, w)
  | None => mw
  end.

(** The subprocesses of a session that no signal was sent to. *)
Definition live_children (sessionId : string) (w : World) : list nat :=
  List.filter
    (λ pid, match children w !! pid with
            | Some c => bool_decide (c_session c = sessionId)
                        && bool_decide (c_signals c = [])
            | None => false
            end)
    (seq 0 (length (children w))).

(** The binding invariant of the registry. Every object sits under its own
    session id; the subprocess an object is bound to exists, belongs to that
    session and has not been signalled; and every subprocess that has not
    been signalled is the one its session's object is bound to. The calls of
    the registry keep it; the [close] event of a subprocess that has been
    replaced does not ([child_closed] below). *)
Definition registry_ok (mw : gmap string ClaudeProcess * World) : Prop :=
  (∀ sid p, mw.1 !! sid = Some p → sessionId p = sid)
  ∧ (∀ sid p pid, mw.1 !! sid = Some p → process p = Some pid →
       ∃ c, children mw.2 !! pid = Some c ∧ c_session c = sid ∧ c_signals c = [])
  ∧ (∀ pid c, children mw.2 !! pid = Some c → c_signals c = [] →
       ∃ p, mw.1 !! c_session c = Some p ∧ process p = Some pid).

(** Between two calls of the registry the subprocesses raise their events.
    [ClaudeProcess.start] installs on every subprocess it spawns

      this.process.on('close', (code) => { ...; this.process = null; })

    (claude-process.ts, lines 235-242), a handler that reaches the object
    through [this] and not the subprocess it was installed on. So when a
    subprocess that the object registered for [sessionId] has spawned
    closes, the current one or one that a later [start] has replaced, the
    handler runs on that object as it is by then. With no object registered
    for the id there is no such subprocess. *)
Definition child_closed (sessionId : string) (code : option Z)
    (mw : gmap string ClaudeProcess * World) : gmap string ClaudeProcess * World :=
  match mw.1 !! sessionId with
  | Some process =>
    let '(process, w) := ClaudeProcess.on_close code (process, mw.2) in
    (<[sessionId := process]> mw.1, w)
  | None => mw
  end.

End ClaudeProcessManager.

(** ** Session persistence (src/main/ipc-handlers.ts) *)
Module IpcHandlers.

Record StoredSession := mkStoredSession {
  id : string;
  title : string;
  workingDirectory : string;
  createdAt : Z;
  updatedAt : Z;
  messageCount : Z;
  claudeSessionId : option string;
  totalCost : option float;
  favorite : option bool
}.

(** The file sessions.json: its parsed content, [None] when it does not
    exist or cannot be read, and whether a write to it succeeds. *)
Record Disk := mkDisk {
  sessionsFile : option (list StoredSession);
  writable : bool
}.

Definition loadSessions (d : Disk) : list StoredSession :=
  default [] (sessionsFile d).

Definition saveSessions (sessions : list StoredSession) (d : Disk) : Disk :=
  if writable d then {| sessionsFile := Some sessions; writable := writable d |}
  else d.

(** [Array.prototype.findIndex]; [None] stands for [-1]. *)
Fixpoint findIndex {A} (f : A → bool) (l : list A) : option nat :=
  match l with
  | [] => None
  | x :: l' => if f x then Some 0 else S <$> findIndex f l'
  end.

(** [ipcMain.handle('sessions:save', ...)]: the list returned and the disk
    afterwards. *)
Definition sessions_save (session : StoredSession) (d : Disk)
    : list StoredSession * Disk :=
  let sessions := loadSessions d in
  let existingIndex := findIndex (λ s, bool_decide (id s = id session)) sessions in
  let sessions :=
    match existingIndex with
    | Some i => <[i := session]> sessions
    | None => session :: sessions
    end in
  let trimmed := take 50 sessions in
  (trimmed, saveSessions trimmed d).

(** [ipcMain.handle('sessions:delete', ...)], as far as sessions.json goes. *)
Definition sessions_delete (sessionId : string) (d : Disk)
    : list StoredSession * Disk :=
  let sessions := loadSessions d in
  let filtered := filter (λ s, id s ≠ sessionId) sessions in
  (filtered, saveSessions filtered d).

(** The states of sessions.json that the application itself brings about,
    starting without the file. *)
Inductive reachable : Disk → Prop :=
| reachable_fresh (w : bool) :
    reachable {| sessionsFile := None; writable := w |}
| reachable_save (session : StoredSession) (d : Disk) :
    reachable d → reachable (sessions_save session d).2
| reachable_delete (sessionId : string) (d : Disk) :
    reachable d → reachable (sessions_delete sessionId d).2
| reachable_writable (w : bool) (d : Disk) :
    reachable d → reachable {| sessionsFile := sessionsFile d; writable := w |}.

(** Concrete inputs: a record per number, a disk without the file, and the
    disk after the sessions numbered 0 to 49 were saved in that order. *)
Definition sample_session (n : nat) : StoredSession :=
  {| id := String (ascii_of_nat (48 + n)) EmptyString; title := "New Session";
     workingDirectory := "/home/user"; createdAt := Z.of_nat n;
     updatedAt := Z.of_nat n; messageCount := 0; claudeSessionId := None;
     totalCost := None; favorite := None |}.

Definition fresh_disk : Disk := {| sessionsFile := None; writable := true |}.

Definition full_disk : Disk :=
  foldl (λ d n, (sessions_save (sample_session n) d).2) fresh_disk (seq 0 50).

(** The other files of the user-data directory. [sessionsPath] is
    [getSessionsPath()] and [getMessagesPath sessionId] is
    [path.join(getMessagesDir(), sessionId + '.json')], both as [path.join]
    gives them, normalised. The session id comes from the renderer as it
    is, so the two paths can be one: for the id ../sessions they are. *)
Section Messages.
Context {M : Type}.
Variable sessionsPath : string.
Variable getMessagesPath : string → string.

(** The parsed content of each file other than sessions.json that exists,
    by its path, and the paths at which [fs.unlinkSync] succeeds. *)
Record MessageFiles := mkMessageFiles {
  files : gmap string (list M);
  canUnlink : string → bool
}.

(** [deleteMessages]: [fs.unlinkSync] on the session's message path if a
    file exists there, an error being swallowed. The file unlinked is
    sessions.json when the path is that of sessions.json. *)
Definition deleteMessages (sessionId : string) (d : Disk) (f : MessageFiles)
    : Disk * MessageFiles :=
  let messagesPath := getMessagesPath sessionId in
  if negb (canUnlink f messagesPath) then (d, f)
  else if bool_decide (messagesPath = sessionsPath)
  then ({| sessionsFile := None; writable := writable d |}, f)
  else (d, {| files := delete messagesPath (files f); canUnlink := canUnlink f |}).

(** What the handlers of the main process work on: the registry with its
    world, sessions.json and the other files. *)
Record Main := mkMain {
  processManager : gmap string ClaudeProcess.ClaudeProcess * ClaudeProcess.World;
  disk : Disk;
  messageFiles : MessageFiles
}.

(** [ipcMain.handle('sessions:delete', ...)] in full: the list returned and
    the state afterwards. *)
Definition sessions_delete_handler (sessionId : string) (m : Main)
    : list StoredSession * Main :=
  let processManager := ClaudeProcessManager.removeSession sessionId (processManager m) in
  let '(filtered, disk) := sessions_delete sessionId (disk m) in
  let '(disk, messageFiles) := deleteMessages sessionId disk (messageFiles m) in
  (filtered,
   {| processManager := processManager; disk := disk; messageFiles := messageFiles |}).

End Messages.

End IpcHandlers.

(** ** Conversation Reducer: [handleStreamEvent] (src/renderer/App.tsx)

    The component's state for the focused session ([useState]) and its
    per-session refs ([useRef] holding a [Map] keyed by session id) form one
    record. A functional state update [setX(f)] is modelled by applying [f]
    at once: React applies queued updates in call order, each to the result
    of the one before. [generateId] draws on [Math.random]; the model takes
    its successive results from a function of the call number. *)
Module App.
Import Js Protocol.

Inductive BlockType := TText | TThinking | TToolUse | TToolResult | TCode.

Inductive ToolStatus := StatusRunning | StatusComplete | StatusError.

Record ContentBlock := mkContentBlock {
  cb_id : string;
  cb_type : BlockType;
  cb_content : string;
  cb_isComplete : option bool;
  cb_toolName : option string;
  cb_toolInput : option json;
  cb_toolStatus : option ToolStatus
}.

Inductive Role := RoleUser | RoleAssistant.

Record Message := mkMessage {
  msg_id : string;
  msg_role : Role;
  msg_content : list ContentBlock;
  msg_timestamp : Z;
  msg_isStreaming : option bool
}.

Record SessionInfo := mkSessionInfo {
  model : string;
  contextUsed : Z;
  contextMax : Z;
  outputTokens : Z;
  totalCost : float;
  slashCommands : list string
}.

Definition default_info : SessionInfo :=
  {| model := "claude-opus-4-5-20251101"; contextUsed := 0;
     contextMax := 200000; outputTokens := 0; totalCost := 0;
     slashCommands := [] |}.

Inductive ThinkingStatus := Idle | Thinking | Responding.

Record UserInfo := mkUserInfo {
  email : option string;
  name : option string;
  isLoggedIn : bool
}.

(** A [QuantumStreamRenderer], as far as the reducer is concerned: its FIFO
    of characters, and the [currentSessionId] that its callbacks closed
    over when [getQuantumRenderer] created it. How many characters a frame
    takes from the FIFO is the renderer's adaptive pacing, which the model
    leaves open: a frame comes with its amount. *)
Record Renderer := mkRenderer {
  r_buffer : string;
  r_current : option string
}.

(** The interval timer of [ensureFlushTimer]; its callback closed over the
    [flushToolJson] of the render that created it, and so over that
    render's [currentSessionId]. *)
Record Timer := mkTimer {
  t_current : option string
}.

Record State := mkState {
  messages : list Message;  (* useState: the focused session's messages *)
  isStreaming : bool;
  isConnected : bool;
  sessionInfo : SessionInfo;
  currentSessionId : option string;
  claudeSessionId : option string;
  error : option string;  (* the toast set by showError *)
  thinkingStatus : ThinkingStatus;
  todos : json;
  streamStartTime : option Z;
  userInfo : UserInfo;
  activeSessionIds : list string;
  currentMessageIdRef : option string;  (* useRef *)
  currentBlockIndexRef : Z;
  messagesPerSession : gmap string (list Message);  (* the per-session refs *)
  sessionInfoPerSession : gmap string SessionInfo;
  todosPerSession : gmap string json;
  streamingPerSession : gmap string bool;
  thinkingStatusPerSession : gmap string ThinkingStatus;
  currentMessageIdPerSession : gmap string (option string);
  currentBlockIndexPerSession : gmap string Z;
  claudeSessionIdPerSession : gmap string string;
  streamStartTimePerSession : gmap string (option Z);
  toolJsonAccumulator : gmap string (list (Z * string));
  toolJsonFlushTimer : gmap string (option Timer);  (* None inside: null *)
  lastFlushedLength : gmap string (list (Z * nat));
  toolNameByBlock : gmap string (list (Z * string));
  quantumRenderer : gmap string (list (Z * Renderer));
  idCounter : nat  (* how often generateId was called *)
}.

Definition set_messages (v : list Message) (r : State) : State :=
  {| messages := v; isStreaming := isStreaming r;
     isConnected := isConnected r; sessionInfo := sessionInfo r;
     currentSessionId := currentSessionId r;
     claudeSessionId := claudeSessionId r; error := error r;
     thinkingStatus := thinkingStatus r; todos := todos r;
     streamStartTime := streamStartTime r; userInfo := userInfo r;
     activeSessionIds := activeSessionIds r;
     currentMessageIdRef := currentMessageIdRef r;
     currentBlockIndexRef := currentBlockIndexRef r;
     messagesPerSession := messagesPerSession r;
     sessionInfoPerSession := sessionInfoPerSession r;
     todosPerSession := todosPerSession r;
     streamingPerSession := streamingPerSession r;
     thinkingStatusPerSession := thinkingStatusPerSession r;
     currentMessageIdPerSession := currentMessageIdPerSession r;
     currentBlockIndexPerSession := currentBlockIndexPerSession r;
     claudeSessionIdPerSession := claudeSessionIdPerSession r;
     streamStartTimePerSession := streamStartTimePerSession r;
     toolJsonAccumulator := toolJsonAccumulator r;
     toolJsonFlushTimer := toolJsonFlushTimer r;
     lastFlushedLength := lastFlushedLength r;
     toolNameByBlock := toolNameByBlock r;
     quantumRenderer := quantumRenderer r; idCounter := idCounter r |}.
Definition set_isStreaming (v : bool) (r : State) : State :=
  {| messages := messages r; isStreaming := v; isConnected := isConnected r;
     sessionInfo := sessionInfo r; currentSessionId := currentSessionId r;
     claudeSessionId := claudeSessionId r; error := error r;
     thinkingStatus := thinkingStatus r; todos := todos r;
     streamStartTime := streamStartTime r; userInfo := userInfo r;
     activeSessionIds := activeSessionIds r;
     currentMessageIdRef := currentMessageIdRef r;
     currentBlockIndexRef := currentBlockIndexRef r;
     messagesPerSession := messagesPerSession r;
     sessionInfoPerSession := sessionInfoPerSession r;
     todosPerSession := todosPerSession r;
     streamingPerSession := streamingPerSession r;
     thinkingStatusPerSession := thinkingStatusPerSession r;
     currentMessageIdPerSession := currentMessageIdPerSession r;
     currentBlockIndexPerSession := currentBlockIndexPerSession r;
     claudeSessionIdPerSession := claudeSessionIdPerSession r;
     streamStartTimePerSession := streamStartTimePerSession r;
     toolJsonAccumulator := toolJsonAccumulator r;
     toolJsonFlushTimer := toolJsonFlushTimer r;
     lastFlushedLength := lastFlushedLength r;
     toolNameByBlock := toolNameByBlock r;
     quantumRenderer := quantumRenderer r; idCounter := idCounter r |}.
Definition set_isConnected (v : bool) (r : State) : State :=
  {| messages := messages r; isStreaming := isStreaming r; isConnected := v;
     sessionInfo := sessionInfo r; currentSessionId := currentSessionId r;
     claudeSessionId := claudeSessionId r; error := error r;
     thinkingStatus := thinkingStatus r; todos := todos r;
     streamStartTime := streamStartTime r; userInfo := userInfo r;
     activeSessionIds := activeSessionIds r;
     currentMessageIdRef := currentMessageIdRef r;
     currentBlockIndexRef := currentBlockIndexRef r;
     messagesPerSession := messagesPerSession r;
     sessionInfoPerSession := sessionInfoPerSession r;
     todosPerSession := todosPerSession r;
     streamingPerSession := streamingPerSession r;
     thinkingStatusPerSession := thinkingStatusPerSession r;
     currentMessageIdPerSession := currentMessageIdPerSession r;
     currentBlockIndexPerSession := currentBlockIndexPerSession r;
     claudeSessionIdPerSession := claudeSessionIdPerSession r;
     streamStartTimePerSession := streamStartTimePerSession r;
     toolJsonAccumulator := toolJsonAccumulator r;
     toolJsonFlushTimer := toolJsonFlushTimer r;
     lastFlushedLength := lastFlushedLength r;
     toolNameByBlock := toolNameByBlock r;
     quantumRenderer := quantumRenderer r; idCounter := idCounter r |}.
Definition set_sessionInfo (v : SessionInfo) (r : State) : State :=
  {| messages := messages r; isStreaming := isStreaming r;
     isConnected := isConnected r; sessionInfo := v;
     currentSessionId := currentSessionId r;
     claudeSessionId := claudeSessionId r; error := error r;
     thinkingStatus := thinkingStatus r; todos := todos r;
     streamStartTime := streamStartTime r; userInfo := userInfo r;
     activeSessionIds := activeSessionIds r;
     currentMessageIdRef := currentMessageIdRef r;
     currentBlockIndexRef := currentBlockIndexRef r;
     messagesPerSession := messagesPerSession r;
     sessionInfoPerSession := sessionInfoPerSession r;
     todosPerSession := todosPerSession r;
     streamingPerSession := streamingPerSession r;
     thinkingStatusPerSession := thinkingStatusPerSession r;
     currentMessageIdPerSession := currentMessageIdPerSession r;
     currentBlockIndexPerSession := currentBlockIndexPerSession r;
     claudeSessionIdPerSession := claudeSessionIdPerSession r;
     streamStartTimePerSession := streamStartTimePerSession r;
     toolJsonAccumulator := toolJsonAccumulator r;
     toolJsonFlushTimer := toolJsonFlushTimer r;
     lastFlushedLength := lastFlushedLength r;
     toolNameByBlock := toolNameByBlock r;
     quantumRenderer := quantumRenderer r; idCounter := idCounter r |}.
Definition set_claudeSessionId (v : option string) (r : State) : State :=
  {| messages := messages r; isStreaming := isStreaming r;
     isConnected := isConnected r; sessionInfo := sessionInfo r;
     currentSessionId := currentSessionId r; claudeSessionId := v;
     error := error r; thinkingStatus := thinkingStatus r; todos := todos r;
     streamStartTime := streamStartTime r; userInfo := userInfo r;
     activeSessionIds := activeSessionIds r;
     currentMessageIdRef := currentMessageIdRef r;
     currentBlockIndexRef := currentBlockIndexRef r;
     messagesPerSession := messagesPerSession r;
     sessionInfoPerSession := sessionInfoPerSession r;
     todosPerSession := todosPerSession r;
     streamingPerSession := streamingPerSession r;
     thinkingStatusPerSession := thinkingStatusPerSession r;
     currentMessageIdPerSession := currentMessageIdPerSession r;
     currentBlockIndexPerSession := currentBlockIndexPerSession r;
     claudeSessionIdPerSession := claudeSessionIdPerSession r;
     streamStartTimePerSession := streamStartTimePerSession r;
     toolJsonAccumulator := toolJsonAccumulator r;
     toolJsonFlushTimer := toolJsonFlushTimer r;
     lastFlushedLength := lastFlushedLength r;
     toolNameByBlock := toolNameByBlock r;
     quantumRenderer := quantumRenderer r; idCounter := idCounter r |}.
Definition set_error (v : option string) (r : State) : State :=
  {| messages := messages r; isStreaming := isStreaming r;
     isConnected := isConnected r; sessionInfo := sessionInfo r;
     currentSessionId := currentSessionId r;
     claudeSessionId := claudeSessionId r; error := v;
     thinkingStatus := thinkingStatus r; todos := todos r;
     streamStartTime := streamStartTime r; userInfo := userInfo r;
     activeSessionIds := activeSessionIds r;
     currentMessageIdRef := currentMessageIdRef r;
     currentBlockIndexRef := currentBlockIndexRef r;
     messagesPerSession := messagesPerSession r;
     sessionInfoPerSession := sessionInfoPerSession r;
     todosPerSession := todosPerSession r;
     streamingPerSession := streamingPerSession r;
     thinkingStatusPerSession := thinkingStatusPerSession r;
     currentMessageIdPerSession := currentMessageIdPerSession r;
     currentBlockIndexPerSession := currentBlockIndexPerSession r;
     claudeSessionIdPerSession := claudeSessionIdPerSession r;
     streamStartTimePerSession := streamStartTimePerSession r;
     toolJsonAccumulator := toolJsonAccumulator r;
     toolJsonFlushTimer := toolJsonFlushTimer r;
     lastFlushedLength := lastFlushedLength r;
     toolNameByBlock := toolNameByBlock r;
     quantumRenderer := quantumRenderer r; idCounter := idCounter r |}.
Definition set_thinkingStatus (v : ThinkingStatus) (r : State) : State :=
  {| messages := messages r; isStreaming := isStreaming r;
     isConnected := isConnected r; sessionInfo := sessionInfo r;
     currentSessionId := currentSessionId r;
     claudeSessionId := claudeSessionId r; error := error r;
     thinkingStatus := v; todos := todos r;
     streamStartTime := streamStartTime r; userInfo := userInfo r;
     activeSessionIds := activeSessionIds r;
     currentMessageIdRef := currentMessageIdRef r;
     currentBlockIndexRef := currentBlockIndexRef r;
     messagesPerSession := messagesPerSession r;
     sessionInfoPerSession := sessionInfoPerSession r;
     todosPerSession := todosPerSession r;
     streamingPerSession := streamingPerSession r;
     thinkingStatusPerSession := thinkingStatusPerSession r;
     currentMessageIdPerSession := currentMessageIdPerSession r;
     currentBlockIndexPerSession := currentBlockIndexPerSession r;
     claudeSessionIdPerSession := claudeSessionIdPerSession r;
     streamStartTimePerSession := streamStartTimePerSession r;
     toolJsonAccumulator := toolJsonAccumulator r;
     toolJsonFlushTimer := toolJsonFlushTimer r;
     lastFlushedLength := lastFlushedLength r;
     toolNameByBlock := toolNameByBlock r;
     quantumRenderer := quantumRenderer r; idCounter := idCounter r |}.
Definition set_todos (v : json) (r : State) : State :=
  {| messages := messages r; isStreaming := isStreaming r;
     isConnected := isConnected r; sessionInfo := sessionInfo r;
     currentSessionId := currentSessionId r;
     claudeSessionId := claudeSessionId r; error := error r;
     thinkingStatus := thinkingStatus r; todos := v;
     streamStartTime := streamStartTime r; userInfo := userInfo r;
     activeSessionIds := activeSessionIds r;
     currentMessageIdRef := currentMessageIdRef r;
     currentBlockIndexRef := currentBlockIndexRef r;
     messagesPerSession := messagesPerSession r;
     sessionInfoPerSession := sessionInfoPerSession r;
     todosPerSession := todosPerSession r;
     streamingPerSession := streamingPerSession r;
     thinkingStatusPerSession := thinkingStatusPerSession r;
     currentMessageIdPerSession := currentMessageIdPerSession r;
     currentBlockIndexPerSession := currentBlockIndexPerSession r;
     claudeSessionIdPerSession := claudeSessionIdPerSession r;
     streamStartTimePerSession := streamStartTimePerSession r;
     toolJsonAccumulator := toolJsonAccumulator r;
     toolJsonFlushTimer := toolJsonFlushTimer r;
     lastFlushedLength := lastFlushedLength r;
     toolNameByBlock := toolNameByBlock r;
     quantumRenderer := quantumRenderer r; idCounter := idCounter r |}.
Definition set_streamStartTime (v : option Z) (r : State) : State :=
  {| messages := messages r; isStreaming := isStreaming r;
     isConnected := isConnected r; sessionInfo := sessionInfo r;
     currentSessionId := currentSessionId r;
     claudeSessionId := claudeSessionId r; error := error r;
     thinkingStatus := thinkingStatus r; todos := todos r;
     streamStartTime := v; userInfo := userInfo r;
     activeSessionIds := activeSessionIds r;
     currentMessageIdRef := currentMessageIdRef r;
     currentBlockIndexRef := currentBlockIndexRef r;
     messagesPerSession := messagesPerSession r;
     sessionInfoPerSession := sessionInfoPerSession r;
     todosPerSession := todosPerSession r;
     streamingPerSession := streamingPerSession r;
     thinkingStatusPerSession := thinkingStatusPerSession r;
     currentMessageIdPerSession := currentMessageIdPerSession r;
     currentBlockIndexPerSession := currentBlockIndexPerSession r;
     claudeSessionIdPerSession := claudeSessionIdPerSession r;
     streamStartTimePerSession := streamStartTimePerSession r;
     toolJsonAccumulator := toolJsonAccumulator r;
     toolJsonFlushTimer := toolJsonFlushTimer r;
     lastFlushedLength := lastFlushedLength r;
     toolNameByBlock := toolNameByBlock r;
     quantumRenderer := quantumRenderer r; idCounter := idCounter r |}.
Definition set_userInfo (v : UserInfo) (r : State) : State :=
  {| messages := messages r; isStreaming := isStreaming r;
     isConnected := isConnected r; sessionInfo := sessionInfo r;
     currentSessionId := currentSessionId r;
     claudeSessionId := claudeSessionId r; error := error r;
     thinkingStatus := thinkingStatus r; todos := todos r;
     streamStartTime := streamStartTime r; userInfo := v;
     activeSessionIds := activeSessionIds r;
     currentMessageIdRef := currentMessageIdRef r;
     currentBlockIndexRef := currentBlockIndexRef r;
     messagesPerSession := messagesPerSession r;
     sessionInfoPerSession := sessionInfoPerSession r;
     todosPerSession := todosPerSession r;
     streamingPerSession := streamingPerSession r;
     thinkingStatusPerSession := thinkingStatusPerSession r;
     currentMessageIdPerSession := currentMessageIdPerSession r;
     currentBlockIndexPerSession := currentBlockIndexPerSession r;
     claudeSessionIdPerSession := claudeSessionIdPerSession r;
     streamStartTimePerSession := streamStartTimePerSession r;
     toolJsonAccumulator := toolJsonAccumulator r;
     toolJsonFlushTimer := toolJsonFlushTimer r;
     lastFlushedLength := lastFlushedLength r;
     toolNameByBlock := toolNameByBlock r;
     quantumRenderer := quantumRenderer r; idCounter := idCounter r |}.
Definition set_activeSessionIds (v : list string) (r : State) : State :=
  {| messages := messages r; isStreaming := isStreaming r;
     isConnected := isConnected r; sessionInfo := sessionInfo r;
     currentSessionId := currentSessionId r;
     claudeSessionId := claudeSessionId r; error := error r;
     thinkingStatus := thinkingStatus r; todos := todos r;
     streamStartTime := streamStartTime r; userInfo := userInfo r;
     activeSessionIds := v; currentMessageIdRef := currentMessageIdRef r;
     currentBlockIndexRef := currentBlockIndexRef r;
     messagesPerSession := messagesPerSession r;
     sessionInfoPerSession := sessionInfoPerSession r;
     todosPerSession := todosPerSession r;
     streamingPerSession := streamingPerSession r;
     thinkingStatusPerSession := thinkingStatusPerSession r;
     currentMessageIdPerSession := currentMessageIdPerSession r;
     currentBlockIndexPerSession := currentBlockIndexPerSession r;
     claudeSessionIdPerSession := claudeSessionIdPerSession r;
     streamStartTimePerSession := streamStartTimePerSession r;
     toolJsonAccumulator := toolJsonAccumulator r;
     toolJsonFlushTimer := toolJsonFlushTimer r;
     lastFlushedLength := lastFlushedLength r;
     toolNameByBlock := toolNameByBlock r;
     quantumRenderer := quantumRenderer r; idCounter := idCounter r |}.
Definition set_currentMessageIdRef (v : option string) (r : State) : State :=
  {| messages := messages r; isStreaming := isStreaming r;
     isConnected := isConnected r; sessionInfo := sessionInfo r;
     currentSessionId := currentSessionId r;
     claudeSessionId := claudeSessionId r; error := error r;
     thinkingStatus := thinkingStatus r; todos := todos r;
     streamStartTime := streamStartTime r; userInfo := userInfo r;
     activeSessionIds := activeSessionIds r; currentMessageIdRef := v;
     currentBlockIndexRef := currentBlockIndexRef r;
     messagesPerSession := messagesPerSession r;
     sessionInfoPerSession := sessionInfoPerSession r;
     todosPerSession := todosPerSession r;
     streamingPerSession := streamingPerSession r;
     thinkingStatusPerSession := thinkingStatusPerSession r;
     currentMessageIdPerSession := currentMessageIdPerSession r;
     currentBlockIndexPerSession := currentBlockIndexPerSession r;
     claudeSessionIdPerSession := claudeSessionIdPerSession r;
     streamStartTimePerSession := streamStartTimePerSession r;
     toolJsonAccumulator := toolJsonAccumulator r;
     toolJsonFlushTimer := toolJsonFlushTimer r;
     lastFlushedLength := lastFlushedLength r;
     toolNameByBlock := toolNameByBlock r;
     quantumRenderer := quantumRenderer r; idCounter := idCounter r |}.
Definition set_currentBlockIndexRef (v : Z) (r : State) : State :=
  {| messages := messages r; isStreaming := isStreaming r;
     isConnected := isConnected r; sessionInfo := sessionInfo r;
     currentSessionId := currentSessionId r;
     claudeSessionId := claudeSessionId r; error := error r;
     thinkingStatus := thinkingStatus r; todos := todos r;
     streamStartTime := streamStartTime r; userInfo := userInfo r;
     activeSessionIds := activeSessionIds r;
     currentMessageIdRef := currentMessageIdRef r; currentBlockIndexRef := v;
     messagesPerSession := messagesPerSession r;
     sessionInfoPerSession := sessionInfoPerSession r;
     todosPerSession := todosPerSession r;
     streamingPerSession := streamingPerSession r;
     thinkingStatusPerSession := thinkingStatusPerSession r;
     currentMessageIdPerSession := currentMessageIdPerSession r;
     currentBlockIndexPerSession := currentBlockIndexPerSession r;
     claudeSessionIdPerSession := claudeSessionIdPerSession r;
     streamStartTimePerSession := streamStartTimePerSession r;
     toolJsonAccumulator := toolJsonAccumulator r;
     toolJsonFlushTimer := toolJsonFlushTimer r;
     lastFlushedLength := lastFlushedLength r;
     toolNameByBlock := toolNameByBlock r;
     quantumRenderer := quantumRenderer r; idCounter := idCounter r |}.
Definition set_messagesPerSession (v : gmap string (list Message)) (r : State) : State :=
  {| messages := messages r; isStreaming := isStreaming r;
     isConnected := isConnected r; sessionInfo := sessionInfo r;
     currentSessionId := currentSessionId r;
     claudeSessionId := claudeSessionId r; error := error r;
     thinkingStatus := thinkingStatus r; todos := todos r;
     streamStartTime := streamStartTime r; userInfo := userInfo r;
     activeSessionIds := activeSessionIds r;
     currentMessageIdRef := currentMessageIdRef r;
     currentBlockIndexRef := currentBlockIndexRef r; messagesPerSession := v;
     sessionInfoPerSession := sessionInfoPerSession r;
     todosPerSession := todosPerSession r;
     streamingPerSession := streamingPerSession r;
     thinkingStatusPerSession := thinkingStatusPerSession r;
     currentMessageIdPerSession := currentMessageIdPerSession r;
     currentBlockIndexPerSession := currentBlockIndexPerSession r;
     claudeSessionIdPerSession := claudeSessionIdPerSession r;
     streamStartTimePerSession := streamStartTimePerSession r;
     toolJsonAccumulator := toolJsonAccumulator r;
     toolJsonFlushTimer := toolJsonFlushTimer r;
     lastFlushedLength := lastFlushedLength r;
     toolNameByBlock := toolNameByBlock r;
     quantumRenderer := quantumRenderer r; idCounter := idCounter r |}.
Definition set_sessionInfoPerSession (v : gmap string SessionInfo) (r : State) : State :=
  {| messages := messages r; isStreaming := isStreaming r;
     isConnected := isConnected r; sessionInfo := sessionInfo r;
     currentSessionId := currentSessionId r;
     claudeSessionId := claudeSessionId r; error := error r;
     thinkingStatus := thinkingStatus r; todos := todos r;
     streamStartTime := streamStartTime r; userInfo := userInfo r;
     activeSessionIds := activeSessionIds r;
     currentMessageIdRef := currentMessageIdRef r;
     currentBlockIndexRef := currentBlockIndexRef r;
     messagesPerSession := messagesPerSession r; sessionInfoPerSession := v;
     todosPerSession := todosPerSession r;
     streamingPerSession := streamingPerSession r;
     thinkingStatusPerSession := thinkingStatusPerSession r;
     currentMessageIdPerSession := currentMessageIdPerSession r;
     currentBlockIndexPerSession := currentBlockIndexPerSession r;
     claudeSessionIdPerSession := claudeSessionIdPerSession r;
     streamStartTimePerSession := streamStartTimePerSession r;
     toolJsonAccumulator := toolJsonAccumulator r;
     toolJsonFlushTimer := toolJsonFlushTimer r;
     lastFlushedLength := lastFlushedLength r;
     toolNameByBlock := toolNameByBlock r;
     quantumRenderer := quantumRenderer r; idCounter := idCounter r |}.
Definition set_todosPerSession (v : gmap string json) (r : State) : State :=
  {| messages := messages r; isStreaming := isStreaming r;
     isConnected := isConnected r; sessionInfo := sessionInfo r;
     currentSessionId := currentSessionId r;
     claudeSessionId := claudeSessionId r; error := error r;
     thinkingStatus := thinkingStatus r; todos := todos r;
     streamStartTime := streamStartTime r; userInfo := userInfo r;
     activeSessionIds := activeSessionIds r;
     currentMessageIdRef := currentMessageIdRef r;
     currentBlockIndexRef := currentBlockIndexRef r;
     messagesPerSession := messagesPerSession r;
     sessionInfoPerSession := sessionInfoPerSession r; todosPerSession := v;
     streamingPerSession := streamingPerSession r;
     thinkingStatusPerSession := thinkingStatusPerSession r;
     currentMessageIdPerSession := currentMessageIdPerSession r;
     currentBlockIndexPerSession := currentBlockIndexPerSession r;
     claudeSessionIdPerSession := claudeSessionIdPerSession r;
     streamStartTimePerSession := streamStartTimePerSession r;
     toolJsonAccumulator := toolJsonAccumulator r;
     toolJsonFlushTimer := toolJsonFlushTimer r;
     lastFlushedLength := lastFlushedLength r;
     toolNameByBlock := toolNameByBlock r;
     quantumRenderer := quantumRenderer r; idCounter := idCounter r |}.
Definition set_streamingPerSession (v : gmap string bool) (r : State) : State :=
  {| messages := messages r; isStreaming := isStreaming r;
     isConnected := isConnected r; sessionInfo := sessionInfo r;
     currentSessionId := currentSessionId r;
     claudeSessionId := claudeSessionId r; error := error r;
     thinkingStatus := thinkingStatus r; todos := todos r;
     streamStartTime := streamStartTime r; userInfo := userInfo r;
     activeSessionIds := activeSessionIds r;
     currentMessageIdRef := currentMessageIdRef r;
     currentBlockIndexRef := currentBlockIndexRef r;
     messagesPerSession := messagesPerSession r;
     sessionInfoPerSession := sessionInfoPerSession r;
     todosPerSession := todosPerSession r; streamingPerSession := v;
     thinkingStatusPerSession := thinkingStatusPerSession r;
     currentMessageIdPerSession := currentMessageIdPerSession r;
     currentBlockIndexPerSession := currentBlockIndexPerSession r;
     claudeSessionIdPerSession := claudeSessionIdPerSession r;
     streamStartTimePerSession := streamStartTimePerSession r;
     toolJsonAccumulator := toolJsonAccumulator r;
     toolJsonFlushTimer := toolJsonFlushTimer r;
     lastFlushedLength := lastFlushedLength r;
     toolNameByBlock := toolNameByBlock r;
     quantumRenderer := quantumRenderer r; idCounter := idCounter r |}.
Definition set_thinkingStatusPerSession (v : gmap string ThinkingStatus) (r : State) : State :=
  {| messages := messages r; isStreaming := isStreaming r;
     isConnected := isConnected r; sessionInfo := sessionInfo r;
     currentSessionId := currentSessionId r;
     claudeSessionId := claudeSessionId r; error := error r;
     thinkingStatus := thinkingStatus r; todos := todos r;
     streamStartTime := streamStartTime r; userInfo := userInfo r;
     activeSessionIds := activeSessionIds r;
     currentMessageIdRef := currentMessageIdRef r;
     currentBlockIndexRef := currentBlockIndexRef r;
     messagesPerSession := messagesPerSession r;
     sessionInfoPerSession := sessionInfoPerSession r;
     todosPerSession := todosPerSession r;
     streamingPerSession := streamingPerSession r;
     thinkingStatusPerSession := v;
     currentMessageIdPerSession := currentMessageIdPerSession r;
     currentBlockIndexPerSession := currentBlockIndexPerSession r;
     claudeSessionIdPerSession := claudeSessionIdPerSession r;
     streamStartTimePerSession := streamStartTimePerSession r;
     toolJsonAccumulator := toolJsonAccumulator r;
     toolJsonFlushTimer := toolJsonFlushTimer r;
     lastFlushedLength := lastFlushedLength r;
     toolNameByBlock := toolNameByBlock r;
     quantumRenderer := quantumRenderer r; idCounter := idCounter r |}.
Definition set_currentMessageIdPerSession (v : gmap string (option string)) (r : State) : State :=
  {| messages := messages r; isStreaming := isStreaming r;
     isConnected := isConnected r; sessionInfo := sessionInfo r;
     currentSessionId := currentSessionId r;
     claudeSessionId := claudeSessionId r; error := error r;
     thinkingStatus := thinkingStatus r; todos := todos r;
     streamStartTime := streamStartTime r; userInfo := userInfo r;
     activeSessionIds := activeSessionIds r;
     currentMessageIdRef := currentMessageIdRef r;
     currentBlockIndexRef := currentBlockIndexRef r;
     messagesPerSession := messagesPerSession r;
     sessionInfoPerSession := sessionInfoPerSession r;
     todosPerSession := todosPerSession r;
     streamingPerSession := streamingPerSession r;
     thinkingStatusPerSession := thinkingStatusPerSession r;
     currentMessageIdPerSession := v;
     currentBlockIndexPerSession := currentBlockIndexPerSession r;
     claudeSessionIdPerSession := claudeSessionIdPerSession r;
     streamStartTimePerSession := streamStartTimePerSession r;
     toolJsonAccumulator := toolJsonAccumulator r;
     toolJsonFlushTimer := toolJsonFlushTimer r;
     lastFlushedLength := lastFlushedLength r;
     toolNameByBlock := toolNameByBlock r;
     quantumRenderer := quantumRenderer r; idCounter := idCounter r |}.
Definition set_currentBlockIndexPerSession (v : gmap string Z) (r : State) : State :=
  {| messages := messages r; isStreaming := isStreaming r;
     isConnected := isConnected r; sessionInfo := sessionInfo r;
     currentSessionId := currentSessionId r;
     claudeSessionId := claudeSessionId r; error := error r;
     thinkingStatus := thinkingStatus r; todos := todos r;
     streamStartTime := streamStartTime r; userInfo := userInfo r;
     activeSessionIds := activeSessionIds r;
     currentMessageIdRef := currentMessageIdRef r;
     currentBlockIndexRef := currentBlockIndexRef r;
     messagesPerSession := messagesPerSession r;
     sessionInfoPerSession := sessionInfoPerSession r;
     todosPerSession := todosPerSession r;
     streamingPerSession := streamingPerSession r;
     thinkingStatusPerSession := thinkingStatusPerSession r;
     currentMessageIdPerSession := currentMessageIdPerSession r;
     currentBlockIndexPerSession := v;
     claudeSessionIdPerSession := claudeSessionIdPerSession r;
     streamStartTimePerSession := streamStartTimePerSession r;
     toolJsonAccumulator := toolJsonAccumulator r;
     toolJsonFlushTimer := toolJsonFlushTimer r;
     lastFlushedLength := lastFlushedLength r;
     toolNameByBlock := toolNameByBlock r;
     quantumRenderer := quantumRenderer r; idCounter := idCounter r |}.
Definition set_claudeSessionIdPerSession (v : gmap string string) (r : State) : State :=
  {| messages := messages r; isStreaming := isStreaming r;
     isConnected := isConnected r; sessionInfo := sessionInfo r;
     currentSessionId := currentSessionId r;
     claudeSessionId := claudeSessionId r; error := error r;
     thinkingStatus := thinkingStatus r; todos := todos r;
     streamStartTime := streamStartTime r; userInfo := userInfo r;
     activeSessionIds := activeSessionIds r;
     currentMessageIdRef := currentMessageIdRef r;
     currentBlockIndexRef := currentBlockIndexRef r;
     messagesPerSession := messagesPerSession r;
     sessionInfoPerSession := sessionInfoPerSession r;
     todosPerSession := todosPerSession r;
     streamingPerSession := streamingPerSession r;
     thinkingStatusPerSession := thinkingStatusPerSession r;
     currentMessageIdPerSession := currentMessageIdPerSession r;
     currentBlockIndexPerSession := currentBlockIndexPerSession r;
     claudeSessionIdPerSession := v;
     streamStartTimePerSession := streamStartTimePerSession r;
     toolJsonAccumulator := toolJsonAccumulator r;
     toolJsonFlushTimer := toolJsonFlushTimer r;
     lastFlushedLength := lastFlushedLength r;
     toolNameByBlock := toolNameByBlock r;
     quantumRenderer := quantumRenderer r; idCounter := idCounter r |}.
Definition set_streamStartTimePerSession (v : gmap string (option Z)) (r : State) : State :=
  {| messages := messages r; isStreaming := isStreaming r;
     isConnected := isConnected r; sessionInfo := sessionInfo r;
     currentSessionId := currentSessionId r;
     claudeSessionId := claudeSessionId r; error := error r;
     thinkingStatus := thinkingStatus r; todos := todos r;
     streamStartTime := streamStartTime r; userInfo := userInfo r;
     activeSessionIds := activeSessionIds r;
     currentMessageIdRef := currentMessageIdRef r;
     currentBlockIndexRef := currentBlockIndexRef r;
     messagesPerSession := messagesPerSession r;
     sessionInfoPerSession := sessionInfoPerSession r;
     todosPerSession := todosPerSession r;
     streamingPerSession := streamingPerSession r;
     thinkingStatusPerSession := thinkingStatusPerSession r;
     currentMessageIdPerSession := currentMessageIdPerSession r;
     currentBlockIndexPerSession := currentBlockIndexPerSession r;
     claudeSessionIdPerSession := claudeSessionIdPerSession r;
     streamStartTimePerSession := v;
     toolJsonAccumulator := toolJsonAccumulator r;
     toolJsonFlushTimer := toolJsonFlushTimer r;
     lastFlushedLength := lastFlushedLength r;
     toolNameByBlock := toolNameByBlock r;
     quantumRenderer := quantumRenderer r; idCounter := idCounter r |}.
Definition set_toolJsonAccumulator (v : gmap string (list (Z * string))) (r : State) : State :=
  {| messages := messages r; isStreaming := isStreaming r;
     isConnected := isConnected r; sessionInfo := sessionInfo r;
     currentSessionId := currentSessionId r;
     claudeSessionId := claudeSessionId r; error := error r;
     thinkingStatus := thinkingStatus r; todos := todos r;
     streamStartTime := streamStartTime r; userInfo := userInfo r;
     activeSessionIds := activeSessionIds r;
     currentMessageIdRef := currentMessageIdRef r;
     currentBlockIndexRef := currentBlockIndexRef r;
     messagesPerSession := messagesPerSession r;
     sessionInfoPerSession := sessionInfoPerSession r;
     todosPerSession := todosPerSession r;
     streamingPerSession := streamingPerSession r;
     thinkingStatusPerSession := thinkingStatusPerSession r;
     currentMessageIdPerSession := currentMessageIdPerSession r;
     currentBlockIndexPerSession := currentBlockIndexPerSession r;
     claudeSessionIdPerSession := claudeSessionIdPerSession r;
     streamStartTimePerSession := streamStartTimePerSession r;
     toolJsonAccumulator := v; toolJsonFlushTimer := toolJsonFlushTimer r;
     lastFlushedLength := lastFlushedLength r;
     toolNameByBlock := toolNameByBlock r;
     quantumRenderer := quantumRenderer r; idCounter := idCounter r |}.
Definition set_toolJsonFlushTimer (v : gmap string (option Timer)) (r : State) : State :=
  {| messages := messages r; isStreaming := isStreaming r;
     isConnected := isConnected r; sessionInfo := sessionInfo r;
     currentSessionId := currentSessionId r;
     claudeSessionId := claudeSessionId r; error := error r;
     thinkingStatus := thinkingStatus r; todos := todos r;
     streamStartTime := streamStartTime r; userInfo := userInfo r;
     activeSessionIds := activeSessionIds r;
     currentMessageIdRef := currentMessageIdRef r;
     currentBlockIndexRef := currentBlockIndexRef r;
     messagesPerSession := messagesPerSession r;
     sessionInfoPerSession := sessionInfoPerSession r;
     todosPerSession := todosPerSession r;
     streamingPerSession := streamingPerSession r;
     thinkingStatusPerSession := thinkingStatusPerSession r;
     currentMessageIdPerSession := currentMessageIdPerSession r;
     currentBlockIndexPerSession := currentBlockIndexPerSession r;
     claudeSessionIdPerSession := claudeSessionIdPerSession r;
     streamStartTimePerSession := streamStartTimePerSession r;
     toolJsonAccumulator := toolJsonAccumulator r; toolJsonFlushTimer := v;
     lastFlushedLength := lastFlushedLength r;
     toolNameByBlock := toolNameByBlock r;
     quantumRenderer := quantumRenderer r; idCounter := idCounter r |}.
Definition set_lastFlushedLength (v : gmap string (list (Z * nat))) (r : State) : State :=
  {| messages := messages r; isStreaming := isStreaming r;
     isConnected := isConnected r; sessionInfo := sessionInfo r;
     currentSessionId := currentSessionId r;
     claudeSessionId := claudeSessionId r; error := error r;
     thinkingStatus := thinkingStatus r; todos := todos r;
     streamStartTime := streamStartTime r; userInfo := userInfo r;
     activeSessionIds := activeSessionIds r;
     currentMessageIdRef := currentMessageIdRef r;
     currentBlockIndexRef := currentBlockIndexRef r;
     messagesPerSession := messagesPerSession r;
     sessionInfoPerSession := sessionInfoPerSession r;
     todosPerSession := todosPerSession r;
     streamingPerSession := streamingPerSession r;
     thinkingStatusPerSession := thinkingStatusPerSession r;
     currentMessageIdPerSession := currentMessageIdPerSession r;
     currentBlockIndexPerSession := currentBlockIndexPerSession r;
     claudeSessionIdPerSession := claudeSessionIdPerSession r;
     streamStartTimePerSession := streamStartTimePerSession r;
     toolJsonAccumulator := toolJsonAccumulator r;
     toolJsonFlushTimer := toolJsonFlushTimer r; lastFlushedLength := v;
     toolNameByBlock := toolNameByBlock r;
     quantumRenderer := quantumRenderer r; idCounter := idCounter r |}.
Definition set_toolNameByBlock (v : gmap string (list (Z * string))) (r : State) : State :=
  {| messages := messages r; isStreaming := isStreaming r;
     isConnected := isConnected r; sessionInfo := sessionInfo r;
     currentSessionId := currentSessionId r;
     claudeSessionId := claudeSessionId r; error := error r;
     thinkingStatus := thinkingStatus r; todos := todos r;
     streamStartTime := streamStartTime r; userInfo := userInfo r;
     activeSessionIds := activeSessionIds r;
     currentMessageIdRef := currentMessageIdRef r;
     currentBlockIndexRef := currentBlockIndexRef r;
     messagesPerSession := messagesPerSession r;
     sessionInfoPerSession := sessionInfoPerSession r;
     todosPerSession := todosPerSession r;
     streamingPerSession := streamingPerSession r;
     thinkingStatusPerSession := thinkingStatusPerSession r;
     currentMessageIdPerSession := currentMessageIdPerSession r;
     currentBlockIndexPerSession := currentBlockIndexPerSession r;
     claudeSessionIdPerSession := claudeSessionIdPerSession r;
     streamStartTimePerSession := streamStartTimePerSession r;
     toolJsonAccumulator := toolJsonAccumulator r;
     toolJsonFlushTimer := toolJsonFlushTimer r;
     lastFlushedLength := lastFlushedLength r; toolNameByBlock := v;
     quantumRenderer := quantumRenderer r; idCounter := idCounter r |}.
Definition set_quantumRenderer (v : gmap string (list (Z * Renderer))) (r : State) : State :=
  {| messages := messages r; isStreaming := isStreaming r;
     isConnected := isConnected r; sessionInfo := sessionInfo r;
     currentSessionId := currentSessionId r;
     claudeSessionId := claudeSessionId r; error := error r;
     thinkingStatus := thinkingStatus r; todos := todos r;
     streamStartTime := streamStartTime r; userInfo := userInfo r;
     activeSessionIds := activeSessionIds r;
     currentMessageIdRef := currentMessageIdRef r;
     currentBlockIndexRef := currentBlockIndexRef r;
     messagesPerSession := messagesPerSession r;
     sessionInfoPerSession := sessionInfoPerSession r;
     todosPerSession := todosPerSession r;
     streamingPerSession := streamingPerSession r;
     thinkingStatusPerSession := thinkingStatusPerSession r;
     currentMessageIdPerSession := currentMessageIdPerSession r;
     currentBlockIndexPerSession := currentBlockIndexPerSession r;
     claudeSessionIdPerSession := claudeSessionIdPerSession r;
     streamStartTimePerSession := streamStartTimePerSession r;
     toolJsonAccumulator := toolJsonAccumulator r;
     toolJsonFlushTimer := toolJsonFlushTimer r;
     lastFlushedLength := lastFlushedLength r;
     toolNameByBlock := toolNameByBlock r; quantumRenderer := v;
     idCounter := idCounter r |}.
Definition set_idCounter (v : nat) (r : State) : State :=
  {| messages := messages r; isStreaming := isStreaming r;
     isConnected := isConnected r; sessionInfo := sessionInfo r;
     currentSessionId := currentSessionId r;
     claudeSessionId := claudeSessionId r; error := error r;
     thinkingStatus := thinkingStatus r; todos := todos r;
     streamStartTime := streamStartTime r; userInfo := userInfo r;
     activeSessionIds := activeSessionIds r;
     currentMessageIdRef := currentMessageIdRef r;
     currentBlockIndexRef := currentBlockIndexRef r;
     messagesPerSession := messagesPerSession r;
     sessionInfoPerSession := sessionInfoPerSession r;
     todosPerSession := todosPerSession r;
     streamingPerSession := streamingPerSession r;
     thinkingStatusPerSession := thinkingStatusPerSession r;
     currentMessageIdPerSession := currentMessageIdPerSession r;
     currentBlockIndexPerSession := currentBlockIndexPerSession r;
     claudeSessionIdPerSession := claudeSessionIdPerSession r;
     streamStartTimePerSession := streamStartTimePerSession r;
     toolJsonAccumulator := toolJsonAccumulator r;
     toolJsonFlushTimer := toolJsonFlushTimer r;
     lastFlushedLength := lastFlushedLength r;
     toolNameByBlock := toolNameByBlock r;
     quantumRenderer := quantumRenderer r; idCounter := v |}.

(** The component as it mounts, focused on [current]. *)
Definition initial_state (current : option string) : State :=
  {| messages := []; isStreaming := false; isConnected := false;
     sessionInfo := default_info; currentSessionId := current;
     claudeSessionId := None; error := None; thinkingStatus := Idle;
     todos := JArr []; streamStartTime := None;
     userInfo := {| email := None; name := None; isLoggedIn := false |};
     activeSessionIds := []; currentMessageIdRef := None;
     currentBlockIndexRef := 0; messagesPerSession := ∅;
     sessionInfoPerSession := ∅; todosPerSession := ∅;
     streamingPerSession := ∅; thinkingStatusPerSession := ∅;
     currentMessageIdPerSession := ∅; currentBlockIndexPerSession := ∅;
     claudeSessionIdPerSession := ∅; streamStartTimePerSession := ∅;
     toolJsonAccumulator := ∅; toolJsonFlushTimer := ∅;
     lastFlushedLength := ∅; toolNameByBlock := ∅; quantumRenderer := ∅;
     idCounter := 0 |}.

Definition set_cb_content (v : string) (b : ContentBlock) : ContentBlock :=
  {| cb_id := cb_id b; cb_type := cb_type b; cb_content := v;
     cb_isComplete := cb_isComplete b; cb_toolName := cb_toolName b;
     cb_toolInput := cb_toolInput b; cb_toolStatus := cb_toolStatus b |}.

Definition set_msg_content (v : list ContentBlock) (m : Message) : Message :=
  {| msg_id := msg_id m; msg_role := msg_role m; msg_content := v;
     msg_timestamp := msg_timestamp m; msg_isStreaming := msg_isStreaming m |}.

Definition set_msg_isStreaming (v : option bool) (m : Message) : Message :=
  {| msg_id := msg_id m; msg_role := msg_role m; msg_content := msg_content m;
     msg_timestamp := msg_timestamp m; msg_isStreaming := v |}.

Definition set_r_buffer (v : string) (r : Renderer) : Renderer :=
  {| r_buffer := v; r_current := r_current r |}.

(** [arr[i]], and [arr[i] = x] for an index that is in range. *)
Definition at_index {A} (i : Z) (l : list A) : option A :=
  if (0 <=? i)%Z then l !! Z.to_nat i else None.

Definition set_index {A} (i : Z) (x : A) (l : list A) : list A :=
  <[Z.to_nat i := x]> l.

(** A session's map inside a ref, the empty map when there is none yet;
    [getSessionMap] creates the entry at its first use. *)
Definition session_map {V} (sid : string) (m : gmap string (list (Z * V)))
    : list (Z * V) :=
  default [] (m !! sid).

Definition getSessionMap {V} (sid : string) (m : gmap string (list (Z * V)))
    : gmap string (list (Z * V)) :=
  match m !! sid with
  | Some _ => m
  | None => <[sid := []]> m
  end.

(** The messages and the counters of a session, wherever they are kept:
    in the component's state for the focused session, in the refs for a
    background one. *)
Definition session_messages (sid : string) (st : State) : list Message :=
  if decide (Some sid = currentSessionId st) then messages st
  else default [] (messagesPerSession st !! sid).

Definition session_info (sid : string) (st : State) : SessionInfo :=
  if decide (Some sid = currentSessionId st) then sessionInfo st
  else default default_info (sessionInfoPerSession st !! sid).

(** A session's in-flight message id, when it is truthy. *)
Definition current_msgId (sid : string) (st : State) : option string :=
  match currentMessageIdPerSession st !! sid with
  | Some (Some msgId) => if truthy msgId then Some msgId else None
  | _ => None
  end.

(** [updateSessionMessages] and [updateSessionInfo], with the
    [currentSessionId] the caller closed over. *)
Definition update_messages (captured : option string) (sid : string)
    (updateFn : list Message → list Message) (st : State) : State :=
  if decide (Some sid = captured) then set_messages (updateFn (messages st)) st
  else
    set_messagesPerSession
      (<[sid := updateFn (default [] (messagesPerSession st !! sid))]>
         (messagesPerSession st)) st.

Definition updateSessionMessages (sid : string)
    (updateFn : list Message → list Message) (st : State) : State :=
  update_messages (currentSessionId st) sid updateFn st.

Definition updateSessionInfo (sid : string)
    (updateFn : SessionInfo → SessionInfo) (st : State) : State :=
  if decide (Some sid = currentSessionId st)
  then set_sessionInfo (updateFn (sessionInfo st)) st
  else
    set_sessionInfoPerSession
      (<[sid := updateFn (default default_info (sessionInfoPerSession st !! sid))]>
         (sessionInfoPerSession st)) st.

(** [msgs.map(msg => msg.id === msgId ? f(msg) : msg)] *)
Definition map_message (msgId : string) (f : Message → Message)
    (msgs : list Message) : list Message :=
  (λ msg, if decide (msg_id msg = msgId) then f msg else msg) <$> msgs.

(** The update of a block that exists, [updatedContent[i] = f(...)]. *)
Definition map_block (blockIndex : Z) (f : ContentBlock → ContentBlock)
    (msg : Message) : Message :=
  match at_index blockIndex (msg_content msg) with
  | Some block => set_msg_content (set_index blockIndex (f block) (msg_content msg)) msg
  | None => msg
  end.

(** The [onRender] callback of the renderer for [(sid, blockIndex)]. *)
Definition onRender (captured : option string) (sid : string) (blockIndex : Z)
    (text : string) (st : State) : State :=
  match current_msgId sid st with
  | Some msgId =>
    update_messages captured sid
      (map_message msgId
         (map_block blockIndex (λ b, set_cb_content (cb_content b +:+ text) b)))
      st
  | None => st
  end.

(** One frame of that renderer's loop which takes [n] characters. *)
Definition renderer_frame (sid : string) (blockIndex : Z) (n : nat) (st : State)
    : State :=
  match JsMap.get blockIndex (session_map sid (quantumRenderer st)) with
  | None => st
  | Some r =>
    if negb (truthy (r_buffer r)) || (n =? 0) then st
    else
      let batch := substring_to n (r_buffer r) in
      let r' := set_r_buffer (substring_from n (r_buffer r)) r in
      let st :=
        set_quantumRenderer
          (<[sid := JsMap.set blockIndex r' (session_map sid (quantumRenderer st))]>
             (quantumRenderer st)) st in
      onRender (r_current r) sid blockIndex batch st
  end.

(** [renderer.flush()] *)
Definition renderer_flush (sid : string) (st : State) (entry : Z * Renderer)
    : State :=
  let '(blockIndex, r) := entry in
  if truthy (r_buffer r) then onRender (r_current r) sid blockIndex (r_buffer r) st
  else st.

(** [getQuantumRenderer(sid, blockIndex)] followed by [renderer.onData]. *)
Definition renderer_onData (sid : string) (blockIndex : Z) (chunk : string)
    (st : State) : State :=
  let renderers := session_map sid (quantumRenderer st) in
  let r := default {| r_buffer := EmptyString; r_current := currentSessionId st |}
             (JsMap.get blockIndex renderers) in
  set_quantumRenderer
    (<[sid := JsMap.set blockIndex (set_r_buffer (r_buffer r +:+ chunk) r) renderers]>
       (quantumRenderer st)) st.

Definition cleanupQuantumRenderers (sid : string) (st : State) : State :=
  match quantumRenderer st !! sid with
  | Some renderers =>
    let st := foldl (renderer_flush sid) st renderers in
    set_quantumRenderer (<[sid := []]> (quantumRenderer st)) st
  | None => st
  end.

Definition ensureFlushTimer (sid : string) (st : State) : State :=
  match toolJsonFlushTimer st !! sid with
  | Some (Some _) => st
  | _ =>
    set_toolJsonFlushTimer
      (<[sid := Some {| t_current := currentSessionId st |}]> (toolJsonFlushTimer st))
      st
  end.

Definition stopFlushTimer (sid : string) (st : State) : State :=
  match toolJsonFlushTimer st !! sid with
  | Some (Some _) =>
    set_toolJsonFlushTimer (<[sid := None]> (toolJsonFlushTimer st)) st
  | _ => st
  end.

(** [flushToolJson(sessionId, blockIndex?)], with the [currentSessionId]
    it closed over. The updater handed to [setMessages] reads the
    accumulator when it runs; the model runs it at once. *)
Definition has_new_content (accumulator : list (Z * string))
    (lastFlushed : list (Z * nat)) (idx : Z) : bool :=
  match JsMap.get idx accumulator with
  | Some accumulated =>
    truthy accumulated
    && (default 0 (JsMap.get idx lastFlushed) <? String.length accumulated)
  | None => false
  end.

Definition flush_block (accumulator : list (Z * string)) (msg : Message) (idx : Z)
    : Message :=
  match JsMap.get idx accumulator with
  | Some accumulated =>
    if truthy accumulated then map_block idx (set_cb_content accumulated) msg
    else msg
  | None => msg
  end.

Definition flushToolJson (captured : option string) (sid : string)
    (blockIndex : option Z) (st : State) : State :=
  match current_msgId sid st with
  | None => st
  | Some msgId =>
    let st := set_toolJsonAccumulator (getSessionMap sid (toolJsonAccumulator st)) st in
    let st := set_lastFlushedLength (getSessionMap sid (lastFlushedLength st)) st in
    let sessionAccumulator := session_map sid (toolJsonAccumulator st) in
    let sessionLastFlushed := session_map sid (lastFlushedLength st) in
    let indicesToFlush :=
      match blockIndex with
      | Some i => [i]
      | None => JsMap.keys sessionAccumulator
      end in
    if length indicesToFlush =? 0 then st
    else if negb (existsb (has_new_content sessionAccumulator sessionLastFlushed)
                    indicesToFlush) then st
    else
      let sessionLastFlushed :=
        foldl (λ lastFlushed idx,
                 if has_new_content sessionAccumulator lastFlushed idx
                 then JsMap.set idx
                        (String.length
                           (default EmptyString (JsMap.get idx sessionAccumulator)))
                        lastFlushed
                 else lastFlushed)
          sessionLastFlushed indicesToFlush in
      let st :=
        set_lastFlushedLength
          (<[sid := sessionLastFlushed]> (lastFlushedLength st)) st in
      update_messages captured sid
        (map_message msgId
           (λ msg, foldl (flush_block sessionAccumulator) msg indicesToFlush))
        st
  end.

(** The callback of a session's flush timer. *)
Definition flush_timer_tick (sid : string) (st : State) : State :=
  match toolJsonFlushTimer st !! sid with
  | Some (Some timer) => flushToolJson (t_current timer) sid None st
  | _ => st
  end.

Definition isCurrentSession (sid : string) (st : State) : bool :=
  bool_decide (Some sid = currentSessionId st).

(** [data.index ?? (currentBlockIndexPerSessionRef.current.get(sid) || 0)] *)
Definition event_blockIndex (sid : string) (data : Payload) (st : State) : Z :=
  match p_index data with
  | Some i => i
  | None => Z_or (currentBlockIndexPerSession st !! sid) 0
  end.

(** The first truthy string of a chain [a || b || c || null]. *)
Fixpoint first_truthy (candidates : list (option string)) : option string :=
  match candidates with
  | [] => None
  | Some s :: rest => if truthy s then Some s else first_truthy rest
  | None :: rest => first_truthy rest
  end.

Definition case_system (sid : string) (data : Payload) (st : State) : State :=
  if negb (bool_decide (p_subtype data = Some "init")) then st
  else
    let st := if isCurrentSession sid st then set_isConnected true st else st in
    let st :=
      updateSessionInfo sid
        (λ prev,
           {| model := str_or (p_model data) (model prev);
              contextUsed := contextUsed prev; contextMax := contextMax prev;
              outputTokens := outputTokens prev; totalCost := totalCost prev;
              slashCommands := default (slashCommands prev) (p_slash_commands data) |})
        st in
    let st :=
      match p_session_id data with
      | Some session_id =>
        if truthy session_id then
          let st :=
            set_claudeSessionIdPerSession
              (<[sid := session_id]> (claudeSessionIdPerSession st)) st in
          if isCurrentSession sid st then set_claudeSessionId (Some session_id) st
          else st
        else st
      | None => st
      end in
    if bool_decide (is_Some (p_user data)) || truthy (str_or (p_email data) "")
       || bool_decide (is_Some (p_account data))
    then
      set_userInfo
        {| email := first_truthy [p_email data; p_user data ≫= identity_email;
                                  p_account data ≫= identity_email];
           name := first_truthy [p_name data; p_user data ≫= identity_name;
                                 p_account data ≫= identity_name];
           isLoggedIn := true |} st
    else st.

Section Reducer.
(** The [n]-th result of [generateId], [JSON.parse] on a tool's argument
    text ([None] when it throws) and the two uses of [JSON.stringify]. *)
Context (generateId_at : nat → string).
Context (JSON_parse : string → option json).
Context (stringify_input : option json → string).
Context (stringify_block : BlockInit → string).

Definition generateId (st : State) : string * State :=
  (generateId_at (idCounter st), set_idCounter (S (idCounter st)) st).

Definition case_message_start (now : Z) (sid : string) (data : Payload)
    (st : State) : State :=
  let st := set_streamingPerSession (<[sid := true]> (streamingPerSession st)) st in
  let st :=
    set_streamStartTimePerSession
      (<[sid := Some now]> (streamStartTimePerSession st)) st in
  let '(newMessageId, st) := generateId st in
  let st :=
    set_currentMessageIdPerSession
      (<[sid := Some newMessageId]> (currentMessageIdPerSession st)) st in
  let st :=
    set_currentBlockIndexPerSession
      (<[sid := 0%Z]> (currentBlockIndexPerSession st)) st in
  let st :=
    if isCurrentSession sid st then
      set_currentBlockIndexRef 0
        (set_currentMessageIdRef (Some newMessageId)
           (set_streamStartTime (Some now) (set_isStreaming true st)))
    else st in
  let st :=
    match p_message data ≫= message_usage with
    | Some usage =>
      updateSessionInfo sid
        (λ prev,
           {| model := model prev;
              contextUsed := Z_or (input_tokens usage) 0;
              contextMax := contextMax prev;
              outputTokens := Z_or (output_tokens usage) 0;
              totalCost := totalCost prev;
              slashCommands := slashCommands prev |})
        st
    | None => st
    end in
  let newMessage :=
    {| msg_id := newMessageId; msg_role := RoleAssistant; msg_content := [];
       msg_timestamp := now; msg_isStreaming := Some true |} in
  updateSessionMessages sid (λ prev, prev ++ [newMessage]) st.

Definition case_content_block_start (sid : string) (data : Payload)
    (st : State) : State :=
  match current_msgId sid st, p_content_block data with
  | Some msgId, Some block =>
    let blockIndex := event_blockIndex sid data st in
    let blockType :=
      if bool_decide (block_type block = Some "thinking") then TThinking
      else if bool_decide (block_type block = Some "tool_use") then TToolUse
      else TText in
    let st :=
      if bool_decide (block_type block = Some "thinking") then
        let st :=
          set_thinkingStatusPerSession
            (<[sid := Thinking]> (thinkingStatusPerSession st)) st in
        if isCurrentSession sid st then set_thinkingStatus Thinking st else st
      else if bool_decide (block_type block = Some "tool_use") then
        let st := set_toolNameByBlock (getSessionMap sid (toolNameByBlock st)) st in
        let st :=
          if truthy (str_or (block_name block) "") then
            set_toolNameByBlock
              (<[sid := JsMap.set blockIndex (str_or (block_name block) "")
                          (session_map sid (toolNameByBlock st))]>
                 (toolNameByBlock st)) st
          else st in
        match block_input block ≫= json_get "todos" with
        | Some todos' =>
          if bool_decide (block_name block = Some "TodoWrite") && json_truthy todos'
          then
            let st := set_todosPerSession (<[sid := todos']> (todosPerSession st)) st in
            if isCurrentSession sid st then set_todos todos' st else st
          else st
        | None => st
        end
      else if bool_decide (block_type block = Some "text") then
        let st :=
          set_thinkingStatusPerSession
            (<[sid := Responding]> (thinkingStatusPerSession st)) st in
        if isCurrentSession sid st then set_thinkingStatus Responding st else st
      else st in
    let '(newId, st) := generateId st in
    let newBlock :=
      {| cb_id := newId; cb_type := blockType;
         cb_content := or_else (str_or (block_text block) "")
                         (str_or (block_thinking block) "");
         cb_isComplete := Some false; cb_toolName := block_name block;
         cb_toolInput := block_input block;
         cb_toolStatus := match blockType with
                          | TToolUse => Some StatusRunning
                          | _ => None
                          end |} in
    let st :=
      updateSessionMessages sid
        (map_message msgId
           (λ msg, set_msg_content (msg_content msg ++ [newBlock]) msg)) st in
    let st :=
      set_currentBlockIndexPerSession
        (<[sid := blockIndex]> (currentBlockIndexPerSession st)) st in
    if isCurrentSession sid st then set_currentBlockIndexRef blockIndex st else st
  | _, _ => st
  end.

Definition case_content_block_delta (sid : string) (data : Payload)
    (st : State) : State :=
  match current_msgId sid st, p_delta data with
  | Some msgId, Some delta =>
    let blockIndex := event_blockIndex sid data st in
    if bool_decide (delta_type delta = Some "text_delta")
       || bool_decide (delta_type delta = Some "thinking_delta") then
      let textToAppend :=
        if bool_decide (delta_type delta = Some "text_delta")
        then str_or (delta_text delta) ""
        else str_or (delta_thinking delta) "" in
      if truthy textToAppend then renderer_onData sid blockIndex textToAppend st
      else st
    else if bool_decide (delta_type delta = Some "input_json_delta") then
      let jsonChunk := str_or (delta_partial_json delta) "" in
      if truthy jsonChunk then
        let st :=
          set_toolJsonAccumulator (getSessionMap sid (toolJsonAccumulator st)) st in
        let sessionAccumulator := session_map sid (toolJsonAccumulator st) in
        let current := str_or (JsMap.get blockIndex sessionAccumulator) "" in
        let st :=
          set_toolJsonAccumulator
            (<[sid := JsMap.set blockIndex (current +:+ jsonChunk) sessionAccumulator]>
               (toolJsonAccumulator st)) st in
        ensureFlushTimer sid st
      else st
    else st
  | _, _ => st
  end.

Definition is_tool_use (t : BlockType) : bool :=
  match t with TToolUse => true | _ => false end.

(** The block as [content_block_stop] rewrites it. *)
Definition complete_block (finalJsonContent : option string)
    (preParsedInput : option json) (block : ContentBlock) : ContentBlock :=
  let jsonContent := str_or finalJsonContent (cb_content block) in
  let parsedInput :=
    if opt_truthy preParsedInput then preParsedInput else cb_toolInput block in
  let parsedInput :=
    if negb (opt_truthy preParsedInput) && is_tool_use (cb_type block)
       && truthy jsonContent
    then match JSON_parse jsonContent with
         | Some v => Some v
         | None => parsedInput
         end
    else parsedInput in
  {| cb_id := cb_id block; cb_type := cb_type block; cb_content := jsonContent;
     cb_isComplete := Some true; cb_toolName := cb_toolName block;
     cb_toolInput := parsedInput;
     cb_toolStatus := match cb_toolStatus block with
                      | Some _ => Some StatusComplete
                      | None => None
                      end |}.

(** The blocks of the [content_block_stop] case, in the order of the
    source. First the renderer of the block, if there is one, hands over
    what it still holds and is dropped. *)
Definition stop_renderer (sid : string) (blockIndex : Z) (st : State) : State :=
  match quantumRenderer st !! sid with
  | Some sessionRenderers =>
    match JsMap.get blockIndex sessionRenderers with
    | Some renderer =>
      let st := renderer_flush sid st (blockIndex, renderer) in
      set_quantumRenderer
        (<[sid := JsMap.delete blockIndex sessionRenderers]> (quantumRenderer st))
        st
    | None => st
    end
  | None => st
  end.

(** Then the JSON accumulated for the block is taken out of the
    accumulator ([finalJsonContent]), and the flush timer is stopped when
    nothing is left in it. *)
Definition take_accumulated (sid : string) (blockIndex : Z) (st : State)
    : option string * State :=
  let st :=
    set_toolJsonAccumulator (getSessionMap sid (toolJsonAccumulator st)) st in
  let sessionAccumulator := session_map sid (toolJsonAccumulator st) in
  let finalJsonContent := JsMap.get blockIndex sessionAccumulator in
  let sessionAccumulator := JsMap.delete blockIndex sessionAccumulator in
  let st :=
    set_toolJsonAccumulator
      (<[sid := sessionAccumulator]> (toolJsonAccumulator st)) st in
  (finalJsonContent,
   if JsMap.size sessionAccumulator =? 0 then stopFlushTimer sid st else st).

(** Then the stored tool name decides whether the JSON is parsed at once
    ([preParsedInput]) and whether it is a to-do list to publish; the name
    is dropped. *)
Definition take_tool_input (sid : string) (blockIndex : Z)
    (finalJsonContent : option string) (st : State) : option json * State :=
  let st := set_toolNameByBlock (getSessionMap sid (toolNameByBlock st)) st in
  let sessionToolNames := session_map sid (toolNameByBlock st) in
  let storedToolName := JsMap.get blockIndex sessionToolNames in
  let preParsedInput :=
    if truthy (str_or storedToolName "") && truthy (str_or finalJsonContent "")
    then JSON_parse (str_or finalJsonContent "")
    else None in
  let st :=
    match preParsedInput ≫= json_get "todos" with
    | Some todos' =>
      if bool_decide (storedToolName = Some "TodoWrite") && json_truthy todos'
      then
        let st := set_todosPerSession (<[sid := todos']> (todosPerSession st)) st in
        if isCurrentSession sid st then set_todos todos' st else st
      else st
    | None => st
    end in
  (preParsedInput,
   set_toolNameByBlock
     (<[sid := JsMap.delete blockIndex sessionToolNames]> (toolNameByBlock st))
     st).

Definition case_content_block_stop (sid : string) (data : Payload)
    (st : State) : State :=
  match current_msgId sid st with
  | Some msgId =>
    let blockIndex := event_blockIndex sid data st in
    let st := stop_renderer sid blockIndex st in
    let '(finalJsonContent, st) := take_accumulated sid blockIndex st in
    let '(preParsedInput, st) :=
      take_tool_input sid blockIndex finalJsonContent st in
    updateSessionMessages sid
      (map_message msgId
         (map_block blockIndex (complete_block finalJsonContent preParsedInput)))
      st
  | None => st
  end.

Definition case_message_delta (sid : string) (data : Payload) (st : State) : State :=
  match p_usage data ≫= output_tokens with
  | Some tokens =>
    if Z_truthy tokens then
      updateSessionInfo sid
        (λ prev,
           {| model := model prev; contextUsed := contextUsed prev;
              contextMax := contextMax prev; outputTokens := tokens;
              totalCost := totalCost prev; slashCommands := slashCommands prev |})
        st
    else st
  | None => st
  end.

Definition case_message_stop (sid : string) (st : State) : State :=
  match current_msgId sid st with
  | Some msgId =>
    updateSessionMessages sid
      (map_message msgId (set_msg_isStreaming (Some false))) st
  | None => st
  end.

(** One block of a whole [assistant] message, with the id drawn for it. *)
Definition assistant_block (newId : string) (block : BlockInit) : ContentBlock :=
  if bool_decide (block_type block = Some "text") then
    {| cb_id := newId; cb_type := TText;
       cb_content := str_or (block_text block) ""; cb_isComplete := Some true;
       cb_toolName := None; cb_toolInput := None; cb_toolStatus := None |}
  else if bool_decide (block_type block = Some "thinking") then
    {| cb_id := newId; cb_type := TThinking;
       cb_content := str_or (block_thinking block) "";
       cb_isComplete := Some true; cb_toolName := None; cb_toolInput := None;
       cb_toolStatus := None |}
  else if bool_decide (block_type block = Some "tool_use") then
    {| cb_id := newId; cb_type := TToolUse;
       cb_content := stringify_input (block_input block);
       cb_isComplete := Some true; cb_toolName := block_name block;
       cb_toolInput := block_input block;
       cb_toolStatus := Some StatusComplete |}
  else
    {| cb_id := newId; cb_type := TText; cb_content := stringify_block block;
       cb_isComplete := Some true; cb_toolName := None; cb_toolInput := None;
       cb_toolStatus := None |}.

Definition case_assistant (now : Z) (sid : string) (data : Payload) (st : State)
    : State :=
  let st := set_streamingPerSession (<[sid := false]> (streamingPerSession st)) st in
  let st := if isCurrentSession sid st then set_isStreaming false st else st in
  match p_message data ≫= message_content, current_msgId sid st with
  | Some content, None =>
    let contentBlocks :=
      imap (λ k block, assistant_block (generateId_at (idCounter st + k)) block)
        content in
    let st := set_idCounter (idCounter st + length content) st in
    let '(messageId, st) :=
      if truthy (str_or (p_uuid data) "") then (str_or (p_uuid data) "", st)
      else generateId st in
    let assistantMessage :=
      {| msg_id := messageId; msg_role := RoleAssistant;
         msg_content := contentBlocks; msg_timestamp := now;
         msg_isStreaming := Some false |} in
    updateSessionMessages sid (λ prev, prev ++ [assistantMessage]) st
  | _, _ => st
  end.

Definition case_result (sid : string) (data : Payload) (st : State) : State :=
  let st := set_streamingPerSession (<[sid := false]> (streamingPerSession st)) st in
  let st :=
    set_thinkingStatusPerSession (<[sid := Idle]> (thinkingStatusPerSession st)) st in
  let st :=
    set_streamStartTimePerSession (<[sid := None]> (streamStartTimePerSession st)) st in
  let st :=
    set_currentMessageIdPerSession
      (<[sid := None]> (currentMessageIdPerSession st)) st in
  let st :=
    set_currentBlockIndexPerSession
      (<[sid := 0%Z]> (currentBlockIndexPerSession st)) st in
  let st :=
    if isCurrentSession sid st then
      set_currentBlockIndexRef 0
        (set_currentMessageIdRef None
           (set_streamStartTime None
              (set_thinkingStatus Idle (set_isStreaming false st))))
    else st in
  let st := cleanupQuantumRenderers sid st in
  let st := stopFlushTimer sid st in
  let st :=
    match toolJsonAccumulator st !! sid with
    | Some _ => set_toolJsonAccumulator (<[sid := []]> (toolJsonAccumulator st)) st
    | None => st
    end in
  let st :=
    match lastFlushedLength st !! sid with
    | Some _ => set_lastFlushedLength (<[sid := []]> (lastFlushedLength st)) st
    | None => st
    end in
  let st :=
    match toolNameByBlock st !! sid with
    | Some _ => set_toolNameByBlock (<[sid := []]> (toolNameByBlock st)) st
    | None => st
    end in
  match p_usage data with
  | Some usage =>
    updateSessionInfo sid
      (λ prev,
         {| model := model prev;
            contextUsed := Z_or (input_tokens usage) (contextUsed prev);
            contextMax := contextMax prev;
            outputTokens := Z_or (output_tokens usage) 0;
            totalCost := float_or (p_total_cost_usd data) (totalCost prev);
            slashCommands := slashCommands prev |})
      st
  | None => st
  end.

(** The payload that the [switch] looks at: [event.data], unwrapped when
    the envelope is a [stream_event] that carries an inner event. *)
Definition reducer_data (event : Envelope) : option Payload :=
  match e_data event with
  | Some data =>
    if String.eqb (e_type event) "stream_event"
    then match p_event data with Some inner => Some inner | None => Some data end
    else Some data
  | None => None
  end.

Definition handleStreamEvent (now : Z) (event : Envelope) (st : State) : State :=
  let eventSessionId := e_sessionId event in
  if String.eqb (e_type event) "status" then
    if truthy eventSessionId then
      if bool_decide (e_status event = Some "started") then
        let st :=
          set_activeSessionIds
            (if bool_decide (eventSessionId ∈ activeSessionIds st)
             then activeSessionIds st
             else activeSessionIds st ++ [eventSessionId]) st in
        if isCurrentSession eventSessionId st then set_isConnected true st else st
      else if bool_decide (e_status event = Some "stopped") then
        let st :=
          set_activeSessionIds
            (filter (λ id, id ≠ eventSessionId) (activeSessionIds st)) st in
        let st :=
          set_streamingPerSession
            (<[eventSessionId := false]> (streamingPerSession st)) st in
        if isCurrentSession eventSessionId st
        then set_isStreaming false (set_isConnected false st) else st
      else st
    else st
  else if String.eqb (e_type event) "error" then
    let st :=
      set_streamingPerSession
        (<[eventSessionId := false]> (streamingPerSession st)) st in
    let st :=
      set_thinkingStatusPerSession
        (<[eventSessionId := Idle]> (thinkingStatusPerSession st)) st in
    if isCurrentSession eventSessionId st then
      set_error (Some (str_or (e_error event) "An error occurred"))
        (set_thinkingStatus Idle (set_isStreaming false st))
    else st
  else if String.eqb (e_type event) "heartbeat" then st
  else
    match reducer_data event with
    | None => st
    | Some data =>
      if negb (truthy eventSessionId) then st
      else if bool_decide (p_type data = Some "system") then
        case_system eventSessionId data st
      else if bool_decide (p_type data = Some "message_start") then
        case_message_start now eventSessionId data st
      else if bool_decide (p_type data = Some "content_block_start") then
        case_content_block_start eventSessionId data st
      else if bool_decide (p_type data = Some "content_block_delta") then
        case_content_block_delta eventSessionId data st
      else if bool_decide (p_type data = Some "content_block_stop") then
        case_content_block_stop eventSessionId data st
      else if bool_decide (p_type data = Some "message_delta") then
        case_message_delta eventSessionId data st
      else if bool_decide (p_type data = Some "message_stop") then
        case_message_stop eventSessionId st
      else if bool_decide (p_type data = Some "assistant") then
        case_assistant now eventSessionId data st
      else if bool_decide (p_type data = Some "result") then
        case_result eventSessionId data st
      else st
    end.

(** What reaches the reducer: an envelope from the main process, a frame of
    a renderer's loop, or a tick of a session's flush timer. *)
Inductive Input :=
| Event (now : Z) (event : Envelope)
| Frame (sid : string) (blockIndex : Z) (amount : nat)
| FlushTick (sid : string).

Definition step (st : State) (input : Input) : State :=
  match input with
  | Event now event => handleStreamEvent now event st
  | Frame sid blockIndex amount => renderer_frame sid blockIndex amount st
  | FlushTick sid => flush_timer_tick sid st
  end.

Definition run (inputs : list Input) (st : State) : State :=
  foldl step st inputs.

End Reducer.

(** The [(sessionId, data)] with which an envelope reaches the [switch] of
    [handleStreamEvent], if it does. *)
Definition dispatched (event : Envelope) : option (string * Payload) :=
  if String.eqb (e_type event) "status" || String.eqb (e_type event) "error"
     || String.eqb (e_type event) "heartbeat"
  then None
  else match reducer_data event with
       | Some data =>
         if truthy (e_sessionId event) then Some (e_sessionId event, data)
         else None
       | None => None
       end.

(** Every renderer and every flush timer was created while the session
    that is focused now was focused: their callbacks see the same
    [currentSessionId] as the reducer. The reducer keeps this, since it
    never changes the focus. *)
Definition closures_ok (st : State) : Prop :=
  (∀ sid renderers i r,
     quantumRenderer st !! sid = Some renderers →
     JsMap.get i renderers = Some r → r_current r = currentSessionId st)
  ∧ (∀ sid timer,
       toolJsonFlushTimer st !! sid = Some (Some timer) →
       t_current timer = currentSessionId st).

(** *** The vocabulary of the isolation properties *)

(** What identifies a message in a conversation. *)
Definition header (m : Message) : string * Role * Z :=
  (msg_id m, msg_role m, msg_timestamp m).

(** What the component shows of the focused session. *)
Definition view (st : State) :=
  (messages st, isStreaming st, isConnected st, sessionInfo st,
   claudeSessionId st, error st, thinkingStatus st, todos st,
   streamStartTime st, currentMessageIdRef st, currentBlockIndexRef st).

(** What the refs hold for one session. *)
Definition slots (sid : string) (st : State) :=
  (messagesPerSession st !! sid, sessionInfoPerSession st !! sid,
   todosPerSession st !! sid, streamingPerSession st !! sid,
   thinkingStatusPerSession st !! sid, currentMessageIdPerSession st !! sid,
   currentBlockIndexPerSession st !! sid, claudeSessionIdPerSession st !! sid,
   streamStartTimePerSession st !! sid, toolJsonAccumulator st !! sid,
   toolJsonFlushTimer st !! sid, lastFlushedLength st !! sid,
   toolNameByBlock st !! sid, quantumRenderer st !! sid).

(** The values of [currentSessionId] that some callback of the state may
    see: the one of the current render, and those that the renderers and
    the flush timers closed over. *)
Definition captures (st : State) (c : option string) : Prop :=
  c = currentSessionId st
  ∨ (∃ sid renderers i r,
       quantumRenderer st !! sid = Some renderers ∧ (i, r) ∈ renderers
       ∧ r_current r = c)
  ∨ (∃ sid timer,
       toolJsonFlushTimer st !! sid = Some (Some timer) ∧ t_current timer = c).

(** Every callback sees the focus as it is. *)
Definition focus_captured (st : State) : Prop :=
  ∀ c, captures st c → c = currentSessionId st.

(** The session on whose behalf an input reaches the reducer. *)
Definition input_session (input : Input) : string :=
  match input with
  | Event _ event => e_sessionId event
  | Frame sid _ _ => sid
  | FlushTick sid => sid
  end.

(** What a status event says about a session: [Some true] for "started",
    [Some false] for "stopped". Events without a session id say nothing. *)
Definition status_of (sid : string) (input : Input) : option bool :=
  match input with
  | Event _ event =>
    if String.eqb (e_type event) "status" && truthy (e_sessionId event)
       && bool_decide (e_sessionId event = sid)
    then if bool_decide (e_status event = Some "started") then Some true
         else if bool_decide (e_status event = Some "stopped") then Some false
         else None
    else None
  | _ => None
  end.

(** The latest such statement among the inputs. *)
Fixpoint last_status (sid : string) (inputs : list Input) : option bool :=
  match inputs with
  | [] => None
  | input :: inputs =>
    match last_status sid inputs with
    | Some b => Some b
    | None => status_of sid input
    end
  end.

(** *** The records of end-to-end scenario 1

    A stdout record as the main process forwards it, and the streaming
    events of the scenario wrapped as the CLI wraps them. *)
Definition with_type (type : string) : Payload :=
  {| p_type := Some type; p_subtype := None; p_model := None;
     p_slash_commands := None; p_session_id := None; p_user := None;
     p_email := None; p_account := None; p_name := None; p_uuid := None;
     p_event := None; p_index := None; p_delta := None;
     p_content_block := None; p_message := None; p_usage := None;
     p_total_cost_usd := None |}.

Definition forwarded (sid : string) (record : Payload) : Envelope :=
  ClaudeProcess.structural_envelope sid record.

Definition streamed (sid : string) (inner : Payload) : Envelope :=
  forwarded sid (set_p_event (Some inner) (with_type "stream_event")).

Definition init_record (model session_id : string) : Payload :=
  {| p_type := Some "system"; p_subtype := Some "init"; p_model := Some model;
     p_slash_commands := None; p_session_id := Some session_id;
     p_user := None; p_email := None; p_account := None; p_name := None;
     p_uuid := None; p_event := None; p_index := None; p_delta := None;
     p_content_block := None; p_message := None; p_usage := None;
     p_total_cost_usd := None |}.

Definition text_block_start (index : option Z) : Payload :=
  {| p_type := Some "content_block_start"; p_subtype := None; p_model := None;
     p_slash_commands := None; p_session_id := None; p_user := None;
     p_email := None; p_account := None; p_name := None; p_uuid := None;
     p_event := None; p_index := index; p_delta := None;
     p_content_block :=
       Some {| block_type := Some "text"; block_text := Some EmptyString;
               block_thinking := None; block_name := None;
               block_input := None |};
     p_message := None; p_usage := None; p_total_cost_usd := None |}.

Definition text_delta (index : option Z) (text : string) : Payload :=
  {| p_type := Some "content_block_delta"; p_subtype := None; p_model := None;
     p_slash_commands := None; p_session_id := None; p_user := None;
     p_email := None; p_account := None; p_name := None; p_uuid := None;
     p_event := None; p_index := index;
     p_delta :=
       Some {| delta_type := Some "text_delta"; delta_text := Some text;
               delta_thinking := None; delta_partial_json := None |};
     p_content_block := None; p_message := None; p_usage := None;
     p_total_cost_usd := None |}.

Definition block_stop (index : option Z) : Payload :=
  {| p_type := Some "content_block_stop"; p_subtype := None; p_model := None;
     p_slash_commands := None; p_session_id := None; p_user := None;
     p_email := None; p_account := None; p_name := None; p_uuid := None;
     p_event := None; p_index := index; p_delta := None;
     p_content_block := None; p_message := None; p_usage := None;
     p_total_cost_usd := None |}.

Definition result_record (usage : option Usage) (cost : float) : Payload :=
  {| p_type := Some "result"; p_subtype := None; p_model := None;
     p_slash_commands := None; p_session_id := None; p_user := None;
     p_email := None; p_account := None; p_name := None; p_uuid := None;
     p_event := None; p_index := None; p_delta := None;
     p_content_block := None; p_message := None; p_usage := usage;
     p_total_cost_usd := Some cost |}.

(** The nine envelopes of the scenario for session [sid]; [index] is the
    block index the streaming events carry, if they carry one, and [usage]
    the usage object of the result record, if it has one. *)
Definition scenario1 (sid : string) (index : option Z) (usage : option Usage)
    : list Envelope :=
  [ forwarded sid (init_record "m1" "abc");
    streamed sid (with_type "message_start");
    streamed sid (text_block_start index);
    streamed sid (text_delta index "Hel");
    streamed sid (text_delta index "lo ");
    streamed sid (text_delta index "world");
    streamed sid (block_stop index);
    streamed sid (with_type "message_stop");
    forwarded sid (result_record usage 0.002) ].

(** Envelopes as they arrive, the [i]-th at time [clock i]. *)
Definition arrivals (clock : nat → Z) (events : list Envelope) : list Input :=
  imap (λ i event, Event (clock i) event) events.

(** *** [generateAutoTitle]

    The title of a session from its first user message. Strings are taken
    as sequences of the code units 0..255, as in [Js]; upper-casing one
    character can give any string ("ß" gives "SS"), so it is left open. *)

(** [s.search(/[abc]/)] and [s.lastIndexOf(c)]; [None] stands for [-1]. *)
Fixpoint search (p : ascii → bool) (s : string) : option nat :=
  match s with
  | EmptyString => None
  | String a s' => if p a then Some 0 else S <$> search p s'
  end.

Fixpoint lastIndexOf (c : ascii) (s : string) : option nat :=
  match s with
  | EmptyString => None
  | String a s' =>
    match lastIndexOf c s' with
    | Some i => Some (S i)
    | None => if Ascii.eqb a c then Some 0 else None
    end
  end.

(** [s.replace(/[abc]+$/, '')]: without the characters of the class that
    it ends with. *)
Fixpoint strip_start (p : ascii → bool) (s : string) : string :=
  match s with
  | EmptyString => EmptyString
  | String a s' => if p a then strip_start p s' else s
  end.

Definition strip_end (p : ascii → bool) (s : string) : string :=
  String.rev (strip_start p (String.rev s)).

Definition index_or_minus1 (i : option nat) : Z :=
  match i with Some i => Z.of_nat i | None => (-1)%Z end.

(** [s.charAt(0)] *)
Definition charAt0 (s : string) : string :=
  match s with
  | EmptyString => EmptyString
  | String a _ => String a EmptyString
  end.

Definition trimPhrases : list string :=
  ["can you "; "could you "; "please "; "help me "; "i'd like to ";
   "i want to "; "i need to "; "how do i "; "how can i "; "what is ";
   "explain "; "show me "; "tell me "].

Definition is_sentence_end (a : ascii) : bool :=
  Ascii.eqb a "." || Ascii.eqb a "!" || Ascii.eqb a "?".

Definition is_trailing_punctuation (a : ascii) : bool :=
  Ascii.eqb a "," || Ascii.eqb a ";" || Ascii.eqb a ":".

Section AutoTitle.
Context (toUpperCase : string → string).

(** The loop over [trimPhrases]: the first phrase that the lower-cased
    title starts with is cut off and the first letter of the rest is
    capitalized. *)
Fixpoint trim_phrase (lowerTitle title : string) (phrases : list string) : string :=
  match phrases with
  | [] => title
  | phrase :: phrases =>
    if startsWith lowerTitle phrase then
      let title := substring_from (String.length phrase) title in
      toUpperCase (charAt0 title) +:+ substring_from 1 title
    else trim_phrase lowerTitle title phrases
  end.

Definition generateAutoTitle (firstMessage : string) : string :=
  if negb (truthy firstMessage) || (String.length (trim firstMessage) =? 0)
  then "New Session"
  else
    let title := trim firstMessage in
    let title :=
      (* [split(' ')], and the parts after the first joined by [' '] again
         when there are several: what follows the first space *)
      if startsWith title "/" then
        match indexOf " " title with
        | Some i => substring_from (S i) title
        | None => title
        end
      else title in
    let lowerTitle := toLowerCase title in
    let title := trim_phrase lowerTitle title trimPhrases in
    let sentenceEnd := index_or_minus1 (search is_sentence_end title) in
    let title :=
      if (0 <? sentenceEnd)%Z && (sentenceEnd <? 60)%Z
      then substring_to (Z.to_nat sentenceEnd) title
      else if 60 <? String.length title then
        let breakPoint :=
          index_or_minus1 (lastIndexOf " " (substring_to 60 title)) in
        if (30 <? breakPoint)%Z
        then substring_to (Z.to_nat breakPoint) title +:+ "..."
        else substring_to 57 title +:+ "..."
      else title in
    let title := trim (strip_end is_trailing_punctuation title) in
    or_else title "New Session".

End AutoTitle.

End App.

(** ** The stream renderer (src/renderer/utils/QuantumStreamRenderer.ts)

    The buffer of a [QuantumStreamRenderer] and what it hands to its
    [onRender] and [onScroll] callbacks. The pacing (render mode with its
    [onModeChange] callback, jitter, frame times, scroll velocity, all
    floating point) only decides how many characters a frame asks for; a
    frame therefore comes with that number, the result of
    [calculateRenderAmount], taken as an integer. *)
Module QuantumStreamRenderer.
Import Js.

(** [arr.slice(start, end)] and [arr.splice(0, deleteCount)] for integer
    arguments: a negative index of [slice] counts from the end, and both
    clamp to the array. [splice0] returns the removed elements and what is
    left. *)
Definition relative_index (i : Z) (len : nat) : nat :=
  if (i <? 0)%Z then Z.to_nat (Z.max (Z.of_nat len + i) 0)
  else Z.to_nat (Z.min i (Z.of_nat len)).

Definition slice {A} (start stop : Z) (l : list A) : list A :=
  let k := relative_index start (length l) in
  let final := relative_index stop (length l) in
  take (final - k) (drop k l).

Definition splice0 {A} (deleteCount : Z) (l : list A) : list A * list A :=
  let n := Z.to_nat (Z.min (Z.max deleteCount 0) (Z.of_nat (length l))) in
  (take n l, drop n l).

(** [arr.join('')] for an array of one-character strings, and [s.indexOf(' ')]
    with [-1] for no occurrence. *)
Definition join (l : list ascii) : string := string_of_list_ascii l.

Definition indexOf_space (s : string) : Z :=
  match indexOf " "%char s with
  | Some i => Z.of_nat i
  | None => (-1)%Z
  end.

Record Renderer := mkRenderer {
  buffer : list ascii;
  onScroll : bool;         (* whether the optional [onScroll] was given *)
  rendered : list string;  (* the calls of [onRender] so far, oldest first *)
  scrolled : nat           (* the calls of [onScroll] so far *)
}.

Definition new (onScroll : bool) : Renderer :=
  {| buffer := []; onScroll := onScroll; rendered := []; scrolled := 0 |}.

Definition set_buffer (v : list ascii) (r : Renderer) : Renderer :=
  {| buffer := v; onScroll := onScroll r; rendered := rendered r;
     scrolled := scrolled r |}.

Definition call_onRender (text : string) (r : Renderer) : Renderer :=
  {| buffer := buffer r; onScroll := onScroll r;
     rendered := rendered r ++ [text]; scrolled := scrolled r |}.

(** [if (this.onScroll) { this.onScroll(); }] *)
Definition call_onScroll (r : Renderer) : Renderer :=
  if onScroll r
  then {| buffer := buffer r; onScroll := onScroll r; rendered := rendered r;
          scrolled := S (scrolled r) |}
  else r.

(** [onData]: [this.buffer.push(...chunk.split(''))]. The spread passes
    every character of the chunk as an argument of its own, and the engine
    throws a RangeError when there are more of them than the call stack has
    room for. [room] is the number of arguments it has room for when the
    chunk arrives; [None] is the exception, thrown before anything is
    pushed. *)
Definition onData (room : nat) (chunk : string) (r : Renderer) : option Renderer :=
  if String.length chunk <=? room
  then Some (set_buffer (buffer r ++ list_ascii_of_string chunk) r)
  else None.

(** [extractBatch(count)]: the batch returned and the renderer afterwards. *)
Definition extractBatch (count : Z) (r : Renderer) : list ascii * Renderer :=
  let extractCount :=
    if (count <? Z.of_nat (length (buffer r)))%Z then
      let lookAhead := join (slice count (count + 10) (buffer r)) in
      let nextSpace := indexOf_space lookAhead in
      if (0 <? nextSpace)%Z && (nextSpace <? 5)%Z
      then (count + nextSpace + 1)%Z else count
    else count in
  let '(batch, rest) := splice0 extractCount (buffer r) in
  (batch, set_buffer rest r).

(** [render], from the amount that [calculateRenderAmount] returned. *)
Definition render (charsToRender : Z) (r : Renderer) : Renderer :=
  if bool_decide (length (buffer r) = 0) then r
  else if (charsToRender =? 0)%Z then r
  else
    let '(batch, r) := extractBatch charsToRender r in
    if bool_decide (length batch = 0) then r
    else call_onScroll (call_onRender (join batch) r).

Definition hasPendingData (r : Renderer) : bool :=
  bool_decide (0 < length (buffer r)).

Definition flush (r : Renderer) : Renderer :=
  if bool_decide (0 < length (buffer r))
  then call_onScroll (call_onRender (join (buffer r)) (set_buffer [] r))
  else r.

Definition clear (r : Renderer) : Renderer := set_buffer [] r.

(** What happens to a renderer between its creation and its end: chunks
    arrive, frames ask for some amount, and [flush] is called. An exception
    of [onData] goes to its caller and leaves the renderer as it was. *)
Inductive Step :=
| Data (room : nat) (chunk : string)
| Frame (charsToRender : Z)
| Flush.

Definition step (r : Renderer) (s : Step) : Renderer :=
  match s with
  | Data room chunk => default r (onData room chunk r)
  | Frame charsToRender => render charsToRender r
  | Flush => flush r
  end.

Definition run (onScroll : bool) (steps : list Step) : Renderer :=
  foldl step (new onScroll) steps.

(** The chunks among the steps that [onData] took in, in order. *)
Definition taken (steps : list Step) : list string :=
  omap (λ s, match s with
             | Data room chunk =>
               if String.length chunk <=? room then Some chunk else None
             | _ => None
             end) steps.

(** All the text of a list of strings, in order. *)
Definition text (l : list string) : string := foldr String.append "" l.

End QuantumStreamRenderer.

(** ** The live preview of a tool's input (src/renderer/components/Tools/ToolBlock.tsx)

    [extractStreamingCode] reads the value of one string field out of the
    JSON text of a tool's input while that text is still arriving. The
    field name goes into a regular expression as it is; the model takes it
    literally, which is what the expression does for names without
    metacharacters, as at all call sites ("content", "new_string",
    "file_path"). *)
Module ToolBlock.
Import Js.

Definition QUOTE : ascii := "034"%char.
Definition BACKSLASH : ascii := "092"%char.
Definition TAB : ascii := "009"%char.

(** Whether [s] starts with [p] when case is ignored (flag [i]), and what
    follows [p] then. *)
Fixpoint skip_ignoring_case (p s : string) : option string :=
  match p, s with
  | EmptyString, _ => Some s
  | String a p', String b s' =>
    if Ascii.eqb (lower_char a) (lower_char b) then skip_ignoring_case p' s'
    else None
  | String _ _, EmptyString => None
  end.

(** [\s*]: the white space skipped and how much of it there was. *)
Fixpoint skip_space (s : string) : nat * string :=
  match s with
  | String a s' =>
    if is_whitespace a then let '(n, rest) := skip_space s' in (S n, rest)
    else (0, s)
  | EmptyString => (0, s)
  end.

Definition skip_char (c : ascii) (s : string) : option string :=
  match s with
  | String a s' => if Ascii.eqb a c then Some s' else None
  | EmptyString => None
  end.

(** The length of the match of the regular expression at the start of
    [s], if it matches there: the field name in double quotes, white
    space, a colon, white space and an opening double quote. *)
Definition match_here (fieldName s : string) : option nat :=
  s ← skip_char QUOTE s;
  s ← skip_ignoring_case fieldName s;
  s ← skip_char QUOTE s;
  let '(n1, s) := skip_space s in
  s ← skip_char ":" s;
  let '(n2, s) := skip_space s in
  _ ← skip_char QUOTE s;
  Some (1 + String.length fieldName + 1 + n1 + 1 + n2 + 1).

(** [json.match(fieldPattern)]: the leftmost match, as its text. *)
Fixpoint first_match (fieldName s : string) : option string :=
  match match_here fieldName s with
  | Some len => Some (substring_to len s)
  | None =>
    match s with
    | String _ s' => first_match fieldName s'
    | EmptyString => None
    end
  end.

(** [json.indexOf(text)]; [-1] when there is none. *)
Definition indexOf_text (text s : string) : Z :=
  match String.index 0 text s with
  | Some i => Z.of_nat i
  | None => (-1)%Z
  end.

(** The loop that reads the value up to its closing quote or to the end
    of the text, undoing the escapes. *)
Definition unescape (nextChar : ascii) : ascii :=
  if Ascii.eqb nextChar "n" then LF
  else if Ascii.eqb nextChar "t" then TAB
  else if Ascii.eqb nextChar "r" then CR
  else nextChar.

Fixpoint read_value (s : string) : string :=
  match s with
  | EmptyString => EmptyString
  | String char rest =>
    match rest with
    | String nextChar rest' =>
      if Ascii.eqb char BACKSLASH then String (unescape nextChar) (read_value rest')
      else if Ascii.eqb char QUOTE then EmptyString
      else String char (read_value rest)
    | EmptyString =>
      if Ascii.eqb char QUOTE then EmptyString else String char EmptyString
    end
  end.

Definition extractStreamingCode (json fieldName : string) : option string :=
  if negb (truthy json) then None
  else
    match first_match fieldName json with
    | None => None
    | Some match0 =>
      let startIndex :=
        (indexOf_text match0 json + Z.of_nat (String.length match0))%Z in
      if (Z.of_nat (String.length json) <=? startIndex)%Z then None
      else Some (read_value (substring_from (Z.to_nat startIndex) json))
    end.

(** How JSON writes a string whose characters need none of the escapes
    [\b], [\f] and [\u]: the text that the preview has to read back. *)
Definition escape_char (a : ascii) : string :=
  if Ascii.eqb a QUOTE then String BACKSLASH (String QUOTE EmptyString)
  else if Ascii.eqb a BACKSLASH then String BACKSLASH (String BACKSLASH EmptyString)
  else if Ascii.eqb a LF then String BACKSLASH "n"
  else if Ascii.eqb a TAB then String BACKSLASH "t"
  else if Ascii.eqb a CR then String BACKSLASH "r"
  else String a EmptyString.

Fixpoint json_escape (s : string) : string :=
  match s with
  | EmptyString => EmptyString
  | String a s' => escape_char a +:+ json_escape s'
  end.


(** A tool input as it arrives: the path of the file, then its content. *)
Definition quoted (s : string) : string := String QUOTE s +:+ String QUOTE "".

Definition sample_content : string :=
  "x = 1" +:+ String LF "print(" +:+ quoted "a\b" +:+ ")".

Definition sample_input (value : string) : string :=
  "{" +:+ quoted "file_path" +:+ ": " +:+ quoted "a.py" +:+ ", "
  +:+ quoted "content" +:+ ": " +:+ String QUOTE value.

End ToolBlock.

(** ** The diff of an edit (src/renderer/components/Tools/CurrentTaskIndicator.tsx,
    [generateUnifiedDiff]) *)
Module DiffView.
Import Js.

(** [s.split('\n')] and [lines.join('\n')] *)
Fixpoint split_lines (s : string) : list string :=
  match s with
  | EmptyString => [EmptyString]
  | String a s' =>
    if Ascii.eqb a LF then EmptyString :: split_lines s'
    else
      match split_lines s' with
      | line :: lines => String a line :: lines
      | [] => [String a EmptyString]
      end
  end.

Definition join_lines (lines : list string) : string :=
  String.concat (String LF EmptyString) lines.

Inductive LineType := Add | Remove | Context.

Record DiffLine := mkDiffLine {
  d_type : LineType;
  d_content : string;
  d_oldLineNum : option nat;
  d_newLineNum : option nat
}.

Definition generateUnifiedDiff (oldStr newStr : string) : list DiffLine :=
  let oldLines := split_lines oldStr in
  let newLines := split_lines newStr in
  if String.eqb oldStr newStr then
    imap (λ i line,
            {| d_type := Context; d_content := line;
               d_oldLineNum := Some (1 + i); d_newLineNum := Some (1 + i) |})
      oldLines
  else
    imap (λ i line,
            {| d_type := Remove; d_content := line;
               d_oldLineNum := Some (1 + i); d_newLineNum := None |})
      oldLines
    ++ imap (λ i line,
               {| d_type := Add; d_content := line;
                  d_oldLineNum := None; d_newLineNum := Some (1 + i) |})
         newLines.

(** The two texts that a diff shows: the lines that are not additions,
    and the lines that are not removals. *)
Definition is_add (d : DiffLine) : bool :=
  match d_type d with Add => true | _ => false end.

Definition is_remove (d : DiffLine) : bool :=
  match d_type d with Remove => true | _ => false end.

Definition old_side (diff : list DiffLine) : list DiffLine :=
  List.filter (λ d, negb (is_add d)) diff.

Definition new_side (diff : list DiffLine) : list DiffLine :=
  List.filter (λ d, negb (is_remove d)) diff.

End DiffView.

(* ===================================================================== *)
(** * Part II: the theorems                                               *)
(* ===================================================================== *)

Module LineFramerFacts.
Import Js LineFramer.

Lemma string_app_nil_r (s : string) : s +:+ "" = s.
Proof. induction s as [|a s IH]; [done|]. change (String a (s +:+ "") = String a s). by rewrite IH. Qed.

Lemma string_app_assoc (s t u : string) : (s +:+ t) +:+ u = s +:+ (t +:+ u).
Proof.
  induction s as [|a s IH]; [done|].
  change (String a ((s +:+ t) +:+ u) = String a (s +:+ (t +:+ u))). by rewrite IH.
Qed.

Lemma string_app_length (s t : string) :
  String.length (s +:+ t) = String.length s + String.length t.
Proof.
  induction s as [|a s IH]; [done|].
  change (S (String.length (s +:+ t)) = S (String.length s + String.length t)).
  by rewrite IH.
Qed.

(** No newline: no complete line, and the whole text is left over. *)
Lemma lines_no_newline (s : string) :
  indexOf LF s = None → lines_and_rest s = ([], s).
Proof.
  induction s as [|a s IH]; simpl; [done|].
  destruct (Ascii.eqb a LF); [done|].
  destruct (indexOf LF s); [done|]. intros _. by rewrite IH.
Qed.

(** A first newline at [i]: the first line is what stands before it, and
    the remaining lines are those of what follows it. *)
Lemma lines_first_newline (s : string) (i : nat) :
  indexOf LF s = Some i →
  lines_and_rest s =
    (substring_to i s :: complete_lines (substring_from (i + 1) s),
     unterminated (substring_from (i + 1) s)).
Proof.
  unfold complete_lines, unterminated. revert i.
  induction s as [|a s IH]; intros i; simpl; [done|].
  destruct (Ascii.eqb a LF) eqn:Ha.
  - intros [= <-]. simpl. by destruct (lines_and_rest s).
  - destruct (indexOf LF s) as [j|]; simpl; [|done].
    intros [= <-]. rewrite (IH j eq_refl). simpl. done.
Qed.

Lemma newline_shrinks (s : string) (i : nat) :
  indexOf LF s = Some i →
  String.length (substring_from (i + 1) s) < String.length s.
Proof.
  revert i. induction s as [|a s IH]; intros i; simpl; [done|].
  destruct (Ascii.eqb a LF).
  - intros [= <-]. simpl. destruct s; simpl; lia.
  - destruct (indexOf LF s) as [j|]; simpl; [|done].
    intros [= <-]. specialize (IH j eq_refl). simpl. lia.
Qed.

Lemma unterminated_no_newline (s : string) : indexOf LF (unterminated s) = None.
Proof.
  unfold unterminated. induction s as [|a s IH]; simpl; [done|].
  destruct (lines_and_rest s) as [ls r]. simpl in IH.
  destruct (Ascii.eqb a LF) eqn:Ha; [done|].
  destruct ls; simpl; [|done]. by rewrite Ha, IH.
Qed.

(** Lines of a text that is extended: the lines already complete stay, and
    the unterminated tail is continued by the extension. *)
Lemma lines_app (s c : string) :
  lines_and_rest (s +:+ c) =
    (complete_lines s ++ complete_lines (unterminated s +:+ c),
     unterminated (unterminated s +:+ c)).
Proof.
  unfold complete_lines, unterminated.
  induction s as [|a s IH].
  - simpl. change ("" +:+ c) with c. by destruct (lines_and_rest c).
  - change (String a s +:+ c) with (String a (s +:+ c)).
    simpl. rewrite IH. destruct (lines_and_rest s) as [ls r]. simpl.
    destruct (Ascii.eqb a LF) eqn:Ha; [done|].
    destruct ls as [|l ls]; simpl; [|done].
    change (String a r +:+ c) with (String a (r +:+ c)). simpl. rewrite Ha.
    by destruct (lines_and_rest (r +:+ c)) as [[|??] ?].
Qed.

(** [line.trim()] is truthy exactly when the line is not blank. *)
Lemma truthy_rev_app (s t : string) :
  truthy (String.rev_app s t) = truthy s || truthy t.
Proof.
  revert t. induction s as [|a s IH]; intros t; simpl; [done|].
  rewrite IH. simpl. by rewrite orb_true_r.
Qed.

Lemma all_whitespace_rev_app (s t : string) :
  all_whitespace (String.rev_app s t) = all_whitespace s && all_whitespace t.
Proof.
  revert t. induction s as [|a s IH]; intros t; simpl; [done|].
  rewrite IH. simpl. by destruct (is_whitespace a), (all_whitespace s).
Qed.

Lemma truthy_trimStart (s : string) : truthy (trimStart s) = negb (all_whitespace s).
Proof. induction s as [|a s IH]; simpl; [done|]. by destruct (is_whitespace a). Qed.

Lemma all_whitespace_trimStart (s : string) :
  all_whitespace (trimStart s) = all_whitespace s.
Proof.
  induction s as [|a s IH]; simpl; [done|].
  destruct (is_whitespace a) eqn:Ha; simpl; [done|]. by rewrite Ha.
Qed.

Lemma truthy_trim (s : string) : truthy (trim s) = negb (all_whitespace s).
Proof.
  unfold trim, trimEnd, String.rev.
  rewrite truthy_rev_app, orb_false_r, truthy_trimStart.
  rewrite all_whitespace_rev_app, andb_true_r. by rewrite all_whitespace_trimStart.
Qed.

Lemma yielded_of_app (s c : string) :
  yielded_of (s +:+ c) = yielded_of s ++ yielded_of (unterminated s +:+ c).
Proof.
  unfold yielded_of, complete_lines at 1. rewrite lines_app. simpl.
  by rewrite fmap_app, List.filter_app.
Qed.

(** The loop, given at least [String.length buffer] iterations, stops
    because no newline is left, and has yielded the lines of the buffer. *)
Lemma frame_loop_spec (fuel : nat) (buffer : string) (seen : list string) :
  String.length buffer ≤ fuel →
  frame_loop record_line fuel buffer seen =
    (unterminated buffer, seen ++ yielded_of buffer).
Proof.
  revert buffer seen. induction fuel as [|fuel IH]; intros buffer seen Hlen.
  - destruct buffer; simpl in Hlen; [|lia]. simpl. by rewrite List.app_nil_r.
  - simpl. destruct (indexOf LF buffer) as [i|] eqn:Hi.
    + pose proof (newline_shrinks _ _ Hi) as Hlt.
      unfold yielded_of, complete_lines, unterminated.
      rewrite (lines_first_newline _ _ Hi). simpl.
      fold (strip_cr (substring_to i buffer)). rewrite truthy_trim.
      destruct (all_whitespace (strip_cr (substring_to i buffer))); simpl.
      * by rewrite IH by lia.
      * rewrite IH by lia. unfold record_line, yielded_of.
        by rewrite <- List.app_assoc.
    + unfold yielded_of, complete_lines, unterminated.
      rewrite (lines_no_newline _ Hi). simpl. by rewrite List.app_nil_r.
Qed.

Lemma on_texts_spec (chunks : list string) (buffer : string) (seen : list string) :
  indexOf LF buffer = None →
  on_texts record_line chunks (buffer, seen) =
    (unterminated (buffer +:+ concat_chunks chunks),
     seen ++ yielded_of (buffer +:+ concat_chunks chunks)).
Proof.
  revert buffer seen. induction chunks as [|c chunks IH]; intros buffer seen Hb.
  - simpl. rewrite string_app_nil_r. unfold yielded_of, complete_lines, unterminated.
    rewrite (lines_no_newline _ Hb). simpl. by rewrite List.app_nil_r.
  - simpl. unfold on_data at 1. simpl fst; simpl snd.
    rewrite frame_loop_spec by done.
    rewrite IH by apply unterminated_no_newline.
    simpl. rewrite <- (string_app_assoc buffer c (concat_chunks chunks)).
    rewrite (yielded_of_app (buffer +:+ c)), List.app_assoc.
    f_equal. unfold unterminated at 3. by rewrite lines_app.
Qed.

Lemma feed_texts_spec (chunks : list string) :
  feed_texts chunks =
    (unterminated (concat_chunks chunks), yielded_of (concat_chunks chunks)).
Proof. unfold feed_texts. by rewrite on_texts_spec. Qed.

Lemma concat_one_at_a_time (s : string) : concat_chunks (one_at_a_time s) = s.
Proof. induction s as [|a s IH]; simpl; [done|]. by rewrite IH. Qed.

(** From the decoded text on, the loop is indifferent to the chunking.
    For every sequence of texts it yields exactly the newline-terminated
    lines of their concatenation that are not blank, in order, each with
    its trailing carriage return stripped, and keeps the data after the
    last newline in the buffer; any other division of the same text, one
    code unit at a time included, yields the same lines and leaves the same
    buffer. *)
Lemma decoded_text_invariance (chunks : list string) :
  feed_texts chunks =
    (unterminated (concat_chunks chunks),
     List.filter (λ line, negb (all_whitespace line))
       (strip_cr <$> complete_lines (concat_chunks chunks)))
  ∧ (∀ chunks', concat_chunks chunks' = concat_chunks chunks →
       feed_texts chunks' = feed_texts chunks)
  ∧ feed_texts (one_at_a_time (concat_chunks chunks)) = feed_texts chunks
  ∧ indexOf LF (feed_texts chunks).1 = None.
Proof.
  split; [apply feed_texts_spec|]. split; [|split].
  - intros chunks' Heq. by rewrite !feed_texts_spec, Heq.
  - by rewrite !feed_texts_spec, concat_one_at_a_time.
  - rewrite feed_texts_spec. apply unterminated_no_newline.
Qed.

(** Blank lines are not yielded: the text of the three chunks below holds
    three newline-terminated lines, the second one empty, and two are
    handed on. *)
Lemma blank_line_not_yielded :
  let chunks := ["a" +:+ String LF ""; String LF ""; "b" +:+ String CR (String LF "")] in
  complete_lines (concat_chunks chunks) = ["a"; ""; "b" +:+ String CR ""]
  ∧ (feed_texts chunks).2 = ["a"; "b"]
  ∧ (feed_texts chunks).2 ≠ strip_cr <$> complete_lines (concat_chunks chunks).
Proof. by vm_compute. Qed.

Example feed_split_result :
  feed_texts ["{type:result"; ",cost:1}" +:+ String LF ""] =
  ("", ["{type:result,cost:1}"]).
Proof. reflexivity. Qed.

End LineFramerFacts.

Module StdoutHandlerFacts.
Import Js StdoutHandler.
Import LineFramerFacts.

(** The loop has run to its end: with fuel for every code unit of the
    buffer, what it leaves holds no newline. *)
Lemma indexOf_Some_lt (c : Z) (s : list Z) (i : nat) :
  indexOf c s = Some i → i < length s.
Proof.
  revert i. induction s as [|a s IH]; intros i; simpl; [done|].
  destruct (a =? c)%Z.
  - intros [= <-]. lia.
  - destruct (indexOf c s) as [j|]; simpl; [|done].
    intros [= <-]. specialize (IH j eq_refl). lia.
Qed.

Lemma frame_loop_done {St} (handle : list Z → St → St) (fuel : nat)
    (buffer : list Z) (st : St) :
  length buffer ≤ fuel → indexOf LF (frame_loop handle fuel buffer st).1 = None.
Proof.
  revert buffer st. induction fuel as [|fuel IH]; intros buffer st Hlen.
  - destruct buffer; [done|simpl in Hlen; lia].
  - cbn [frame_loop]. destruct (indexOf LF buffer) as [i|] eqn:Hi; [|done].
    apply indexOf_Some_lt in Hi.
    assert (length (drop (i + 1) buffer) ≤ fuel) by (rewrite length_drop; lia).
    cbv zeta. destruct (truthy _); by apply IH.
Qed.

(** Whatever the chunks, no complete line stays in the buffer. *)
Lemma feed_buffer_no_newline (chunks : list (list Z)) :
  indexOf LF (feed chunks).1 = None.
Proof.
  unfold feed. induction chunks as [|chunk chunks IH] using rev_ind; [done|].
  rewrite foldl_app. cbn [foldl]. unfold on_data at 1. by apply frame_loop_done.
Qed.

(** Bytes below 0x80 decode to themselves, one chunk at a time or not. *)
Lemma decode_ascii (bytes : list Z) :
  Forall (λ b, 0 ≤ b ≤ 0x7F)%Z bytes → toString bytes = bytes.
Proof.
  unfold toString. induction 1 as [|b bytes Hb _ IH]; [done|].
  cbn [decode decode_byte]. unfold lead.
  rewrite (proj2 (Z.leb_le _ _)) by lia. cbn [app fmap list_fmap concat].
  unfold code_units at 1. rewrite (proj2 (Z.ltb_lt _ _)) by lia.
  cbn [app]. by rewrite IH.
Qed.

(** *** The handler on ASCII

    On bytes below 0x80 the handler does what [LineFramer] says of the
    text. *)
Lemma unit_of_eqb (a c : ascii) : (unit_of a =? unit_of c)%Z = Ascii.eqb a c.
Proof.
  unfold unit_of. destruct (Ascii.eqb a c) eqn:He.
  - apply Ascii.eqb_eq in He as ->. apply Z.eqb_refl.
  - apply Z.eqb_neq. intros Heq%Nat2Z.inj.
    apply (f_equal ascii_of_nat) in Heq. rewrite !ascii_nat_embedding in Heq.
    subst. by rewrite Ascii.eqb_refl in He.
Qed.

Lemma units_app (s t : string) : units (s +:+ t) = units s ++ units t.
Proof. induction s as [|a s IH]; [done|]. simpl. by rewrite IH. Qed.

Lemma units_length (s : string) : length (units s) = String.length s.
Proof. induction s as [|a s IH]; [done|]. simpl. by rewrite IH. Qed.

Lemma units_indexOf (s : string) :
  StdoutHandler.indexOf StdoutHandler.LF (units s) = Js.indexOf Js.LF s.
Proof.
  induction s as [|a s IH]; [done|]. simpl.
  change StdoutHandler.LF with (unit_of Js.LF). rewrite unit_of_eqb.
  destruct (Ascii.eqb a Js.LF); [done|].
  change (unit_of Js.LF) with StdoutHandler.LF. by rewrite IH.
Qed.

Lemma units_take (n : nat) (s : string) : take n (units s) = units (substring_to n s).
Proof.
  revert n. induction s as [|a s IH]; intros [|n]; simpl; try done. by rewrite IH.
Qed.

Lemma units_drop (n : nat) (s : string) : drop n (units s) = units (substring_from n s).
Proof.
  revert n. induction s as [|a s IH]; intros [|n]; simpl; try done.
Qed.

Lemma units_endsWith (s : string) :
  StdoutHandler.endsWith (units s) StdoutHandler.CR = Js.endsWith s Js.CR.
Proof.
  unfold StdoutHandler.endsWith. induction s as [|a s IH]; [done|].
  destruct s as [|b s].
  - simpl. change StdoutHandler.CR with (unit_of Js.CR). apply unit_of_eqb.
  - change (units (String a (String b s))) with (unit_of a :: units (String b s)).
    change (units (String b s)) with (unit_of b :: units s) at 1.
    rewrite last_cons_cons.
    change (unit_of b :: units s) with (units (String b s)). by rewrite IH.
Qed.

Lemma units_slice_0_m1 (s : string) :
  StdoutHandler.slice_0_m1 (units s) = units (Js.slice_0_m1 s).
Proof.
  unfold StdoutHandler.slice_0_m1. induction s as [|a s IH]; [done|].
  destruct s as [|b s]; [done|].
  change (units (String a (String b s))) with (unit_of a :: units (String b s)).
  change (Js.slice_0_m1 (String a (String b s)))
    with (String a (Js.slice_0_m1 (String b s))).
  cbn [units]. rewrite <- IH. simpl. by rewrite Nat.sub_0_r.
Qed.

Lemma unit_of_is_whitespace (a : ascii) :
  StdoutHandler.is_whitespace (unit_of a) = Js.is_whitespace a.
Proof. by destruct a as [[] [] [] [] [] [] [] []]; vm_compute. Qed.

Lemma truthy_trimStart_units (l : list Z) :
  StdoutHandler.truthy (StdoutHandler.trimStart l)
  = negb (forallb StdoutHandler.is_whitespace l).
Proof.
  induction l as [|a l IH]; [done|]. simpl.
  by destruct (StdoutHandler.is_whitespace a).
Qed.

Lemma forallb_trimStart (l : list Z) :
  forallb StdoutHandler.is_whitespace (StdoutHandler.trimStart l)
  = forallb StdoutHandler.is_whitespace l.
Proof.
  induction l as [|a l IH]; [done|]. simpl.
  destruct (StdoutHandler.is_whitespace a) eqn:Ha; simpl; [done|]. by rewrite Ha.
Qed.

Lemma forallb_reverse {A} (f : A → bool) (l : list A) :
  forallb f (reverse l) = forallb f l.
Proof.
  induction l as [|a l IH]; [done|].
  rewrite reverse_cons, forallb_app, IH. simpl. rewrite andb_true_r. apply andb_comm.
Qed.

Lemma truthy_reverse {A} (l : list A) :
  match reverse l with [] => false | _ => true end
  = match l with [] => false | _ => true end.
Proof.
  destruct l as [|a l]; [done|]. rewrite reverse_cons.
  by destruct (reverse l).
Qed.

Lemma truthy_trim_units (l : list Z) :
  StdoutHandler.truthy (StdoutHandler.trim l)
  = negb (forallb StdoutHandler.is_whitespace l).
Proof.
  unfold StdoutHandler.trim, StdoutHandler.truthy.
  rewrite truthy_reverse. fold (StdoutHandler.truthy
    (StdoutHandler.trimStart (reverse (StdoutHandler.trimStart l)))).
  by rewrite truthy_trimStart_units, forallb_reverse, forallb_trimStart.
Qed.

Lemma units_all_whitespace (s : string) :
  forallb StdoutHandler.is_whitespace (units s) = LineFramer.all_whitespace s.
Proof.
  induction s as [|a s IH]; [done|]. simpl.
  by rewrite unit_of_is_whitespace, IH.
Qed.

Lemma units_truthy_trim (s : string) :
  StdoutHandler.truthy (StdoutHandler.trim (units s)) = Js.truthy (Js.trim s).
Proof. by rewrite truthy_trim_units, units_all_whitespace, truthy_trim. Qed.

(** The loop on the code units of a text is the loop on the text. *)
Lemma frame_loop_units (fuel : nat) (buffer : string) (seen : list string) :
  StdoutHandler.frame_loop StdoutHandler.record_line fuel (units buffer)
    (units <$> seen)
  = let r := LineFramer.frame_loop LineFramer.record_line fuel buffer seen in
    (units r.1, units <$> r.2).
Proof.
  revert buffer seen. induction fuel as [|fuel IH]; intros buffer seen; [done|].
  cbn [StdoutHandler.frame_loop LineFramer.frame_loop].
  rewrite units_indexOf. destruct (Js.indexOf Js.LF buffer) as [i|]; [|done].
  cbv zeta. rewrite units_take, units_drop, units_endsWith.
  assert ((if Js.endsWith (substring_to i buffer) Js.CR
           then StdoutHandler.slice_0_m1 (units (substring_to i buffer))
           else units (substring_to i buffer))
          = units (if Js.endsWith (substring_to i buffer) Js.CR
                   then Js.slice_0_m1 (substring_to i buffer)
                   else substring_to i buffer)) as ->.
  { destruct (Js.endsWith _ _); [apply units_slice_0_m1|done]. }
  rewrite units_truthy_trim. destruct (Js.truthy _); [|apply IH].
  unfold StdoutHandler.record_line, LineFramer.record_line.
  rewrite <- IH. by rewrite fmap_app.
Qed.

(** On ASCII, fed chunk by chunk as bytes, the handler yields what
    [LineFramer] yields from the texts, so that there the chunking does not
    matter. *)
Lemma feed_ascii (texts : list string) :
  Forall is_ascii texts →
  feed (units <$> texts)
  = (units (LineFramer.feed_texts texts).1, units <$> (LineFramer.feed_texts texts).2).
Proof.
  intros Hascii. unfold feed, LineFramer.feed_texts, LineFramer.on_texts.
  change ([] : list Z) with (units "") at 1.
  change ([] : list (list Z)) with (units <$> []) at 1.
  generalize (@nil string) as seen. generalize EmptyString as buffer.
  induction Hascii as [|text texts Htext _ IH]; intros buffer seen; [done|].
  cbn [fmap list_fmap foldl].
  assert (on_data StdoutHandler.record_line (units text) (units buffer, units <$> seen)
          = let r := LineFramer.on_data LineFramer.record_line text (buffer, seen) in
            (units r.1, units <$> r.2)) as ->.
  { unfold on_data, LineFramer.on_data. cbn [fst snd]. cbv zeta.
    rewrite (decode_ascii _ Htext), <- units_app, units_length.
    apply frame_loop_units. }
  cbv zeta. rewrite IH. by rewrite <- surjective_pairing.
Qed.

Lemma ascii_chunk_invariance (texts texts' : list string) :
  Forall is_ascii texts → Forall is_ascii texts' →
  LineFramer.concat_chunks texts' = LineFramer.concat_chunks texts →
  feed (units <$> texts') = feed (units <$> texts).
Proof.
  intros H H' Heq. rewrite !feed_ascii by done.
  destruct (decoded_text_invariance texts) as (_ & Hinv & _). by rewrite (Hinv texts' Heq).
Qed.

(** C1. The framer is not indifferent to how the bytes are split. The
    subprocess writes the line with the one character U+00E9, in UTF-8 the
    bytes C3 A9, and a line feed. Delivered in one chunk, the line yielded
    is that character. Delivered in two chunks that part between C3 and A9,
    or byte by byte, the line yielded is U+FFFD U+FFFD: each chunk is
    decoded by itself, so the first ends in a sequence cut short and the
    second starts with a byte that continues nothing. The same with the
    character inside a JSON string. *)
Theorem split_inside_character_changes_the_line :
  feed [[0xC3; 0xA9; 0x0A]%Z] = ([], [[0xE9%Z]])
  ∧ feed [[0xC3]%Z; [0xA9; 0x0A]%Z] = ([], [[0xFFFD; 0xFFFD]%Z])
  ∧ feed (one_at_a_time [0xC3; 0xA9; 0x0A]%Z) = ([], [[0xFFFD; 0xFFFD]%Z])
  ∧ feed [[0x22; 0xC3; 0xA9; 0x22; 0x0A]%Z] = ([], [[0x22; 0xE9; 0x22]%Z])
  ∧ feed [[0x22; 0xC3]%Z; [0xA9; 0x22; 0x0A]%Z]
    = ([], [[0x22; 0xFFFD; 0xFFFD; 0x22]%Z]).
Proof. vm_compute. done. Qed.

End StdoutHandlerFacts.

Module JsMapFacts.

Section Facts.
Context {K V : Type} `{EqDecision K}.
Implicit Types (k : K) (v : V) (m : list (K * V)).

Lemma get_set_eq k v m : JsMap.get k (JsMap.set k v m) = Some v.
Proof.
  induction m as [|[k' v'] m IH]; simpl.
  - by rewrite decide_True.
  - destruct (decide (k' = k)) as [->|Hne]; simpl.
    + by rewrite decide_True.
    + by rewrite decide_False.
Qed.

Lemma get_set_ne k k' v m : k ≠ k' → JsMap.get k' (JsMap.set k v m) = JsMap.get k' m.
Proof.
  intros Hne. induction m as [|[k0 v0] m IH]; simpl.
  - by rewrite decide_False.
  - destruct (decide (k0 = k)) as [->|Hne0]; simpl.
    + by rewrite !decide_False.
    + by rewrite IH.
Qed.

Lemma keys_set_elem k k' v m :
  k' ∈ JsMap.keys (JsMap.set k v m) → k' = k ∨ k' ∈ JsMap.keys m.
Proof.
  unfold JsMap.keys. induction m as [|[k0 v0] m IH]; simpl.
  - intros ?%list_elem_of_singleton. by left.
  - destruct (decide (k0 = k)) as [->|Hne0]; simpl.
    + intros [->|?]%elem_of_cons; [by left|]. right. by apply elem_of_cons; right.
    + intros [->|Hin]%elem_of_cons.
      * right. by apply elem_of_cons; left.
      * destruct (IH Hin) as [->|?]; [by left|]. right. by apply elem_of_cons; right.
Qed.

(** [set] keeps the keys distinct: it overwrites or appends. *)
Lemma keys_set_NoDup k v m :
  NoDup (JsMap.keys m) → NoDup (JsMap.keys (JsMap.set k v m)).
Proof.
  unfold JsMap.keys. induction m as [|[k0 v0] m IH]; simpl.
  - intros _. apply NoDup_singleton.
  - intros [Hnotin Hnd]%NoDup_cons.
    destruct (decide (k0 = k)) as [->|Hne0]; simpl.
    + by apply NoDup_cons.
    + apply NoDup_cons. split; [|by apply IH].
      intros Hin. apply (keys_set_elem k k0 v m) in Hin as [->|Hin]; done.
Qed.

Lemma get_None_not_elem k m : JsMap.get k m = None → k ∉ JsMap.keys m.
Proof.
  unfold JsMap.keys. induction m as [|[k0 v0] m IH]; simpl.
  - intros _. apply not_elem_of_nil.
  - destruct (decide (k0 = k)) as [->|Hne0]; [done|].
    intros Hg [->|Hin]%elem_of_cons; [done|]. by apply IH.
Qed.

Lemma not_elem_get_None k m : k ∉ JsMap.keys m → JsMap.get k m = None.
Proof.
  unfold JsMap.keys. induction m as [|[k0 v0] m IH]; simpl; [done|].
  intros Hnotin. destruct (decide (k0 = k)) as [->|Hne0].
  - exfalso. apply Hnotin. by apply elem_of_cons; left.
  - apply IH. intros Hin. apply Hnotin. by apply elem_of_cons; right.
Qed.

(** With distinct keys, the entries under a key are the one [get] finds. *)
Lemma filter_key k m :
  NoDup (JsMap.keys m) →
  List.filter (λ entry, bool_decide (entry.1 = k)) m =
    match JsMap.get k m with Some v => [(k, v)] | None => [] end.
Proof.
  unfold JsMap.keys. induction m as [|[k0 v0] m IH]; simpl; [done|].
  intros [Hnotin Hnd]%NoDup_cons.
  destruct (decide (k0 = k)) as [->|Hne0].
  - rewrite bool_decide_eq_true_2 by done. f_equal.
    rewrite (IH Hnd). by rewrite (not_elem_get_None k m Hnotin).
  - rewrite bool_decide_eq_false_2 by done. by apply IH.
Qed.

End Facts.

End JsMapFacts.

Module DeltaBatcherFacts.
Import Js Protocol ClaudeProcess JsMapFacts.

(** Record updates written out. *)
Ltac unfold_setters :=
  unfold set_process, set_currentCwd, set_messageIdCounter, set_stdoutBuffer,
    set_stderrRl, set_claudePath, set_heartbeatInterval, set_eventCounter,
    set_deltaBuffer, set_deltaFlushTimer, set_lastDeltaEvent,
    set_windowDestroyed, set_immediates, set_sent, set_children,
    set_c_stdin, set_c_signals in *.

Section WithParser.
Context (JSON_parse : string → option Payload).

(** The three ways [handleStreamLine] treats a line. *)
Lemma handleStreamLine_ignored line pw :
  line_kind JSON_parse line = Ignored → handleStreamLine JSON_parse line pw = pw.
Proof.
  unfold line_kind, handleStreamLine, deltaType.
  destruct (negb (truthy (trim line))); [done|].
  destruct (JSON_parse line) as [event|]; [|done].
  by destruct (decide (_ = Some "input_json_delta")).
Qed.

Lemma handleStreamLine_fragment line event p w :
  line_kind JSON_parse line = Fragment event →
  handleStreamLine JSON_parse line (p, w) =
    (ensureDeltaFlushTimer
       (set_lastDeltaEvent (Some event)
          (set_deltaBuffer
             (JsMap.set (fragment_index event)
                (str_or (JsMap.get (fragment_index event) (deltaBuffer p)) ""
                 +:+ fragment_json event)
                (deltaBuffer p)) p)), w).
Proof.
  unfold line_kind, handleStreamLine, deltaType.
  destruct (negb (truthy (trim line))); [done|].
  destruct (JSON_parse line) as [event'|]; [|done].
  destruct (decide (_ = Some "input_json_delta")); [|done].
  by intros [= ->].
Qed.

Lemma handleStreamLine_structural line event pw :
  line_kind JSON_parse line = Structural event →
  handleStreamLine JSON_parse line pw =
    sendToRenderer (data_envelope (str_or (p_type event) "unknown") event)
      (let pw1 := if 0 <? JsMap.size (deltaBuffer pw.1)
                  then flushDeltaBuffer pw else pw in
       if decide (p_event event ≫= p_type = Some "content_block_stop")
       then stopDeltaFlushTimer pw1 else pw1).
Proof.
  unfold line_kind, handleStreamLine, deltaType.
  destruct (negb (truthy (trim line))); [done|].
  destruct (JSON_parse line) as [event'|]; [|done].
  destruct (decide (_ = Some "input_json_delta")); [done|].
  by intros [= ->].
Qed.

End WithParser.

(** What one turn of the flush loop does while the window is there. *)
Lemma foldl_flush_entry (entries : list (Z * string)) (p : ClaudeProcess) (w : World) :
  windowDestroyed w = false →
  foldl flush_entry (p, w) entries =
    let batches :=
      match lastDeltaEvent p with
      | Some last =>
        batch_envelope (sessionId p) last
          <$> List.filter (λ entry, truthy entry.2) entries
      | None => []
      end in
    (set_eventCounter (eventCounter p + Z.of_nat (length batches)) p,
     set_immediates (immediates w ++ batches) w).
Proof.
  revert p w. induction entries as [|[i acc] entries IH]; intros p w Hw.
  - destruct p, w. unfold_setters. simpl. destruct lastDeltaEvent0; simpl;
      rewrite List.app_nil_r; f_equal; f_equal; lia.
  - simpl foldl. rewrite Hw.
    destruct (lastDeltaEvent p) as [last|] eqn:Hlast.
    + destruct (truthy acc) eqn:Hacc.
      * rewrite IH by (by destruct w).
        destruct p, w. unfold_setters. simpl in *. rewrite Hlast. simpl.
        rewrite Hacc. simpl.
        rewrite <- List.app_assoc. simpl. f_equal; f_equal; try done.
        rewrite Nat2Z.inj_succ. unfold fmap. lia.
      * rewrite IH by done. rewrite Hlast. simpl. by rewrite Hacc.
    + rewrite IH by done. by rewrite Hlast.
Qed.

Lemma flushDeltaBuffer_spec (p : ClaudeProcess) (w : World) :
  windowDestroyed w = false →
  flushDeltaBuffer (p, w) =
    (set_deltaBuffer []
       (set_eventCounter
          (eventCounter p + Z.of_nat (length (pending_batches p))) p),
     set_immediates (immediates w ++ pending_batches p) w).
Proof.
  intros Hw. unfold flushDeltaBuffer, pending_batches. simpl fst.
  destruct (JsMap.size (deltaBuffer p) =? 0) eqn:Hsize.
  - apply Nat.eqb_eq in Hsize. unfold JsMap.size in Hsize.
    apply nil_length_inv in Hsize.
    destruct p, w. unfold_setters. simpl in *. subst.
    destruct lastDeltaEvent0; simpl; rewrite List.app_nil_r; f_equal; f_equal; lia.
  - rewrite foldl_flush_entry by done. simpl.
    by destruct (lastDeltaEvent p).
Qed.

Lemma str_or_Some_empty (s : string) : str_or (Some s) "" = s.
Proof. by destruct s. Qed.

Lemma envelope_index_batch sessionId last (entry : Z * string) :
  envelope_index (batch_envelope sessionId last entry) = Some entry.1.
Proof. done. Qed.

Lemma envelope_partial_json_batch sessionId last (entry : Z * string) :
  envelope_partial_json (batch_envelope sessionId last entry) = Some entry.2.
Proof. done. Qed.

(** What the batches of a buffer carry for one block index. *)
Lemma emitted_for_batches (sessionId : string) (last : Payload) (i : Z)
    (buffer : list (Z * string)) :
  NoDup (JsMap.keys buffer) →
  emitted_for i
    (batch_envelope sessionId last
       <$> List.filter (λ entry, truthy entry.2) buffer) =
    match JsMap.get i buffer with
    | Some acc => if truthy acc then [Some acc] else []
    | None => []
    end.
Proof.
  unfold emitted_for, JsMap.keys.
  induction buffer as [|[k a] buffer IH]; simpl; [done|].
  intros [Hnotin Hnd]%NoDup_cons. specialize (IH Hnd).
  destruct (decide (k = i)) as [->|Hne].
  - rewrite (not_elem_get_None i buffer Hnotin) in IH.
    destruct (truthy a); simpl.
    + rewrite envelope_index_batch, bool_decide_eq_true_2 by done.
      simpl. f_equal. exact IH.
    + exact IH.
  - destruct (truthy a); simpl; [|exact IH].
    rewrite envelope_index_batch, bool_decide_eq_false_2 by (simpl; congruence).
    exact IH.
Qed.

Lemma pending_batches_tagged (p : ClaudeProcess) :
  Forall (λ e, e_type e = "stream_event" ∧ e_sessionId e = sessionId p)
    (pending_batches p).
Proof.
  unfold pending_batches. destruct (lastDeltaEvent p); [|by constructor].
  apply Forall_fmap, Forall_forall. by intros [??] _.
Qed.

Section Runs.
Context (JSON_parse : string → option Payload).

(** A run of lines none of which is structural: nothing is sent, and every
    block index has gained the concatenation of its fragments. *)
Lemma run_of_fragments (lines : list string) (p : ClaudeProcess) (w : World) :
  Forall (λ line, ∀ event, line_kind JSON_parse line ≠ Structural event) lines →
  let pw1 := foldl (λ pw line, handleStreamLine JSON_parse line pw) (p, w) lines in
  pw1.2 = w
  ∧ sessionId pw1.1 = sessionId p
  ∧ (NoDup (JsMap.keys (deltaBuffer p)) → NoDup (JsMap.keys (deltaBuffer pw1.1)))
  ∧ (buffer_has_template p → buffer_has_template pw1.1)
  ∧ ∀ i, str_or (JsMap.get i (deltaBuffer pw1.1)) "" =
         str_or (JsMap.get i (deltaBuffer p)) ""
         +:+ concat_fragments (fragments_for JSON_parse i lines).
Proof.
  revert p. induction lines as [|line lines IH]; intros p Hall; simpl.
  - repeat split; try done. intros i. by rewrite LineFramerFacts.string_app_nil_r.
  - apply Forall_cons in Hall as [Hline Hall].
    destruct (line_kind JSON_parse line) as [|event|event] eqn:Hkind.
    + rewrite (handleStreamLine_ignored _ _ _ Hkind).
      destruct (IH p Hall) as (Hw & Hsid & Hnd & Htpl & Hget).
      repeat split; try done.
    + rewrite (handleStreamLine_fragment _ _ _ _ _ Hkind).
      set (p1 := ensureDeltaFlushTimer _).
      destruct (IH p1 Hall) as (Hw & Hsid & Hnd & Htpl & Hget).
      assert (deltaBuffer p1 =
                JsMap.set (fragment_index event)
                  (str_or (JsMap.get (fragment_index event) (deltaBuffer p)) ""
                   +:+ fragment_json event) (deltaBuffer p)) as Hbuf.
      { unfold p1, ensureDeltaFlushTimer. by destruct (deltaFlushTimer _). }
      assert (lastDeltaEvent p1 = Some event) as Hlast.
      { unfold p1, ensureDeltaFlushTimer. by destruct (deltaFlushTimer _). }
      assert (sessionId p1 = sessionId p) as Hsid1.
      { unfold p1, ensureDeltaFlushTimer. by destruct (deltaFlushTimer _). }
      repeat split; try done.
      * congruence.
      * intros Hnd0. apply Hnd. rewrite Hbuf. by apply keys_set_NoDup.
      * intros _. apply Htpl. right. by rewrite Hlast.
      * intros i. rewrite Hget, Hbuf.
        destruct (decide (fragment_index event = i)) as [->|Hne]; simpl.
        -- rewrite get_set_eq, str_or_Some_empty.
           by rewrite LineFramerFacts.string_app_assoc.
        -- by rewrite get_set_ne.
    + by destruct (Hline event).
Qed.

End Runs.

(** C2. Fragments for one block index that arrive between two flushes
    leave the process in one batched event: after a flush (empty buffer),
    let any run of lines pass that holds no structural line; nothing is
    sent during the run, and the next flush queues, for block index [i],
    one event that carries the concatenation of the fragments for [i] in
    arrival order (none when that concatenation is empty), tagged with the
    session, and it empties the buffer. *)
Theorem delta_batcher_concatenation (JSON_parse : string → option Payload)
    (lines : list string) (p : ClaudeProcess) (w : World) (i : Z) :
  windowDestroyed w = false →
  deltaBuffer p = [] →
  Forall (λ line, ∀ event, line_kind JSON_parse line ≠ Structural event) lines →
  let pw1 := foldl (λ pw line, handleStreamLine JSON_parse line pw) (p, w) lines in
  let pw2 := flushDeltaBuffer pw1 in
  let json := concat_fragments (fragments_for JSON_parse i lines) in
  immediates pw1.2 = immediates w
  ∧ (∃ emitted,
       immediates pw2.2 = immediates w ++ emitted
       ∧ Forall (λ e, e_type e = "stream_event" ∧ e_sessionId e = sessionId p)
           emitted
       ∧ emitted_for i emitted = if truthy json then [Some json] else [])
  ∧ deltaBuffer pw2.1 = []
  ∧ JsMap.get i (deltaBuffer pw2.1) = None.
Proof.
  intros Hw Hbuf Hall pw1 pw2 json.
  destruct (run_of_fragments JSON_parse lines p w Hall)
    as (Hw1 & Hsid & Hnd & Htpl & Hget).
  fold pw1 in Hw1, Hsid, Hnd, Htpl, Hget.
  specialize (Hget i). fold json in Hget. rewrite Hbuf in Hget. simpl in Hget.
  change ("" +:+ json) with json in Hget.
  rewrite Hbuf in Hnd. specialize (Hnd (NoDup_nil_2 (A:=Z))).
  specialize (Htpl (or_introl Hbuf)).
  assert (pw2 = flushDeltaBuffer (pw1.1, w)) as Hpw2.
  { unfold pw2. by rewrite <- Hw1, <- surjective_pairing. }
  rewrite flushDeltaBuffer_spec in Hpw2 by done.
  split; [by rewrite Hw1|]. rewrite Hpw2. simpl. split; [|done].
  exists (pending_batches pw1.1). split; [done|]. split.
  { rewrite <- Hsid. apply pending_batches_tagged. }
  unfold pending_batches. destruct Htpl as [Hnil|[last Hlast]].
  - rewrite Hnil in Hget |- *. simpl in Hget. rewrite <- Hget.
    by destruct (lastDeltaEvent pw1.1).
  - rewrite Hlast, emitted_for_batches by done.
    destruct (JsMap.get i (deltaBuffer pw1.1)) as [acc|].
    + rewrite str_or_Some_empty in Hget. by rewrite Hget.
    + simpl in Hget. by rewrite <- Hget.
Qed.

Lemma delta_batcher_concatenation_witness :
  let p := ClaudeProcess.new sample_env "s1" in
  let pw1 :=
    foldl (λ pw line, handleStreamLine sample_parse line pw) (p, sample_world)
      ["fragment-1"; "fragment-2"] in
  let pw2 := flushDeltaBuffer pw1 in
  immediates pw1.2 = []
  ∧ (∃ emitted,
       immediates pw2.2 = [] ++ emitted
       ∧ Forall (λ e, e_type e = "stream_event" ∧ e_sessionId e = "s1") emitted
       ∧ emitted_for 1 emitted = [Some "{todos:[]}"])
  ∧ deltaBuffer pw2.1 = []
  ∧ JsMap.get 1%Z (deltaBuffer pw2.1) = None.
Proof.
  apply (delta_batcher_concatenation sample_parse ["fragment-1"; "fragment-2"]
           (ClaudeProcess.new sample_env "s1") sample_world 1%Z).
  - reflexivity.
  - reflexivity.
  - repeat constructor; intros event; vm_compute; discriminate.
Defined.

(** Delivery of the queued sends is first in, first out. *)
Lemma drain_immediates_spec (w : World) :
  windowDestroyed w = false →
  drain_immediates w = set_immediates [] (set_sent (sent w ++ immediates w) w).
Proof.
  unfold drain_immediates. destruct w as [destroyed queue sent children].
  simpl. intros ->. revert sent.
  induction queue as [|e queue IH]; intros sent.
  - unfold_setters. simpl. by rewrite List.app_nil_r.
  - cbn [length immediates]. rewrite Nat.iter_succ_r.
    unfold run_immediate at 2. unfold_setters. cbn [immediates windowDestroyed].
    cbn [immediates] in IH. rewrite IH. simpl. by rewrite <- List.app_assoc.
Qed.

(** Flushing always leaves the buffer empty, window or no window. *)
Lemma foldl_flush_entry_buffer (entries : list (Z * string)) (pw : ClaudeProcess * World) :
  deltaBuffer (foldl flush_entry pw entries).1 = deltaBuffer pw.1
  ∧ lastDeltaEvent (foldl flush_entry pw entries).1 = lastDeltaEvent pw.1.
Proof.
  revert pw. induction entries as [|[i acc] entries IH]; intros [p w]; [done|].
  cbn [foldl]. destruct (IH (flush_entry (p, w) (i, acc))) as [-> ->].
  unfold flush_entry, sendToRenderer. simpl.
  by destruct (lastDeltaEvent p) eqn:?, (truthy acc), (windowDestroyed w).
Qed.

Lemma flushDeltaBuffer_empties (pw : ClaudeProcess * World) :
  deltaBuffer (flushDeltaBuffer pw).1 = []
  ∧ lastDeltaEvent (flushDeltaBuffer pw).1 = lastDeltaEvent pw.1.
Proof.
  unfold flushDeltaBuffer.
  destruct (JsMap.size (deltaBuffer pw.1) =? 0) eqn:Hsize.
  - apply Nat.eqb_eq, nil_length_inv in Hsize. by rewrite Hsize.
  - destruct (foldl_flush_entry_buffer (deltaBuffer pw.1) pw) as [_ Hlast].
    by destruct (foldl flush_entry pw (deltaBuffer pw.1)).
Qed.

Lemma preflush_spec (p : ClaudeProcess) (w : World) :
  windowDestroyed w = false →
  (if 0 <? JsMap.size (deltaBuffer p) then flushDeltaBuffer (p, w) else (p, w)) =
    (set_deltaBuffer []
       (set_eventCounter
          (eventCounter p + Z.of_nat (length (pending_batches p))) p),
     set_immediates (immediates w ++ pending_batches p) w).
Proof.
  intros Hw. destruct (0 <? JsMap.size (deltaBuffer p)) eqn:Hsize.
  - by apply flushDeltaBuffer_spec.
  - apply Nat.ltb_ge in Hsize. unfold JsMap.size in Hsize.
    assert (deltaBuffer p = []) as Hnil by (apply nil_length_inv; lia).
    unfold pending_batches. rewrite Hnil.
    destruct p, w. unfold_setters. simpl in *. subst.
    destruct lastDeltaEvent0; simpl; rewrite List.app_nil_r; f_equal; f_equal; lia.
Qed.

Lemma stopDeltaFlushTimer_empty (p : ClaudeProcess) (w : World) :
  deltaBuffer p = [] →
  stopDeltaFlushTimer (p, w) =
    (if deltaFlushTimer p then set_deltaFlushTimer false p else p, w).
Proof.
  intros Hnil. unfold stopDeltaFlushTimer, flushDeltaBuffer.
  destruct (deltaFlushTimer p); simpl; by rewrite Hnil.
Qed.

(** C6. When a structural line is parsed, the batches that the buffer
    stands for, one for every block index with buffered text, are queued
    before the structural event, in the same FIFO queue; so they are
    delivered before it, and the buffer is empty afterwards: no batch for
    fragments that preceded the structural line can follow it. *)
Theorem structural_event_preflush (JSON_parse : string → option Payload)
    (line : string) (event : Payload) (p : ClaudeProcess) (w : World) :
  windowDestroyed w = false →
  buffer_ok p →
  line_kind JSON_parse line = Structural event →
  let pw' := handleStreamLine JSON_parse line (p, w) in
  let forwarded := structural_envelope (sessionId p) event in
  immediates pw'.2 = immediates w ++ pending_batches p ++ [forwarded]
  ∧ sent (drain_immediates pw'.2) =
      sent w ++ immediates w ++ pending_batches p ++ [forwarded]
  ∧ deltaBuffer pw'.1 = []
  ∧ ∀ i acc, JsMap.get i (deltaBuffer p) = Some acc → truthy acc = true →
      emitted_for i (pending_batches p) = [Some acc].
Proof.
  intros Hw [Hnd Htpl] Hkind pw' forwarded.
  assert (pw' =
    (set_eventCounter
       (eventCounter p + Z.of_nat (length (pending_batches p)) + 1)
       (set_deltaBuffer []
          (if decide (p_event event ≫= p_type = Some "content_block_stop")
           then if deltaFlushTimer p then set_deltaFlushTimer false p else p
           else p)),
     set_immediates (immediates w ++ pending_batches p ++ [forwarded]) w)) as ->.
  { unfold pw'. rewrite (handleStreamLine_structural _ _ _ _ Hkind).
    cbn [fst]. rewrite preflush_spec by done. cbn zeta.
    destruct (decide (_ = Some "content_block_stop")).
    - rewrite stopDeltaFlushTimer_empty by done.
      unfold sendToRenderer, forwarded, structural_envelope.
      destruct p, w. unfold_setters. simpl in *. subst.
      destruct deltaFlushTimer0; simpl; by rewrite <- List.app_assoc.
    - unfold sendToRenderer, forwarded, structural_envelope.
      destruct p, w. unfold_setters. simpl in *. subst.
      by rewrite <- List.app_assoc. }
  split; [done|]. split.
  { rewrite drain_immediates_spec by (by destruct w). by destruct w. }
  split; [done|].
  intros i acc Hget Hacc. unfold pending_batches.
  destruct Htpl as [Hnil|[last Hlast]]; [by rewrite Hnil in Hget|].
  by rewrite Hlast, emitted_for_batches, Hget, Hacc.
Qed.

Lemma structural_event_preflush_witness :
  let p :=
    (foldl (λ pw line, handleStreamLine sample_parse line pw)
       (ClaudeProcess.new sample_env "s1", sample_world)
       ["fragment-1"; "fragment-2"]).1 in
  let pw' := handleStreamLine sample_parse "stop-1" (p, sample_world) in
  let forwarded := structural_envelope "s1" (block_stop_event 1) in
  immediates pw'.2 = [] ++ pending_batches p ++ [forwarded]
  ∧ sent (drain_immediates pw'.2) = [] ++ [] ++ pending_batches p ++ [forwarded]
  ∧ deltaBuffer pw'.1 = []
  ∧ ∀ i acc, JsMap.get i (deltaBuffer p) = Some acc → truthy acc = true →
      emitted_for i (pending_batches p) = [Some acc].
Proof.
  apply (structural_event_preflush sample_parse "stop-1" (block_stop_event 1)
           (foldl (λ pw line, handleStreamLine sample_parse line pw)
              (ClaudeProcess.new sample_env "s1", sample_world)
              ["fragment-1"; "fragment-2"]).1 sample_world).
  - reflexivity.
  - split.
    + vm_compute. apply NoDup_singleton.
    + right. vm_compute. eauto.
  - reflexivity.
Defined.

Example preflush_order :
  emitted_for 1
    (immediates
       (handleStreamLine sample_parse "stop-1"
          (foldl (λ pw line, handleStreamLine sample_parse line pw)
             (ClaudeProcess.new sample_env "s1", sample_world)
             ["fragment-1"; "fragment-2"])).2)
  = [Some "{todos:[]}"; None].
Proof. reflexivity. Qed.

End DeltaBatcherFacts.

Module RegistryFacts.
Import Js Protocol ClaudeProcess.
Import DeltaBatcherFacts.

(** What sending events to the renderer leaves alone: the subprocess
    binding, the identity of the object and the operating system's side. *)
Definition only_events (pw pw' : ClaudeProcess * World) : Prop :=
  process pw'.1 = process pw.1
  ∧ sessionId pw'.1 = sessionId pw.1
  ∧ claudePath pw'.1 = claudePath pw.1
  ∧ children pw'.2 = children pw.2
  ∧ sent pw'.2 = sent pw.2
  ∧ windowDestroyed pw'.2 = windowDestroyed pw.2.

Lemma only_events_refl pw : only_events pw pw.
Proof. by repeat split. Qed.

Lemma only_events_trans pw1 pw2 pw3 :
  only_events pw1 pw2 → only_events pw2 pw3 → only_events pw1 pw3.
Proof.
  intros (?&?&?&?&?&?) (?&?&?&?&?&?). repeat split; congruence.
Qed.

Lemma sendToRenderer_only_events data pw : only_events pw (sendToRenderer data pw).
Proof.
  destruct pw as [p w]. unfold sendToRenderer.
  destruct (windowDestroyed w) eqn:Hw; [apply only_events_refl|].
  by repeat split.
Qed.

Lemma flushDeltaBuffer_only_events pw : only_events pw (flushDeltaBuffer pw).
Proof.
  unfold flushDeltaBuffer.
  destruct (JsMap.size (deltaBuffer pw.1) =? 0); [apply only_events_refl|].
  assert (∀ entries pw0, only_events pw0 (foldl flush_entry pw0 entries)) as Hfold.
  { induction entries as [|[i acc] entries IH]; intros pw0; [apply only_events_refl|].
    cbn [foldl]. eapply only_events_trans; [|apply IH].
    unfold flush_entry. destruct (lastDeltaEvent pw0.1); [|apply only_events_refl].
    destruct (truthy acc); [|apply only_events_refl].
    apply sendToRenderer_only_events. }
  specialize (Hfold (deltaBuffer pw.1) pw).
  destruct (foldl flush_entry pw (deltaBuffer pw.1)) as [p' w'].
  destruct Hfold as (?&?&?&?&?&?). by repeat split.
Qed.

Lemma stopDeltaFlushTimer_only_events pw : only_events pw (stopDeltaFlushTimer pw).
Proof.
  destruct pw as [p w]. unfold stopDeltaFlushTimer.
  eapply only_events_trans; [|apply flushDeltaBuffer_only_events].
  destruct (deltaFlushTimer p); by repeat split.
Qed.

(** [stop]: the object is unbound, and the process it was bound to has
    been sent SIGTERM. *)
Lemma stop_effect (p : ClaudeProcess) (w : World) :
  let pw' := ClaudeProcess.stop (p, w) in
  process pw'.1 = None
  ∧ sessionId pw'.1 = sessionId p
  ∧ claudePath pw'.1 = claudePath p
  ∧ sent pw'.2 = sent w
  ∧ children pw'.2 =
      match process p with
      | Some pid =>
        alter (λ c, set_c_signals (c_signals c ++ ["SIGTERM"]) c) pid (children w)
      | None => children w
      end.
Proof.
  unfold ClaudeProcess.stop.
  pose proof (stopDeltaFlushTimer_only_events (stopHeartbeat p, w)) as Hev.
  destruct (stopDeltaFlushTimer (stopHeartbeat p, w)) as [p1 w1].
  destruct Hev as (Hproc & Hsid & Hpath & Hch & Hsent & _). simpl in *.
  assert (process p1 = process p ∧ sessionId p1 = sessionId p
          ∧ claudePath p1 = claudePath p) as (Hp & Hs & Hc).
  { unfold stopHeartbeat in *. by destruct (heartbeatInterval p). }
  destruct (stderrRl p1); simpl; rewrite Hp; destruct (process p); simpl;
    rewrite ?Hch; by repeat split.
Qed.

Definition sigterm (c : Child) : Child :=
  set_c_signals (c_signals c ++ ["SIGTERM"]) c.

(** [start]: whatever the object was bound to is signalled; then either the
    CLI is not found and the object stays unbound, or one new process is
    spawned for the session and the object is bound to it. *)
Lemma start_effect (env : Env) (cwd : string) (r : option string)
    (p : ClaudeProcess) (w : World) :
  let ch := match process p with
            | Some pid => alter sigterm pid (children w)
            | None => children w
            end in
  let pw' := ClaudeProcess.start env cwd r (p, w) in
  sessionId pw'.1 = sessionId p
  ∧ sent pw'.2 = sent w
  ∧ ((process pw'.1 = None ∧ children pw'.2 = ch)
     ∨ (∃ child, process pw'.1 = Some (length ch)
          ∧ children pw'.2 = ch ++ [child]
          ∧ c_session child = sessionId p ∧ c_signals child = [])).
Proof.
  unfold ClaudeProcess.start.
  pose proof (stop_effect p w) as (Hproc & Hsid & Hpath & Hsent & Hch).
  destruct (ClaudeProcess.stop (p, w)) as [p1 w1]. cbn [fst snd] in *.
  fold sigterm in Hch. rewrite <- Hch. cbn zeta.
  set (p2 := if truthy (str_or (claudePath p1) "") then p1
             else set_claudePath (env_findClaudeCli env) p1).
  assert (sessionId p2 = sessionId p ∧ process p2 = None) as [Hsid2 Hproc2].
  { unfold p2. by destruct (truthy (str_or (claudePath p1) "")). }
  destruct (negb (truthy (str_or (claudePath p2) ""))).
  - pose proof (sendToRenderer_only_events
      (error_envelope ""
         "Claude CLI not found. Please install it with: npm install -g @anthropic-ai/claude-code")
      (p2, w1)) as (H1 & H2 & _ & H4 & H5 & _).
    cbn [fst snd] in *. repeat split; [congruence..|]. left. split; congruence.
  - match goal with
    | |- context [sendToRenderer ?d ?pw] =>
      pose proof (sendToRenderer_only_events d pw) as (H1 & H2 & _ & H4 & H5 & _);
      destruct (sendToRenderer d pw) as [p3 w3]
    end.
    cbn [fst snd] in *. simpl in H1, H2, H4, H5.
    unfold startHeartbeat, stopHeartbeat.
    repeat split.
    + destruct (heartbeatInterval p3); simpl; congruence.
    + congruence.
    + right. eexists. split; [|split; [exact H4|split; [|done]]].
      * destruct (heartbeatInterval p3); simpl; congruence.
      * simpl. congruence.
Qed.

Import ClaudeProcessManager.

(** The registry's [start], in terms of the object found or created. *)
Lemma manager_start_spec (env : Env) (sid cwd : string) (r : option string)
    (processes : gmap string ClaudeProcess) (w : World) :
  let base := default (ClaudeProcess.new env sid) (processes !! sid) in
  let ch := match process base with
            | Some pid => alter sigterm pid (children w)
            | None => children w
            end in
  let mw' := ClaudeProcessManager.start env sid cwd r (processes, w) in
  ∃ p', mw'.1 = <[sid := p']> processes
    ∧ sessionId p' = sessionId base
    ∧ sent mw'.2 = sent w
    ∧ ((process p' = None ∧ children mw'.2 = ch)
       ∨ (∃ child, process p' = Some (length ch)
            ∧ children mw'.2 = ch ++ [child]
            ∧ c_session child = sessionId base ∧ c_signals child = [])).
Proof.
  unfold ClaudeProcessManager.start. cbn zeta.
  set (base := default (ClaudeProcess.new env sid) (processes !! sid)).
  assert (∃ p1 w1,
    match processes !! sid with
    | Some process =>
      if ClaudeProcess.isRunning process
      then ClaudeProcess.stop (process, w) else (process, w)
    | None => (ClaudeProcess.new env sid, w)
    end = (p1, w1)
    ∧ sessionId p1 = sessionId base ∧ sent w1 = sent w
    ∧ match process p1 with
      | Some pid => alter sigterm pid (children w1)
      | None => children w1
      end = match process base with
            | Some pid => alter sigterm pid (children w)
            | None => children w
            end) as (p1 & w1 & -> & Hsid & Hsent & Hch).
  { unfold base. destruct (processes !! sid) as [p0|]; cbn [from_option id].
    - unfold ClaudeProcess.isRunning. destruct (process p0) as [pid|] eqn:Hp0.
      + pose proof (stop_effect p0 w) as (H1 & H2 & _ & H4 & H5).
        destruct (ClaudeProcess.stop (p0, w)) as [p1 w1]. cbn [fst snd] in *.
        exists p1, w1. rewrite H1, H5, Hp0. by repeat split.
      + exists p0, w. by rewrite Hp0.
    - by exists (ClaudeProcess.new env sid), w. }
  pose proof (start_effect env cwd r p1 w1) as (H1 & H2 & H3).
  destruct (ClaudeProcess.start env cwd r (p1, w1)) as [p2 w2]. cbn [fst snd] in *.
  exists p2. rewrite Hch in H3. repeat split; [congruence..|].
  destruct H3 as [?|(child & ? & ? & ? & ?)]; [by left|].
  right. exists child. repeat split; congruence.
Qed.

Lemma sigterm_signalled (c : Child) : c_signals (sigterm c) ≠ [].
Proof. unfold sigterm. simpl. by destruct (c_signals c). Qed.

(** [start] keeps the registry's invariant. *)
Lemma start_keeps_registry_ok (env : Env) (sid cwd : string) (r : option string)
    (mw : gmap string ClaudeProcess * World) :
  registry_ok mw → registry_ok (ClaudeProcessManager.start env sid cwd r mw).
Proof.
  destruct mw as [processes w]. intros (Hown & Hbound & Hlive).
  pose proof (manager_start_spec env sid cwd r processes w) as Hspec.
  cbn zeta in Hspec. cbn [fst snd] in *.
  set (base := default (ClaudeProcess.new env sid) (processes !! sid)) in *.
  assert (sessionId base = sid) as Hbase.
  { unfold base. destruct (processes !! sid) as [p0|] eqn:Hp0; simpl; [|done].
    by apply Hown. }
  (* the children after the signal: the old ones, the bound one signalled *)
  set (ch := match process base with
             | Some pid => alter sigterm pid (children w)
             | None => children w
             end) in *.
  assert (∀ pid c, ch !! pid = Some c → c_signals c = [] →
            children w !! pid = Some c ∧ process base ≠ Some pid) as Hch.
  { intros pid c Hc Hsig. unfold ch in Hc.
    destruct (process base) as [pid0|]; [|done].
    destruct (decide (pid0 = pid)) as [->|Hne].
    - rewrite list_lookup_alter_eq in Hc.
      destruct (children w !! pid) as [c0|]; simplify_eq/=.
      by destruct (sigterm_signalled c0).
    - rewrite list_lookup_alter_ne in Hc by done. split; [done|congruence]. }
  assert (∀ sid' p pid, sid' ≠ sid → processes !! sid' = Some p →
            process p = Some pid →
            ∃ c, ch !! pid = Some c ∧ c_session c = sid' ∧ c_signals c = [])
    as Hothers.
  { intros sid' p pid Hne Hp Hpid.
    destruct (Hbound sid' p pid Hp Hpid) as (c & Hc & Hcs & Hsig).
    exists c. split; [|done]. unfold ch.
    destruct (process base) as [pid0|] eqn:Hpid0; [|done].
    rewrite list_lookup_alter_ne; [done|]. intros ->.
    assert (processes !! sid = Some base) as Hb.
    { unfold base in *. destruct (processes !! sid); [done|]. done. }
    destruct (Hbound sid base pid Hb Hpid0) as (c' & Hc' & Hcs' & _).
    congruence. }
  assert (length ch = length (children w)) as Hlen.
  { unfold ch. destruct (process base); [apply length_alter|done]. }
  destruct (ClaudeProcessManager.start env sid cwd r (processes, w)) as [processes' w'].
  cbn [fst snd] in *. destruct Hspec as (p' & -> & Hsid' & _ & Hcases).
  unfold registry_ok. cbn [fst snd]. split; [|split].
  - intros sid' p. destruct (decide (sid = sid')) as [<-|Hne].
    + rewrite lookup_insert_eq. intros [= <-]. congruence.
    + rewrite lookup_insert_ne by done. apply Hown.
  - intros sid' p pid. destruct (decide (sid = sid')) as [<-|Hne].
    + rewrite lookup_insert_eq. intros [= <-] Hpid.
      destruct Hcases as [[Hnone _]|(child & Hsome & -> & Hcs & Hsig)]; [congruence|].
      exists child. rewrite Hsome in Hpid. injection Hpid as <-.
      split; [|split; [congruence|done]].
      by rewrite lookup_app_r, Nat.sub_diag.
    + rewrite lookup_insert_ne by done. intros Hp Hpid.
      destruct (Hothers sid' p pid (not_eq_sym Hne) Hp Hpid) as (c & Hc & ? & ?).
      exists c. split; [|done].
      destruct Hcases as [[_ ->]|(child & _ & -> & _ & _)]; [done|].
      by apply lookup_app_l_Some.
  - intros pid c Hc Hsig.
    assert (ch !! pid = Some c ∨
            (pid = length ch ∧ c_session c = sid ∧ process p' = Some pid)) as [Hold|Hnew].
    { destruct Hcases as [[_ Heq]|(child & Hsome & Heq & Hcs & _)];
        rewrite Heq in Hc; [by left|].
      apply lookup_app_Some in Hc as [?|[Hge Hc]]; [by left|]. right.
      apply list_lookup_singleton_Some in Hc as [Hz <-].
      split; [lia|]. split; [congruence|]. rewrite Hsome. f_equal. lia. }
    + destruct (Hch pid c Hold Hsig) as [Hc0 Hnot].
      destruct (Hlive pid c Hc0 Hsig) as (p & Hp & Hpid).
      exists p. split; [|done].
      rewrite lookup_insert_ne; [done|]. intros Heq. rewrite <- Heq in Hp.
      apply Hnot. unfold base. by rewrite Hp.
    + destruct Hnew as (-> & -> & Hp'). exists p'.
      by rewrite lookup_insert_eq.
Qed.

Lemma registry_ok_empty (w : World) : children w = [] → registry_ok (∅, w).
Proof.
  intros Hw. repeat split; cbn [fst snd].
  - intros sid p. by rewrite lookup_empty.
  - intros sid p pid. by rewrite lookup_empty.
  - intros pid c. by rewrite Hw, lookup_nil.
Qed.

(** Under the invariant, the live subprocesses of a session are exactly the
    one its object is bound to. *)
Lemma live_children_bound (mw : gmap string ClaudeProcess * World)
    (sid : string) (p : ClaudeProcess) (pid : nat) :
  registry_ok mw → mw.1 !! sid = Some p →
  pid ∈ live_children sid mw.2 ↔ process p = Some pid.
Proof.
  intros (Hown & Hbound & Hlive) Hp. unfold live_children.
  rewrite list_elem_of_In, List.filter_In, List.in_seq. split.
  - intros [_ Hf]. destruct (children mw.2 !! pid) as [c|] eqn:Hc; [|done].
    apply andb_true_iff in Hf as [Hs%bool_decide_eq_true Hsig%bool_decide_eq_true].
    destruct (Hlive pid c Hc Hsig) as (p0 & Hp0 & Hpid). congruence.
  - intros Hpid. destruct (Hbound sid p pid Hp Hpid) as (c & Hc & Hs & Hsig).
    split; [apply lookup_lt_Some in Hc; lia|].
    rewrite Hc. apply andb_true_iff. by split; apply bool_decide_eq_true.
Qed.

Lemma live_children_NoDup (sid : string) (w : World) : NoDup (live_children sid w).
Proof.
  unfold live_children. apply NoDup_ListNoDup, List.NoDup_filter, List.seq_NoDup.
Qed.

Lemma at_most_one (l : list nat) (bound : option nat) :
  NoDup l → (∀ x, x ∈ l ↔ bound = Some x) → length l ≤ 1.
Proof.
  intros Hnd Hl. destruct l as [|x [|y l]]; simpl; [lia..|]. exfalso.
  assert (bound = Some x) as Hx by (apply Hl; apply elem_of_cons; by left).
  assert (bound = Some y) as Hy.
  { apply Hl. apply elem_of_cons. right. apply elem_of_cons. by left. }
  apply NoDup_cons in Hnd as [Hnot _]. apply Hnot.
  apply elem_of_cons. left. congruence.
Qed.

Example start_twice_children :
  let mw2 :=
    ClaudeProcessManager.start sample_env "s1" "/home/user/b" None
      (ClaudeProcessManager.start sample_env "s1" "/home/user/a" None
         (∅, sample_world)) in
  c_signals <$> children mw2.2 = [["SIGTERM"]; []]
  ∧ live_children "s1" mw2.2 = [1]
  ∧ (mw2.1 !! "s1") ≫= process = Some 1.
Proof. vm_compute. done. Qed.

(** C8. [send] for a session id that has no registered process, or whose
    process is not running, sends one error event tagged with that session
    id whose message says that no process is running, leaves every
    subprocess as it was (nothing is written to any stdin), changes nothing
    in the registry, and returns normally: the model of [send] has no
    exceptional outcome, since on this path it only looks the id up, reads
    [process] and sends on a window it has checked. The same holds for the
    object's own [send] when it is unbound. *)
Theorem send_not_running (processes : gmap string ClaudeProcess) (w : World)
    (sid message : string) :
  windowDestroyed w = false →
  ClaudeProcessManager.isRunning sid processes = false →
  let mw' := ClaudeProcessManager.send sid message (processes, w) in
  (∃ error,
     sent mw'.2 = sent w ++ [error_envelope sid error]
     ∧ (error = "No Claude process running for this session. Please restart."
        ∨ error = "Claude process not running. Please restart."))
  ∧ children mw'.2 = children w
  ∧ immediates mw'.2 = immediates w
  ∧ mw'.1 = processes
  ∧ ∀ p, process p = None →
      let pw' := ClaudeProcess.send message (p, w) in
      immediates pw'.2 =
        immediates w
        ++ [error_envelope (sessionId p) "Claude process not running. Please restart."]
      ∧ children pw'.2 = children w
      ∧ sent pw'.2 = sent w.
Proof.
  intros Hw Hrun. unfold ClaudeProcessManager.send, ClaudeProcessManager.isRunning in *.
  cbn zeta. split; [|split; [|split; [|split]]].
  - destruct (processes !! sid) as [p|]; [rewrite Hrun|]; unfold sendError;
      rewrite Hw; simpl; eauto.
  - destruct (processes !! sid) as [p|]; [rewrite Hrun|]; unfold sendError;
      by rewrite Hw.
  - destruct (processes !! sid) as [p|]; [rewrite Hrun|]; unfold sendError;
      by rewrite Hw.
  - by destruct (processes !! sid) as [p|]; [rewrite Hrun|].
  - intros p Hp. unfold ClaudeProcess.send, sendToRenderer. by rewrite Hp, Hw.
Qed.

Lemma send_not_running_witness :
  let mw' := ClaudeProcessManager.send "nobody" "hello" (∅, sample_world) in
  (∃ error,
     sent mw'.2 = [] ++ [error_envelope "nobody" error]
     ∧ (error = "No Claude process running for this session. Please restart."
        ∨ error = "Claude process not running. Please restart."))
  ∧ children mw'.2 = []
  ∧ immediates mw'.2 = []
  ∧ mw'.1 = ∅
  ∧ ∀ p, process p = None →
      let pw' := ClaudeProcess.send "hello" (p, sample_world) in
      immediates pw'.2 =
        []
        ++ [error_envelope (sessionId p) "Claude process not running. Please restart."]
      ∧ children pw'.2 = []
      ∧ sent pw'.2 = [].
Proof.
  apply (send_not_running ∅ sample_world "nobody" "hello").
  - reflexivity.
  - reflexivity.
Defined.

(** A process that was started and then stopped is registered but not
    running: [send] answers with the second message. *)
Example send_after_stop :
  let mw :=
    ClaudeProcessManager.stop "s1"
      (ClaudeProcessManager.start sample_env "s1" "/home/user/a" None
         (∅, sample_world)) in
  let mw' := ClaudeProcessManager.send "s1" "hello" mw in
  sent mw'.2 = [error_envelope "s1" "Claude process not running. Please restart."]
  ∧ c_stdin <$> children mw'.2 = [[]].
Proof. vm_compute. done. Qed.

End RegistryFacts.

Module PersistenceFacts.
Import IpcHandlers.

Lemma findIndex_Some {A} (f : A → bool) (l : list A) (i : nat) :
  findIndex f l = Some i → ∃ x, l !! i = Some x ∧ f x = true.
Proof.
  revert i. induction l as [|y l IH]; intros i; simpl; [done|].
  destruct (f y) eqn:Hy.
  - intros [= <-]. by exists y.
  - destruct (findIndex f l) as [j|]; simpl; [|done].
    intros [= <-]. by apply IH.
Qed.

Lemma findIndex_None {A} (f : A → bool) (l : list A) :
  findIndex f l = None → Forall (λ x, f x = false) l.
Proof.
  induction l as [|y l IH]; simpl; [by constructor|].
  destruct (f y) eqn:Hy; [done|].
  destruct (findIndex f l); simpl; [done|]. intros _. constructor; auto.
Qed.

Lemma filter_none {A} (f : A → bool) (l : list A) :
  Forall (λ x, f x = false) l → List.filter f l = [].
Proof. induction 1 as [|x l Hx _ IH]; simpl; [done|]. by rewrite Hx. Qed.

(** With distinct ids, the entries that carry the id of the entry at [i]
    are that entry alone. *)
Lemma filter_by_id (l : list StoredSession) (i : nat) (s : StoredSession) :
  NoDup (id <$> l) → l !! i = Some s →
  List.filter (λ x, bool_decide (id x = id s)) l = [s].
Proof.
  revert i. induction l as [|y l IH]; intros i; [done|].
  rewrite fmap_cons. intros [Hnotin Hnd]%NoDup_cons. destruct i as [|i]; simpl.
  - intros [= ->]. rewrite bool_decide_eq_true_2 by done. f_equal.
    apply filter_none, Forall_forall. intros x Hx.
    apply bool_decide_eq_false_2. intros Heq. apply Hnotin.
    rewrite <- Heq. by apply list_elem_of_fmap_2.
  - intros Hs. rewrite bool_decide_eq_false_2; [by eapply IH|].
    intros Heq. apply Hnotin. rewrite Heq.
    apply list_elem_of_fmap_2. by eapply list_elem_of_lookup_2.
Qed.

(** The list that [sessions:save] returns, for a stored list with distinct
    ids and at most 50 entries. *)
Lemma save_result (session : StoredSession) (stored : list StoredSession) :
  NoDup (id <$> stored) → length stored ≤ 50 →
  let result :=
    take 50
      match findIndex (λ s, bool_decide (id s = id session)) stored with
      | Some i => <[i := session]> stored
      | None => session :: stored
      end in
  length result ≤ 50
  ∧ NoDup (id <$> result)
  ∧ List.filter (λ s, bool_decide (id s = id session)) result = [session]
  ∧ match findIndex (λ s, bool_decide (id s = id session)) stored with
    | Some i => result = <[i := session]> stored
    | None => result = session :: take 49 stored
    end.
Proof.
  intros Hnd Hlen result. unfold result.
  destruct (findIndex _ stored) as [i|] eqn:Hfind.
  - apply findIndex_Some in Hfind as (x & Hx & Hid%bool_decide_eq_true).
    rewrite take_ge by (rewrite length_insert; lia).
    assert (id <$> <[i:=session]> stored = id <$> stored) as Hids.
    { rewrite list_fmap_insert. apply list_insert_id.
      by rewrite list_lookup_fmap, Hx, <- Hid. }
    split; [rewrite length_insert; lia|]. split; [by rewrite Hids|].
    split; [|done]. apply (filter_by_id _ i); [by rewrite Hids|].
    apply list_lookup_insert_eq. by eapply lookup_lt_Some.
  - apply findIndex_None in Hfind.
    change (take 50 (session :: stored)) with (session :: take 49 stored).
    assert (Forall (λ x, bool_decide (id x = id session) = false) (take 49 stored))
      as Htake by by apply Forall_take.
    split; [simpl; rewrite length_take; lia|]. split; [|split; [|done]].
    + rewrite fmap_cons. apply NoDup_cons. split.
      * intros (y & Hy & Hin)%list_elem_of_fmap.
        rewrite Forall_forall in Htake. apply Htake in Hin.
        apply bool_decide_eq_false in Hin. congruence.
      * eapply sublist_NoDup; [exact Hnd|]. apply fmap_sublist, sublist_take.
    + simpl. rewrite bool_decide_eq_true_2 by done. f_equal.
      by apply filter_none.
Qed.

(** Every state of sessions.json that the application brings about holds
    at most 50 entries with distinct ids. *)
Lemma reachable_ok (d : Disk) :
  reachable d → NoDup (id <$> loadSessions d) ∧ length (loadSessions d) ≤ 50.
Proof.
  induction 1 as [w|session d _ [Hnd Hlen]|sessionId d _ [Hnd Hlen]|w d _ IH].
  - split; [apply NoDup_nil_2|simpl; lia].
  - unfold sessions_save, saveSessions. simpl.
    destruct (writable d); [|done]. unfold loadSessions at 1 3. simpl.
    by destruct (save_result session (loadSessions d) Hnd Hlen) as (? & ? & _).
  - unfold sessions_delete, saveSessions. simpl.
    destruct (writable d); [|done]. unfold loadSessions at 1 3. simpl. split.
    + eapply sublist_NoDup; [exact Hnd|]. apply fmap_sublist, sublist_filter.
    + etrans; [apply length_filter|done].
  - done.
Qed.

(** C9, amended. For every session record passed to [sessions:save], in
    every state of sessions.json that the application itself brings about:
    the returned list holds at most 50 entries, with distinct ids; exactly
    one entry carries the saved session's id, and it is the saved record;
    when the id was stored before, the record replaces the previous entry in
    its place and every other entry is preserved; when the id is new, the
    record stands at the front, followed by the stored entries in their
    order, of which only the first 49 are kept, so that the last entry of a
    full list is dropped. *)
Theorem sessions_save_upsert (session : StoredSession) (d : Disk) :
  reachable d →
  let stored := loadSessions d in
  let result := (sessions_save session d).1 in
  length result ≤ 50
  ∧ NoDup (id <$> result)
  ∧ List.filter (λ s, bool_decide (id s = id session)) result = [session]
  ∧ match findIndex (λ s, bool_decide (id s = id session)) stored with
    | Some i => result = <[i := session]> stored
    | None => result = session :: take 49 stored
    end.
Proof.
  intros [Hnd Hlen]%reachable_ok. by apply save_result.
Qed.

Lemma full_disk_reachable : reachable full_disk.
Proof.
  unfold full_disk. generalize (seq 0 50). intros l.
  assert (reachable fresh_disk) as H by constructor.
  revert H. generalize fresh_disk.
  induction l as [|n l IH]; intros d Hd; [done|].
  cbn [foldl]. apply IH. by apply reachable_save.
Qed.

Lemma sessions_save_upsert_witness :
  let stored := loadSessions full_disk in
  let result := (sessions_save (sample_session 7) full_disk).1 in
  length result ≤ 50
  ∧ NoDup (id <$> result)
  ∧ List.filter (λ s, bool_decide (id s = id (sample_session 7))) result
    = [sample_session 7]
  ∧ match findIndex (λ s, bool_decide (id s = id (sample_session 7))) stored with
    | Some i => result = <[i := sample_session 7]> stored
    | None => result = sample_session 7 :: take 49 stored
    end.
Proof.
  apply (sessions_save_upsert (sample_session 7) full_disk).
  apply full_disk_reachable.
Defined.

(** C9 as stated fails on a full list: after the sessions 0 to 49 were
    saved, the list holds 50 entries, session 0 the last of them; saving
    the new session 50 returns 50 entries and session 0 is not among
    them. *)
Lemma sessions_save_evicts_oldest :
  let stored := loadSessions full_disk in
  let result := (sessions_save (sample_session 50) full_disk).1 in
  length stored = 50
  ∧ last stored = Some (sample_session 0)
  ∧ id (sample_session 0) ≠ id (sample_session 50)
  ∧ length result = 50
  ∧ List.filter (λ s, bool_decide (id s = id (sample_session 0))) result = [].
Proof. vm_compute. done. Qed.

(** A session that is saved again keeps its place: the list is ordered by
    first save, not by last update. *)
Example sessions_save_in_place :
  id <$> take 3 (sessions_save (sample_session 48) full_disk).1
  = id <$> [sample_session 49; sample_session 48; sample_session 47].
Proof. vm_compute. done. Qed.

End PersistenceFacts.

Module ReducerFacts.
Import Js Protocol App.

(** Record updates written out. *)
Ltac unfold_state_setters :=
  unfold set_messages, set_isStreaming, set_isConnected, set_sessionInfo,
    set_claudeSessionId, set_error, set_thinkingStatus, set_todos,
    set_streamStartTime, set_userInfo, set_activeSessionIds,
    set_currentMessageIdRef, set_currentBlockIndexRef, set_messagesPerSession,
    set_sessionInfoPerSession, set_todosPerSession, set_streamingPerSession,
    set_thinkingStatusPerSession, set_currentMessageIdPerSession,
    set_currentBlockIndexPerSession, set_claudeSessionIdPerSession,
    set_streamStartTimePerSession, set_toolJsonAccumulator,
    set_toolJsonFlushTimer, set_lastFlushedLength, set_toolNameByBlock,
    set_quantumRenderer, set_idCounter in *.

(** Naming the successive states of a handler, and reading a field of a
    state through the record updates that built it. *)
Ltac peel_let E :=
  lazymatch type of E with
  | ?x = (let s := ?a in @?b s) =>
    let s1 := fresh "s" in
    let Hs := fresh "Hs" in
    pose (s1 := a); change (x = b s1) in E; cbv beta in E;
    assert (Hs : s1 = a) by reflexivity; clearbody s1
  end.

Ltac state_proj :=
  cbn [messages isStreaming isConnected sessionInfo currentSessionId
       claudeSessionId error thinkingStatus todos streamStartTime userInfo
       activeSessionIds currentMessageIdRef currentBlockIndexRef
       messagesPerSession sessionInfoPerSession todosPerSession
       streamingPerSession thinkingStatusPerSession
       currentMessageIdPerSession currentBlockIndexPerSession
       claudeSessionIdPerSession streamStartTimePerSession
       toolJsonAccumulator toolJsonFlushTimer lastFlushedLength
       toolNameByBlock quantumRenderer idCounter
       set_messages set_isStreaming set_isConnected set_sessionInfo
       set_claudeSessionId set_error set_thinkingStatus set_todos
       set_streamStartTime set_userInfo set_activeSessionIds
       set_currentMessageIdRef set_currentBlockIndexRef set_messagesPerSession
       set_sessionInfoPerSession set_todosPerSession set_streamingPerSession
       set_thinkingStatusPerSession set_currentMessageIdPerSession
       set_currentBlockIndexPerSession set_claudeSessionIdPerSession
       set_streamStartTimePerSession set_toolJsonAccumulator
       set_toolJsonFlushTimer set_lastFlushedLength set_toolNameByBlock
       set_quantumRenderer set_idCounter].

Ltac chase :=
  repeat match goal with
         | H : ?s = _ |- _ =>
           is_var s;
           lazymatch type of s with State => subst s; state_proj end
         end.

Section Facts.
Context (generateId_at : nat → string).
Context (JSON_parse : string → option json).
Context (stringify_input : option json → string).
Context (stringify_block : BlockInit → string).

Local Abbreviation handle :=
  (handleStreamEvent generateId_at JSON_parse stringify_input stringify_block).
Local Abbreviation step :=
  (App.step generateId_at JSON_parse stringify_input stringify_block).
Local Abbreviation run :=
  (App.run generateId_at JSON_parse stringify_input stringify_block).

(** An envelope that reaches the [switch]. *)
Lemma dispatched_inv (event : Envelope) (sid : string) (data : Payload) :
  dispatched event = Some (sid, data) →
  String.eqb (e_type event) "status" = false
  ∧ String.eqb (e_type event) "error" = false
  ∧ String.eqb (e_type event) "heartbeat" = false
  ∧ reducer_data event = Some data
  ∧ e_sessionId event = sid ∧ truthy sid = true.
Proof.
  unfold dispatched.
  destruct (String.eqb (e_type event) "status"); [done|].
  destruct (String.eqb (e_type event) "error"); [done|].
  destruct (String.eqb (e_type event) "heartbeat"); [done|]. simpl.
  destruct (reducer_data event) as [d|]; [|done].
  destruct (truthy (e_sessionId event)) eqn:Hsid; [|done].
  intros [= <- <-]. by repeat split.
Qed.

Lemma handle_result (now : Z) (event : Envelope) (sid : string) (data : Payload)
    (st : State) :
  dispatched event = Some (sid, data) → p_type data = Some "result" →
  handle now event st = case_result sid data st.
Proof.
  intros (H1 & H2 & H3 & H4 & H5 & H6)%dispatched_inv Htype.
  unfold handleStreamEvent. rewrite H1, H2, H3, H4, H5, H6, Htype. done.
Qed.

(** Without an in-flight message, a renderer's callback changes nothing. *)
Lemma onRender_idle captured sid blockIndex text st :
  current_msgId sid st = None → onRender captured sid blockIndex text st = st.
Proof. unfold onRender. by intros ->. Qed.

Lemma flush_all_idle sid renderers st :
  current_msgId sid st = None → foldl (renderer_flush sid) st renderers = st.
Proof.
  intros Hidle. induction renderers as [|[i r] renderers IH]; [done|].
  cbn [foldl]. unfold renderer_flush at 2.
  destruct (truthy (r_buffer r)); [rewrite onRender_idle by done|]; apply IH.
Qed.

Lemma cleanup_idle sid st :
  current_msgId sid st = None →
  cleanupQuantumRenderers sid st =
    match quantumRenderer st !! sid with
    | Some _ => set_quantumRenderer (<[sid := []]> (quantumRenderer st)) st
    | None => st
    end.
Proof.
  intros Hidle. unfold cleanupQuantumRenderers.
  destruct (quantumRenderer st !! sid); [|done]. by rewrite flush_all_idle.
Qed.

(** State-level conditionals as one record update each. *)
Lemma stopFlushTimer_nf sid st :
  stopFlushTimer sid st =
    set_toolJsonFlushTimer
      (match toolJsonFlushTimer st !! sid with
       | Some (Some _) => <[sid := None]> (toolJsonFlushTimer st)
       | _ => toolJsonFlushTimer st
       end) st.
Proof.
  unfold stopFlushTimer.
  destruct (toolJsonFlushTimer st !! sid) as [[?|]|]; by destruct st.
Qed.

Lemma clear_accumulator_nf sid st :
  match toolJsonAccumulator st !! sid with
  | Some _ => set_toolJsonAccumulator (<[sid := []]> (toolJsonAccumulator st)) st
  | None => st
  end =
  set_toolJsonAccumulator
    (match toolJsonAccumulator st !! sid with
     | Some _ => <[sid := []]> (toolJsonAccumulator st)
     | None => toolJsonAccumulator st
     end) st.
Proof. destruct (toolJsonAccumulator st !! sid); by destruct st. Qed.

Lemma clear_lastFlushed_nf sid st :
  match lastFlushedLength st !! sid with
  | Some _ => set_lastFlushedLength (<[sid := []]> (lastFlushedLength st)) st
  | None => st
  end =
  set_lastFlushedLength
    (match lastFlushedLength st !! sid with
     | Some _ => <[sid := []]> (lastFlushedLength st)
     | None => lastFlushedLength st
     end) st.
Proof. destruct (lastFlushedLength st !! sid); by destruct st. Qed.

Lemma clear_toolNames_nf sid st :
  match toolNameByBlock st !! sid with
  | Some _ => set_toolNameByBlock (<[sid := []]> (toolNameByBlock st)) st
  | None => st
  end =
  set_toolNameByBlock
    (match toolNameByBlock st !! sid with
     | Some _ => <[sid := []]> (toolNameByBlock st)
     | None => toolNameByBlock st
     end) st.
Proof. destruct (toolNameByBlock st !! sid); by destruct st. Qed.

Lemma clear_renderers_nf sid st :
  match quantumRenderer st !! sid with
  | Some _ => set_quantumRenderer (<[sid := []]> (quantumRenderer st)) st
  | None => st
  end =
  set_quantumRenderer
    (match quantumRenderer st !! sid with
     | Some _ => <[sid := []]> (quantumRenderer st)
     | None => quantumRenderer st
     end) st.
Proof. destruct (quantumRenderer st !! sid); by destruct st. Qed.

(** A session's map that was cleared if it was there reads as empty. *)
Lemma cleared_lookup {V} (sid : string) (m : gmap string (list V)) :
  default []
    (match m !! sid with Some _ => <[sid := []]> m | None => m end !! sid) = [].
Proof. destruct (m !! sid) eqn:H; by rewrite ?lookup_insert_eq, ?H. Qed.

(** C10. A result event whose payload has no usage object leaves the
    counters of every session as they were (the component's [sessionInfo]
    and the per-session table alike, so also the session's contextUsed,
    outputTokens and totalCost), whatever [total_cost_usd] it carries;
    it still resets the session's streaming flag, thinking status, stream
    start time, in-flight message id and block cursor, in the refs and,
    for the focused session, in the component's state, and it tears down
    the session's renderers, fragment accumulator, flushed lengths, tool
    names and flush timer. *)
Theorem result_without_usage (now : Z) (event : Envelope) (sid : string)
    (data : Payload) (st : State) :
  dispatched event = Some (sid, data) →
  p_type data = Some "result" →
  p_usage data = None →
  let st' := handle now event st in
  (sessionInfo st' = sessionInfo st
   ∧ sessionInfoPerSession st' = sessionInfoPerSession st
   ∧ contextUsed (session_info sid st') = contextUsed (session_info sid st)
   ∧ outputTokens (session_info sid st') = outputTokens (session_info sid st)
   ∧ totalCost (session_info sid st') = totalCost (session_info sid st))
  ∧ (streamingPerSession st' !! sid = Some false
     ∧ thinkingStatusPerSession st' !! sid = Some Idle
     ∧ streamStartTimePerSession st' !! sid = Some None
     ∧ currentMessageIdPerSession st' !! sid = Some None
     ∧ currentBlockIndexPerSession st' !! sid = Some 0%Z)
  ∧ (Some sid = currentSessionId st →
       isStreaming st' = false ∧ thinkingStatus st' = Idle
       ∧ streamStartTime st' = None
       ∧ currentMessageIdRef st' = None ∧ currentBlockIndexRef st' = 0%Z)
  ∧ (session_map sid (quantumRenderer st') = []
     ∧ session_map sid (toolJsonAccumulator st') = []
     ∧ session_map sid (lastFlushedLength st') = []
     ∧ session_map sid (toolNameByBlock st') = []
     ∧ (toolJsonFlushTimer st' !! sid = None
        ∨ toolJsonFlushTimer st' !! sid = Some None)).
Proof.
  intros Hdisp Htype Husage st'.
  assert (E : st' = case_result sid data st)
    by (unfold st'; by apply handle_result).
  clearbody st'. cbv beta delta [case_result] in E.
  do 5 peel_let E.
  assert (Hfocus : isCurrentSession sid s3
                   = bool_decide (Some sid = currentSessionId st))
    by (unfold isCurrentSession; by chase).
  assert (Hidle : currentMessageIdPerSession s3 !! sid = Some None)
    by (chase; apply lookup_insert_eq).
  rewrite Hfocus in E. clear Hfocus.
  destruct (decide (Some sid = currentSessionId st)) as [Hcur|Hcur];
    [rewrite (bool_decide_eq_true_2 _ Hcur) in E
    |rewrite (bool_decide_eq_false_2 _ Hcur) in E];
    cbv iota in E; peel_let E.
  all: rewrite (cleanup_idle sid s4) in E
    by (unfold current_msgId;
        by replace (currentMessageIdPerSession s4 !! sid)
             with (Some (@None string)) by (by subst s4)).
  all: rewrite clear_renderers_nf in E; peel_let E.
  all: rewrite stopFlushTimer_nf in E; peel_let E.
  all: rewrite clear_accumulator_nf in E; peel_let E.
  all: rewrite clear_lastFlushed_nf in E; peel_let E.
  all: rewrite clear_toolNames_nf in E; peel_let E.
  all: rewrite Husage in E; subst st'.
  all: unfold session_info, session_map; clear Hidle; chase.
  all: rewrite !lookup_insert_eq, !cleared_lookup.
  all: repeat split; try done.
  all: destruct (toolJsonFlushTimer st !! sid) as [[?|]|] eqn:Ht;
    rewrite ?lookup_insert_eq, ?Ht; auto.
Qed.

End Facts.

Lemma result_without_usage_witness :
  totalCost
    (session_info "s1"
       (handleStreamEvent (λ _, "id") (λ _, None) (λ _, "") (λ _, "") 0
          (forwarded "s1" (result_record None 0.002))
          (initial_state (Some "s1"))))
  = totalCost (session_info "s1" (initial_state (Some "s1"))).
Proof.
  destruct (result_without_usage (λ _, "id") (λ _, None) (λ _, "") (λ _, "") 0
              (forwarded "s1" (result_record None 0.002)) "s1"
              (result_record None 0.002) (initial_state (Some "s1"))
              eq_refl eq_refl eq_refl) as [(_ & _ & _ & _ & H) _].
  exact H.
Defined.

End ReducerFacts.

Module LifecycleFacts.
Import Js Protocol ClaudeProcess.
Import DeltaBatcherFacts RegistryFacts.

(** Flushing touches the buffer and the event counter only. *)
Lemma sendToRenderer_timers data pw :
  heartbeatInterval (sendToRenderer data pw).1 = heartbeatInterval pw.1
  ∧ deltaFlushTimer (sendToRenderer data pw).1 = deltaFlushTimer pw.1.
Proof. destruct pw as [p w]. unfold sendToRenderer. by destruct (windowDestroyed w). Qed.

Lemma flushDeltaBuffer_timers pw :
  heartbeatInterval (flushDeltaBuffer pw).1 = heartbeatInterval pw.1
  ∧ deltaFlushTimer (flushDeltaBuffer pw).1 = deltaFlushTimer pw.1.
Proof.
  unfold flushDeltaBuffer.
  destruct (JsMap.size (deltaBuffer pw.1) =? 0); [done|].
  assert (∀ entries pw0,
    heartbeatInterval (foldl flush_entry pw0 entries).1 = heartbeatInterval pw0.1
    ∧ deltaFlushTimer (foldl flush_entry pw0 entries).1 = deltaFlushTimer pw0.1)
    as Hfold.
  { induction entries as [|[i acc] entries IH]; intros pw0; [done|].
    cbn [foldl]. destruct (IH (flush_entry pw0 (i, acc))) as [-> ->].
    unfold flush_entry. destruct (lastDeltaEvent pw0.1); [|done].
    destruct (truthy acc); [|done]. apply sendToRenderer_timers. }
  specialize (Hfold (deltaBuffer pw.1) pw).
  by destruct (foldl flush_entry pw (deltaBuffer pw.1)).
Qed.

Lemma stop_stopped (p : ClaudeProcess) (w : World) :
  stopped (ClaudeProcess.stop (p, w)).1.
Proof.
  unfold ClaudeProcess.stop, stopDeltaFlushTimer.
  set (p0 := if deltaFlushTimer (stopHeartbeat p)
             then set_deltaFlushTimer false (stopHeartbeat p) else stopHeartbeat p).
  assert (heartbeatInterval p0 = false ∧ deltaFlushTimer p0 = false) as [Hh Ht].
  { unfold p0, stopHeartbeat.
    destruct (heartbeatInterval p) eqn:Hhb; simpl;
      destruct (deltaFlushTimer p) eqn:Htm; simpl; rewrite ?Hhb, ?Htm; done. }
  destruct (flushDeltaBuffer_timers (p0, w)) as [Hh' Ht'].
  destruct (flushDeltaBuffer (p0, w)) as [p1 w1]. cbn [fst snd] in *.
  rewrite Hh in Hh'. rewrite Ht in Ht'.
  unfold stopped. simpl.
  destruct (stderrRl p1) eqn:Hrl; simpl; destruct (process p1) eqn:Hpr; simpl;
    by rewrite ?Hh', ?Ht'.
Qed.

Lemma stop_of_stopped (p : ClaudeProcess) (w : World) :
  stopped p → ClaudeProcess.stop (p, w) = (p, w).
Proof.
  destruct p. unfold stopped. simpl. by intros (-> & -> & -> & -> & -> & -> & -> & ->).
Qed.

(** X1. [stop] is idempotent: a second call changes neither the object nor
    the world (no second signal, no event, nothing flushed twice). *)
Theorem stop_idempotent (pw : ClaudeProcess * World) :
  ClaudeProcess.stop (ClaudeProcess.stop pw) = ClaudeProcess.stop pw.
Proof.
  destruct pw as [p w]. pose proof (stop_stopped p w) as Hs.
  destruct (ClaudeProcess.stop (p, w)) as [p' w']. by apply stop_of_stopped.
Qed.


(** What the handlers and methods of an object do with the renderer's
    channel: they send nothing themselves, they only queue events, each
    under the object's session id, and none when the window is gone. *)
Definition queues (pw pw' : ClaudeProcess * World) : Prop :=
  sessionId pw'.1 = sessionId pw.1
  ∧ windowDestroyed pw'.2 = windowDestroyed pw.2
  ∧ sent pw'.2 = sent pw.2
  ∧ ∃ new, immediates pw'.2 = immediates pw.2 ++ new
           ∧ Forall (λ e, e_sessionId e = sessionId pw.1) new
           ∧ (windowDestroyed pw.2 = true → new = []).

Lemma queues_refl pw : queues pw pw.
Proof. unfold queues. split_and!; [done..|]. exists []. by rewrite List.app_nil_r. Qed.

Lemma queues_trans pw1 pw2 pw3 : queues pw1 pw2 → queues pw2 pw3 → queues pw1 pw3.
Proof.
  intros (Hs & Hw & Hsent & new & Hq & Ht & Hd)
         (Hs' & Hw' & Hsent' & new' & Hq' & Ht' & Hd').
  unfold queues. split_and!; [congruence..|].
  exists (new ++ new'). split; [|split].
  - by rewrite Hq', Hq, List.app_assoc.
  - apply Forall_app. split; [done|]. by rewrite <- Hs.
  - intros H. rewrite Hd by done. rewrite Hd'; [done|congruence].
Qed.

Lemma sendToRenderer_queues data pw : queues pw (sendToRenderer data pw).
Proof.
  destruct pw as [p w]. unfold sendToRenderer.
  destruct (windowDestroyed w) eqn:Hw; [apply queues_refl|].
  unfold queues. simpl. split_and!; [done..|].
  exists [set_e_sessionId (sessionId p) data]. rewrite Hw.
  split_and!; [done| |done]. by repeat constructor.
Qed.

Lemma same_object_queues (p p' : ClaudeProcess) (w : World) :
  sessionId p' = sessionId p → queues (p, w) (p', w).
Proof.
  intros H. unfold queues. simpl. split_and!; [done..|].
  exists []. by rewrite List.app_nil_r.
Qed.

Lemma flushDeltaBuffer_queues pw : queues pw (flushDeltaBuffer pw).
Proof.
  unfold flushDeltaBuffer.
  destruct (JsMap.size (deltaBuffer pw.1) =? 0); [apply queues_refl|].
  assert (∀ entries pw0, queues pw0 (foldl flush_entry pw0 entries)) as Hfold.
  { induction entries as [|[i acc] entries IH]; intros pw0; [apply queues_refl|].
    cbn [foldl]. eapply queues_trans; [|apply IH].
    unfold flush_entry. destruct (lastDeltaEvent pw0.1); [|apply queues_refl].
    destruct (truthy acc); [|apply queues_refl]. apply sendToRenderer_queues. }
  specialize (Hfold (deltaBuffer pw.1) pw).
  destruct (foldl flush_entry pw (deltaBuffer pw.1)) as [p' w'].
  eapply queues_trans; [exact Hfold|]. by apply same_object_queues.
Qed.

Lemma stopDeltaFlushTimer_queues pw : queues pw (stopDeltaFlushTimer pw).
Proof.
  destruct pw as [p w]. unfold stopDeltaFlushTimer.
  eapply queues_trans; [|apply flushDeltaBuffer_queues].
  apply same_object_queues. by destruct (deltaFlushTimer p).
Qed.

Lemma handleStreamLine_queues JSON_parse line pw :
  queues pw (handleStreamLine JSON_parse line pw).
Proof.
  unfold handleStreamLine.
  destruct (negb (truthy (trim line))); [apply queues_refl|].
  destruct (JSON_parse line) as [event|]; [|apply queues_refl]. cbn zeta.
  destruct (decide _).
  - destruct pw as [p w]. apply same_object_queues.
    unfold ensureDeltaFlushTimer. simpl.
    by destruct (deltaFlushTimer p).
  - eapply queues_trans; [|apply sendToRenderer_queues].
    eapply queues_trans.
    + instantiate (1 := if 0 <? JsMap.size (deltaBuffer pw.1)
                        then flushDeltaBuffer pw else pw).
      destruct (0 <? _); [apply flushDeltaBuffer_queues|apply queues_refl].
    + destruct (decide _); [apply stopDeltaFlushTimer_queues|apply queues_refl].
Qed.

(** The framing loop hands every line to the handler, so whatever each call
    of the handler keeps, the loop keeps. *)
Lemma frame_loop_keeps {St} (R : St → St → Prop) (handler : string → St → St)
    (fuel : nat) (buffer : string) (st : St) :
  (∀ st, R st st) → (∀ st1 st2 st3, R st1 st2 → R st2 st3 → R st1 st3) →
  (∀ line st, R st (handler line st)) →
  R st (LineFramer.frame_loop handler fuel buffer st).2.
Proof.
  intros Hrefl Htrans Hhandler. revert buffer st.
  induction fuel as [|fuel IH]; intros buffer st; simpl; [done|].
  destruct (indexOf LF buffer); [|done].
  destruct (truthy _); [|apply IH].
  eapply Htrans; [apply Hhandler|apply IH].
Qed.

Lemma on_stdout_data_queues JSON_parse chunk pw :
  queues pw (on_stdout_data JSON_parse chunk pw).
Proof.
  unfold on_stdout_data, LineFramer.on_data. cbn [fst snd].
  pose proof (frame_loop_keeps queues (handleStreamLine JSON_parse)
                (String.length (stdoutBuffer pw.1 +:+ chunk))
                (stdoutBuffer pw.1 +:+ chunk) pw
                queues_refl queues_trans (handleStreamLine_queues JSON_parse)) as H.
  destruct (LineFramer.frame_loop _ _ _ pw) as [buffer [p w]]. cbn [snd] in H.
  eapply queues_trans; [exact H|]. by apply same_object_queues.
Qed.

Lemma on_close_queues code pw : queues pw (on_close code pw).
Proof.
  unfold on_close.
  pose proof (sendToRenderer_queues (status_envelope "stopped" code None) pw) as H.
  destruct (sendToRenderer _ pw) as [p w].
  eapply queues_trans; [exact H|]. by apply same_object_queues.
Qed.

Lemma world_only_queues (p : ClaudeProcess) (w w' : World) :
  windowDestroyed w' = windowDestroyed w → sent w' = sent w →
  immediates w' = immediates w → queues (p, w) (p, w').
Proof.
  intros H1 H2 H3. unfold queues. simpl. split_and!; [done..|]. exists [].
  by rewrite H3, List.app_nil_r.
Qed.

Lemma world_only_queues_object (p p' : ClaudeProcess) (w w' : World) :
  sessionId p' = sessionId p →
  windowDestroyed w' = windowDestroyed w → sent w' = sent w →
  immediates w' = immediates w → queues (p, w) (p', w').
Proof.
  intros H0 H1 H2 H3. unfold queues. simpl. split_and!; [done..|]. exists [].
  by rewrite H3, List.app_nil_r.
Qed.

Lemma send_queues message pw : queues pw (ClaudeProcess.send message pw).
Proof.
  destruct pw as [p w]. unfold ClaudeProcess.send.
  destruct (process p) as [pid|]; [|apply sendToRenderer_queues].
  destruct (_ ≫= _); [apply sendToRenderer_queues|].
  by apply world_only_queues.
Qed.

Lemma stop_queues pw : queues pw (ClaudeProcess.stop pw).
Proof.
  destruct pw as [p w]. unfold ClaudeProcess.stop.
  pose proof (stopDeltaFlushTimer_queues (stopHeartbeat p, w)) as H.
  destruct (stopDeltaFlushTimer (stopHeartbeat p, w)) as [p1 w1].
  eapply queues_trans.
  { apply (same_object_queues p (stopHeartbeat p) w).
    unfold stopHeartbeat. by destruct (heartbeatInterval p). }
  eapply queues_trans; [exact H|]. simpl.
  destruct (stderrRl p1); simpl; destruct (process p1); simpl;
    (apply world_only_queues_object; by simpl).
Qed.

Lemma start_queues env cwd r pw : queues pw (ClaudeProcess.start env cwd r pw).
Proof.
  unfold ClaudeProcess.start.
  pose proof (stop_queues pw) as Hstop.
  destruct (ClaudeProcess.stop pw) as [p1 w1].
  eapply queues_trans; [exact Hstop|]. cbn zeta.
  set (p2 := if truthy (str_or (claudePath p1) "") then p1
             else set_claudePath (env_findClaudeCli env) p1).
  assert (queues (p1, w1) (p2, w1)) as H2.
  { apply same_object_queues. unfold p2. by destruct (truthy _). }
  eapply queues_trans; [exact H2|].
  destruct (negb (truthy (str_or (claudePath p2) ""))); [apply sendToRenderer_queues|].
  match goal with
  | |- context [sendToRenderer ?d ?pw0] =>
    pose proof (sendToRenderer_queues d pw0) as H3;
    destruct (sendToRenderer d pw0) as [p3 w3]
  end.
  eapply queues_trans; [|eapply queues_trans; [exact H3|]].
  - apply world_only_queues_object; by simpl.
  - apply same_object_queues. unfold startHeartbeat, stopHeartbeat.
    by destruct (heartbeatInterval p3).
Qed.


Lemma perform_queues JSON_parse pw action :
  match action with
  | HeartbeatTick _ | RunImmediate | WindowDestroyed => True
  | _ => queues pw (perform JSON_parse pw action)
  end.
Proof.
  destruct action; simpl; try done.
  - apply on_stdout_data_queues.
  - unfold on_stderr_line. destruct (_ || _); [apply sendToRenderer_queues|apply queues_refl].
  - apply sendToRenderer_queues.
  - apply on_close_queues.
  - unfold delta_timer_tick.
    destruct (deltaFlushTimer pw.1); [apply flushDeltaBuffer_queues|apply queues_refl].
  - apply send_queues.
  - apply stop_queues.
  - apply start_queues.
Qed.

(** Every envelope in the channel is under the session id [sid]. *)
Definition tagged (sid : string) (pw : ClaudeProcess * World) : Prop :=
  sessionId pw.1 = sid
  ∧ Forall (λ e, e_sessionId e = sid) (sent pw.2)
  ∧ Forall (λ e, e_sessionId e = sid) (immediates pw.2).

Lemma queues_tagged sid pw pw' : queues pw pw' → tagged sid pw → tagged sid pw'.
Proof.
  intros (Hs & _ & Hsent & new & Hq & Hnew & _) (Hsid & H1 & H2).
  unfold tagged. rewrite Hs, Hsent, Hq. split_and!; [done..|].
  apply Forall_app. split; [done|]. by rewrite <- Hsid.
Qed.

Lemma perform_tagged JSON_parse sid pw action :
  tagged sid pw → tagged sid (perform JSON_parse pw action).
Proof.
  intros Ht. pose proof (perform_queues JSON_parse pw action) as Hq.
  destruct action; try (by eapply queues_tagged).
  - destruct pw as [p w], Ht as (Hsid & H1 & H2). simpl in *.
    unfold heartbeat_tick. destruct (_ && _); [|done].
    unfold tagged. simpl. split_and!; [done| |done].
    apply Forall_app. split; [done|]. by repeat constructor.
  - destruct pw as [p w], Ht as (Hsid & H1 & H2). simpl in *.
    unfold run_immediate, tagged. cbn [fst snd].
    destruct (immediates w) as [|e queue] eqn:Hq';
      [rewrite ?Hq'; by split_and!|].
    apply Forall_cons in H2 as [He H2]. cbn zeta.
    destruct (windowDestroyed (set_immediates queue w)); simpl; split_and!; try done.
    apply Forall_app. split; [done|]. by repeat constructor.
  - by destruct pw as [p w], Ht as (Hsid & H1 & H2).
Qed.

(** X2. Every event that an object queues or sends (stream events, batched
    fragments, errors, status changes, heartbeats) carries the session id
    the object was created with, whatever happens to the object. *)
Theorem events_carry_session_id (JSON_parse : string → option Payload)
    (env : Env) (sid : string) (actions : list Action) (destroyed : bool)
    (children : list Child) :
  let pw' := history JSON_parse actions
               (ClaudeProcess.new env sid, quiet_world destroyed children) in
  Forall (λ e, e_sessionId e = sid) (sent pw'.2 ++ immediates pw'.2).
Proof.
  cbn zeta. unfold history.
  assert (tagged sid (ClaudeProcess.new env sid, quiet_world destroyed children))
    as Hinit by (unfold tagged; simpl; by split_and!).
  revert Hinit. generalize (ClaudeProcess.new env sid, quiet_world destroyed children).
  induction actions as [|action actions IH]; intros pw Ht; cbn [foldl].
  - destruct Ht as (_ & H1 & H2). by apply Forall_app.
  - by apply IH, perform_tagged.
Qed.

Lemma perform_destroyed JSON_parse pw action :
  windowDestroyed pw.2 = true →
  windowDestroyed (perform JSON_parse pw action).2 = true
  ∧ sent (perform JSON_parse pw action).2 = sent pw.2
  ∧ immediates (perform JSON_parse pw action).2 `suffix_of` immediates pw.2.
Proof.
  intros Hd. pose proof (perform_queues JSON_parse pw action) as Hq.
  assert (∀ pw', queues pw pw' →
            windowDestroyed pw'.2 = true ∧ sent pw'.2 = sent pw.2
            ∧ immediates pw'.2 `suffix_of` immediates pw.2) as Hquiet.
  { intros pw' (_ & Hw & Hsent & new & Hnew & _ & Hnil).
    rewrite Hw, Hsent, Hnew, (Hnil Hd), List.app_nil_r. by split_and!. }
  destruct action; try (by apply Hquiet).
  - destruct pw as [p w]. simpl in *. unfold heartbeat_tick. rewrite Hd.
    rewrite andb_false_r. by split_and!.
  - destruct pw as [p w]. simpl in *. unfold run_immediate.
    destruct (immediates w) as [|e queue] eqn:Hq';
      [rewrite ?Hq'; by split_and!|].
    simpl. rewrite Hd. simpl. split_and!; [done..|]. by exists [e].
  - by destruct pw as [p w].
Qed.

(** X3. Once the window is destroyed the object sends nothing more: no
    handler, timer or method adds to what was sent or queues a new event;
    events queued earlier are dropped when their turn comes. *)
Theorem nothing_reaches_a_destroyed_window (JSON_parse : string → option Payload)
    (actions : list Action) (p : ClaudeProcess) (w : World) :
  let pw' := history JSON_parse actions (p, set_windowDestroyed true w) in
  sent pw'.2 = sent w
  ∧ immediates pw'.2 `suffix_of` immediates w
  ∧ windowDestroyed pw'.2 = true.
Proof.
  cbn zeta. unfold history.
  change (sent w) with (sent (p, set_windowDestroyed true w).2).
  change (immediates w) with (immediates (p, set_windowDestroyed true w).2).
  assert (windowDestroyed (p, set_windowDestroyed true w).2 = true) as Hd by done.
  revert Hd. generalize (p, set_windowDestroyed true w).
  induction actions as [|action actions IH]; intros pw Hd; cbn [foldl]; [done|].
  destruct (perform_destroyed JSON_parse pw action Hd) as (Hd' & Hsent & Hsuffix).
  destruct (IH _ Hd') as (H1 & H2 & H3).
  split_and!; [congruence| |done]. by etrans.
Qed.


Lemma flushDeltaBuffer_immediates (p : ClaudeProcess) (w : World) :
  immediates (flushDeltaBuffer (p, w)).2 =
    immediates w ++ (if windowDestroyed w then [] else pending_batches p).
Proof.
  destruct (windowDestroyed w) eqn:Hw.
  - destruct (flushDeltaBuffer_queues (p, w)) as (_ & _ & _ & new & -> & _ & Hnil).
    by rewrite (Hnil Hw).
  - by rewrite flushDeltaBuffer_spec.
Qed.

Lemma stop_immediates (p : ClaudeProcess) (w : World) :
  immediates (ClaudeProcess.stop (p, w)).2 =
    immediates w ++ (if windowDestroyed w then [] else pending_batches p).
Proof.
  unfold ClaudeProcess.stop, stopDeltaFlushTimer.
  set (p0 := if deltaFlushTimer (stopHeartbeat p)
             then set_deltaFlushTimer false (stopHeartbeat p) else stopHeartbeat p).
  assert (pending_batches p0 = pending_batches p) as <-.
  { unfold p0, stopHeartbeat, pending_batches.
    by destruct (heartbeatInterval p); simpl; destruct (deltaFlushTimer p). }
  rewrite <- flushDeltaBuffer_immediates.
  destruct (flushDeltaBuffer (p0, w)) as [p1 w1]. simpl.
  by destruct (stderrRl p1); simpl; destruct (process p1).
Qed.

Lemma prefix_refl (s : string) : String.prefix s s = true.
Proof. induction s as [|a s IH]; simpl; [done|]. by destruct (ascii_dec a a). Qed.

Lemma validateCwd_isSafe (env : Env) (cwd : string) :
  isSafe env (validateCwd env cwd) = true.
Proof.
  unfold validateCwd. cbn zeta. fold (isSafe env (env_resolve env cwd)).
  destruct (isSafe env (env_resolve env cwd)) eqn:Hsafe; [done|].
  unfold isSafe, startsWith. simpl. by rewrite prefix_refl.
Qed.

(** [start], case by case: after the previous subprocess is signalled,
    either the CLI is missing and nothing is spawned, or exactly this
    subprocess is spawned. *)
Lemma start_spec (env : Env) (cwd : string) (r : option string)
    (p : ClaudeProcess) (w : World) :
  let ch := match process p with
            | Some pid => alter sigterm pid (children w)
            | None => children w
            end in
  let pw' := ClaudeProcess.start env cwd r (p, w) in
  if truthy (cli_path env p) then
    children pw'.2 =
      ch ++ [ {| c_command := cli_path env p; c_args := spawn_args r;
                 c_cwd := validateCwd env cwd;
                 c_shell := env_isWindows env && endsWithStr (cli_path env p) ".cmd";
                 c_session := sessionId p; c_stdin := []; c_stdin_error := None;
                 c_signals := [] |} ]
    ∧ process pw'.1 = Some (length ch)
    ∧ currentCwd pw'.1 = Some (validateCwd env cwd)
    ∧ heartbeatInterval pw'.1 = true
  else
    children pw'.2 = ch ∧ process pw'.1 = None
    ∧ immediates pw'.2 =
        immediates (ClaudeProcess.stop (p, w)).2
        ++ (if windowDestroyed w then []
            else [set_e_sessionId (sessionId p)
                    (error_envelope ""
                       "Claude CLI not found. Please install it with: npm install -g @anthropic-ai/claude-code")]).
Proof.
  cbn zeta. unfold ClaudeProcess.start, cli_path.
  pose proof (stop_effect p w) as (Hproc & Hsid & Hpath & Hsent & Hch).
  pose proof (stop_queues (p, w)) as (_ & Hwd & _).
  destruct (ClaudeProcess.stop (p, w)) as [p1 w1]. cbn [fst snd] in *.
  fold sigterm in Hch. rewrite <- Hch, <- Hpath. cbn zeta.
  destruct (truthy (str_or (claudePath p1) "")) eqn:Hfound.
  - rewrite Hfound. cbn [negb].
    match goal with
    | |- context [sendToRenderer ?d ?pw0] =>
      pose proof (sendToRenderer_only_events d pw0) as (H1 & H2 & _ & H4 & _);
      pose proof (sendToRenderer_queues d pw0) as (H5 & _);
      assert (currentCwd (sendToRenderer d pw0).1 = currentCwd pw0.1) as H6
        by (unfold sendToRenderer; simpl; by destruct (windowDestroyed w1));
      destruct (sendToRenderer d pw0) as [p3 w3]
    end.
    cbn [fst snd] in *. simpl in H1, H4, H5, H6.
    rewrite H4, <- Hsid. split_and!; [done|..].
    + unfold startHeartbeat, stopHeartbeat. by destruct (heartbeatInterval p3).
    + unfold startHeartbeat, stopHeartbeat. by destruct (heartbeatInterval p3).
    + unfold startHeartbeat, stopHeartbeat. by destruct (heartbeatInterval p3).
  - cbn beta iota delta [claudePath set_claudePath].
    destruct (truthy (str_or (env_findClaudeCli env) "")) eqn:Hnow.
    + cbn [negb].
      match goal with
      | |- context [sendToRenderer ?d ?pw0] =>
        pose proof (sendToRenderer_only_events d pw0) as (H1 & H2 & _ & H4 & _);
        pose proof (sendToRenderer_queues d pw0) as (H5 & _);
        assert (currentCwd (sendToRenderer d pw0).1 = currentCwd pw0.1) as H6
          by (unfold sendToRenderer; simpl; by destruct (windowDestroyed w1));
        destruct (sendToRenderer d pw0) as [p3 w3]
      end.
      cbn [fst snd] in *. simpl in H1, H4, H5, H6.
      rewrite H4, <- Hsid. split_and!; [done|..].
      * unfold startHeartbeat, stopHeartbeat. by destruct (heartbeatInterval p3).
      * unfold startHeartbeat, stopHeartbeat. by destruct (heartbeatInterval p3).
      * unfold startHeartbeat, stopHeartbeat. by destruct (heartbeatInterval p3).
    + cbn [negb]. unfold sendToRenderer. rewrite Hwd.
      destruct (windowDestroyed w); simpl; rewrite ?List.app_nil_r;
        split_and!; try done. by rewrite Hsid.
Qed.


(** X4. [stop] loses no buffered tool input: the batches that the buffer
    stands for are queued for the renderer, unless the window is gone, and
    nothing else is queued; the object is left unbound and empty. *)
Theorem stop_hands_over_the_buffer (p : ClaudeProcess) (w : World) :
  immediates (ClaudeProcess.stop (p, w)).2 =
    immediates w ++ (if windowDestroyed w then [] else pending_batches p)
  ∧ stopped (ClaudeProcess.stop (p, w)).1.
Proof. split; [apply stop_immediates|apply stop_stopped]. Qed.

(** X5. A subprocess that [start] spawns runs in a directory that passes
    the safety test of [validateCwd] (the resolved directory asked for, or
    else the home directory), which is also the directory [getCwd] reports;
    it gets the fixed stream-json flags, and belongs to the object's
    session. *)
Theorem spawned_in_a_safe_directory (env : Env) (cwd : string)
    (r : option string) (p : ClaudeProcess) (w : World) (pid : nat)
    (child : Child) :
  children (ClaudeProcess.start env cwd r (p, w)).2 !! pid = Some child →
  length (children w) ≤ pid →
  isSafe env (c_cwd child) = true
  ∧ (c_cwd child = env_resolve env cwd ∨ c_cwd child = env_homedir env)
  ∧ getCwd (ClaudeProcess.start env cwd r (p, w)).1 = Some (c_cwd child)
  ∧ c_args child = spawn_args r
  ∧ c_session child = sessionId p.
Proof.
  intros Hchild Hpid. pose proof (start_spec env cwd r p w) as Hspec.
  cbn zeta in Hspec.
  set (ch := match process p with
             | Some pid => alter sigterm pid (children w)
             | None => children w
             end) in *.
  assert (length ch = length (children w)) as Hlen.
  { unfold ch. destruct (process p); [apply length_alter|done]. }
  destruct (truthy (cli_path env p)).
  - destruct Hspec as (Hch & _ & Hcwd & _). rewrite Hch in Hchild.
    apply lookup_app_Some in Hchild as [Hold|[_ Hnew]].
    { apply lookup_lt_Some in Hold. lia. }
    apply list_lookup_singleton_Some in Hnew as [_ <-]. simpl.
    split_and!; [apply validateCwd_isSafe| |done..].
    unfold validateCwd. cbn zeta. destruct (existsb _ _); [by left|by right].
  - destruct Hspec as (Hch & _). rewrite Hch in Hchild.
    apply lookup_lt_Some in Hchild. lia.
Qed.

Lemma spawned_in_a_safe_directory_witness :
  isSafe sample_env "/home/user" = true
  ∧ ("/home/user" = "/etc" ∨ "/home/user" = "/home/user")
  ∧ getCwd (ClaudeProcess.start sample_env "/etc" None
              (ClaudeProcess.new sample_env "s1", sample_world)).1
    = Some "/home/user"
  ∧ spawn_args None = spawn_args None
  ∧ "s1" = "s1".
Proof.
  apply (spawned_in_a_safe_directory sample_env "/etc" None
           (ClaudeProcess.new sample_env "s1") sample_world 0
           {| c_command := "/usr/local/bin/claude"; c_args := spawn_args None;
              c_cwd := "/home/user"; c_shell := false; c_session := "s1";
              c_stdin := []; c_stdin_error := None; c_signals := [] |}).
  - reflexivity.
  - simpl. lia.
Defined.

(** X6. When no CLI path is known and none is found, [start] spawns
    nothing and leaves the object unbound; after what [stop] queues, it
    queues the "Claude CLI not found" error for the session, unless the
    window is gone. *)
Theorem start_without_cli (env : Env) (cwd : string) (r : option string)
    (p : ClaudeProcess) (w : World) :
  truthy (str_or (claudePath p) "") = false →
  truthy (str_or (env_findClaudeCli env) "") = false →
  let pw' := ClaudeProcess.start env cwd r (p, w) in
  isRunning pw'.1 = false
  ∧ length (children pw'.2) = length (children w)
  ∧ immediates pw'.2 =
      immediates w
      ++ (if windowDestroyed w then []
          else pending_batches p
               ++ [error_envelope (sessionId p)
                     "Claude CLI not found. Please install it with: npm install -g @anthropic-ai/claude-code"]).
Proof.
  intros Hknown Hfound. pose proof (start_spec env cwd r p w) as Hspec.
  cbn zeta in *. unfold cli_path in Hspec. rewrite Hknown, Hfound in Hspec.
  destruct Hspec as (Hch & Hproc & Himm).
  split_and!.
  - unfold isRunning. by rewrite Hproc.
  - rewrite Hch. destruct (process p); [apply length_alter|done].
  - rewrite Himm, stop_immediates.
    destruct (windowDestroyed w); by rewrite <- ?List.app_assoc.
Qed.

Lemma start_without_cli_witness :
  let env := {| env_findClaudeCli := None; env_isWindows := false;
                env_homedir := "/home/user"; env_resolve := λ path, path |} in
  let pw' := ClaudeProcess.start env "/home/user" None
               (ClaudeProcess.new env "s1", sample_world) in
  isRunning pw'.1 = false
  ∧ length (children pw'.2) = 0
  ∧ immediates pw'.2 =
      [error_envelope "s1"
         "Claude CLI not found. Please install it with: npm install -g @anthropic-ai/claude-code"].
Proof.
  apply (start_without_cli
           {| env_findClaudeCli := None; env_isWindows := false;
              env_homedir := "/home/user"; env_resolve := λ path, path |}
           "/home/user" None
           (ClaudeProcess.new
              {| env_findClaudeCli := None; env_isWindows := false;
                 env_homedir := "/home/user"; env_resolve := λ path, path |} "s1")
           sample_world); reflexivity.
Defined.

(** X7. The close event of a subprocess unbinds the object and queues the
    "stopped" status, but it does not clear the heartbeat timer: the next
    tick still sends a heartbeat for the session, although no subprocess is
    running (only [stop] and the next [start] clear the timer). *)
Theorem heartbeat_outlives_the_subprocess (code : option Z) (now : Z)
    (p : ClaudeProcess) (w : World) :
  let pw1 := on_close code (p, w) in
  let pw2 := heartbeat_tick now pw1 in
  isRunning pw1.1 = false
  ∧ heartbeatInterval pw1.1 = heartbeatInterval p
  ∧ immediates pw1.2 =
      immediates w
      ++ (if windowDestroyed w then []
          else [set_e_sessionId (sessionId p) (status_envelope "stopped" code None)])
  ∧ sent pw2.2 =
      sent w
      ++ (if heartbeatInterval p && negb (windowDestroyed w)
          then [heartbeat_envelope (sessionId p) now] else []).
Proof.
  cbn zeta. unfold on_close, sendToRenderer, heartbeat_tick.
  destruct (windowDestroyed w) eqn:Hw; simpl; rewrite Hw;
    destruct (heartbeatInterval p); simpl; by rewrite ?List.app_nil_r.
Qed.

End LifecycleFacts.


Module RegistryCallsFacts.
Import Js Protocol ClaudeProcess ClaudeProcessManager.
Import DeltaBatcherFacts RegistryFacts LifecycleFacts.

Lemma option_Forall2_Some_r {A B} (R : A → B → Prop) (o : option A) (y : B) :
  option_Forall2 R o (Some y) → ∃ x, o = Some x ∧ R x y.
Proof. inversion 1; eauto. Qed.

Lemma option_Forall2_Some_l {A B} (R : A → B → Prop) (x : A) (o : option B) :
  option_Forall2 R (Some x) o → ∃ y, o = Some y ∧ R x y.
Proof. inversion 1; eauto. Qed.

(** The invariant reads of an object only its binding and its session id,
    and of a subprocess only its session and its signals. *)
Lemma registry_ok_similar (processes processes' : gmap string ClaudeProcess)
    (w w' : World) :
  (∀ sid, option_Forall2
            (λ p p', process p' = process p ∧ sessionId p' = sessionId p)
            (processes !! sid) (processes' !! sid)) →
  (∀ pid, option_Forall2
            (λ c c', c_session c' = c_session c ∧ c_signals c' = c_signals c)
            (children w !! pid) (children w' !! pid)) →
  registry_ok (processes, w) → registry_ok (processes', w').
Proof.
  intros Hobj Hch (Hown & Hbound & Hlive). unfold registry_ok. cbn [fst snd] in *.
  split_and!.
  - intros sid p' Hp'. specialize (Hobj sid). rewrite Hp' in Hobj.
    apply option_Forall2_Some_r in Hobj as (p & Hp & _ & Hs).
    rewrite Hs. by apply Hown.
  - intros sid p' pid Hp' Hpid. specialize (Hobj sid). rewrite Hp' in Hobj.
    apply option_Forall2_Some_r in Hobj as (p & Hp & Hpr & _).
    rewrite Hpr in Hpid.
    destruct (Hbound sid p pid Hp Hpid) as (c & Hc & Hcs & Hsig).
    specialize (Hch pid). rewrite Hc in Hch.
    apply option_Forall2_Some_l in Hch as (c' & Hc' & Hs' & Hg').
    exists c'. split_and!; congruence.
  - intros pid c' Hc' Hsig. specialize (Hch pid). rewrite Hc' in Hch.
    apply option_Forall2_Some_r in Hch as (c & Hc & Hs' & Hg').
    destruct (Hlive pid c Hc) as (p & Hp & Hpid); [congruence|].
    rewrite Hs'. specialize (Hobj (c_session c)). rewrite Hp in Hobj.
    apply option_Forall2_Some_l in Hobj as (p' & Hp' & Hpr & _).
    exists p'. split; [done|congruence].
Qed.

(** Unbinding the object of a session, with its subprocess signalled, and
    keeping the object or dropping it. *)
Lemma unbind_keeps_registry_ok (processes : gmap string ClaudeProcess)
    (w w' : World) (sid : string) (p : ClaudeProcess) (kept : option ClaudeProcess) :
  registry_ok (processes, w) → processes !! sid = Some p →
  (∀ p', kept = Some p' → process p' = None ∧ sessionId p' = sid) →
  children w' = match process p with
                | Some pid => alter sigterm pid (children w)
                | None => children w
                end →
  registry_ok (match kept with
               | Some p' => <[sid := p']> processes
               | None => delete sid processes
               end, w').
Proof.
  intros (Hown & Hbound & Hlive) Hp Hkept Hch.
  assert (∀ sid' p0, match kept with
                     | Some p' => <[sid := p']> processes
                     | None => delete sid processes
                     end !! sid' = Some p0 →
            (sid' = sid ∧ kept = Some p0) ∨ (sid' ≠ sid ∧ processes !! sid' = Some p0))
    as Hlook.
  { intros sid' p0. destruct kept as [p'|].
    - destruct (decide (sid = sid')) as [<-|Hne].
      + rewrite lookup_insert_eq. intros [= <-]. by left.
      + rewrite lookup_insert_ne by done. right. by split.
    - destruct (decide (sid = sid')) as [<-|Hne].
      + by rewrite lookup_delete_eq.
      + rewrite lookup_delete_ne by done. right. by split. }
  unfold registry_ok. cbn [fst snd] in *. split_and!.
  - intros sid' p0 [[-> Hk]|[_ Hp0]]%Hlook; [by apply Hkept|by apply Hown].
  - intros sid' p0 pid [[-> Hk]|[Hne Hp0]]%Hlook Hpid.
    { destruct (Hkept p0 Hk). congruence. }
    destruct (Hbound sid' p0 pid Hp0 Hpid) as (c & Hc & Hcs & Hsig).
    exists c. split; [|done]. rewrite Hch.
    destruct (process p) as [pid0|] eqn:Hpid0; [|done].
    rewrite list_lookup_alter_ne; [done|]. intros ->.
    destruct (Hbound sid p pid Hp Hpid0) as (c' & Hc' & Hcs' & _). congruence.
  - intros pid c Hc Hsig. rewrite Hch in Hc.
    assert (children w !! pid = Some c ∧ process p ≠ Some pid) as [Hc0 Hnot].
    { destruct (process p) as [pid0|]; [|done].
      destruct (decide (pid0 = pid)) as [->|Hne].
      - rewrite list_lookup_alter_eq in Hc.
        destruct (children w !! pid) as [c0|]; simplify_eq/=.
        by destruct (sigterm_signalled c0).
      - rewrite list_lookup_alter_ne in Hc by done. split; [done|congruence]. }
    destruct (Hlive pid c Hc0 Hsig) as (p0 & Hp0 & Hpid).
    exists p0. split; [|done].
    assert (c_session c ≠ sid) as Hne by (intros Heq; congruence).
    destruct kept; by rewrite ?lookup_insert_ne, ?lookup_delete_ne.
Qed.

Lemma stop_keeps_registry_ok (sid : string) (mw : gmap string ClaudeProcess * World) :
  registry_ok mw → registry_ok (ClaudeProcessManager.stop sid mw).
Proof.
  destruct mw as [processes w]. intros Hok. unfold ClaudeProcessManager.stop.
  destruct (processes !! sid) as [p|] eqn:Hp; [|done].
  pose proof (stop_effect p w) as (Hproc & Hsid & _ & _ & Hch).
  destruct (ClaudeProcess.stop (p, w)) as [p' w']. cbn [fst snd] in *.
  apply (unbind_keeps_registry_ok processes w w' sid p (Some p')); [done..| |done].
  intros ? [= <-]. split; [done|]. rewrite Hsid. destruct Hok as (Hown & _).
  by apply Hown.
Qed.

Lemma removeSession_keeps_registry_ok (sid : string)
    (mw : gmap string ClaudeProcess * World) :
  registry_ok mw → registry_ok (removeSession sid mw).
Proof.
  destruct mw as [processes w]. intros Hok. unfold removeSession.
  destruct (processes !! sid) as [p|] eqn:Hp; [|done].
  assert (children (if ClaudeProcess.isRunning p
                    then ClaudeProcess.stop (p, w) else (p, w)).2
          = match process p with
            | Some pid => alter sigterm pid (children w)
            | None => children w
            end) as Hch.
  { unfold ClaudeProcess.isRunning.
    pose proof (stop_effect p w) as (_ & _ & _ & _ & Hch).
    destruct (process p); [exact Hch|done]. }
  destruct (if ClaudeProcess.isRunning p then _ else _) as [p' w'].
  by apply (unbind_keeps_registry_ok processes w w' sid p None).
Qed.

Lemma send_keeps_registry_ok (sid message : string)
    (mw : gmap string ClaudeProcess * World) :
  registry_ok mw → registry_ok (ClaudeProcessManager.send sid message mw).
Proof.
  destruct mw as [processes w]. unfold ClaudeProcessManager.send.
  assert (∀ error, registry_ok (processes, w) →
            registry_ok (processes, sendError sid error w)) as Herr.
  { intros error. apply registry_ok_similar.
    - intros sid'. by destruct (processes !! sid'); constructor.
    - intros pid. unfold sendError. destruct (windowDestroyed w); simpl;
        by destruct (children w !! pid); constructor. }
  destruct (processes !! sid) as [p|] eqn:Hp; [|apply Herr].
  destruct (negb (ClaudeProcess.isRunning p)); [apply Herr|].
  pose proof (send_queues message (p, w)) as (Hsid & _).
  assert (process (ClaudeProcess.send message (p, w)).1 = process p
          ∧ ∀ pid, option_Forall2
              (λ c c', c_session c' = c_session c ∧ c_signals c' = c_signals c)
              (children w !! pid)
              (children (ClaudeProcess.send message (p, w)).2 !! pid)) as [Hproc Hch].
  { unfold ClaudeProcess.send.
    assert (∀ data, process (sendToRenderer data (p, w)).1 = process p
              ∧ ∀ pid, option_Forall2
                  (λ c c', c_session c' = c_session c ∧ c_signals c' = c_signals c)
                  (children w !! pid)
                  (children (sendToRenderer data (p, w)).2 !! pid)) as Hsend.
    { intros data. destruct (sendToRenderer_only_events data (p, w))
        as (H1 & _ & _ & H4 & _). split; [done|]. intros pid. rewrite H4. simpl.
      by destruct (children w !! pid); constructor. }
    destruct (process p) as [pid0|] eqn:Hpid0; [|apply Hsend].
    destruct (_ ≫= _); [apply Hsend|].
    split; [done|]. intros pid. unfold write_stdin. simpl.
    destruct (decide (pid0 = pid)) as [->|Hne].
    - rewrite list_lookup_alter_eq. by destruct (children w !! pid); constructor.
    - rewrite list_lookup_alter_ne by done.
      by destruct (children w !! pid); constructor. }
  destruct (ClaudeProcess.send message (p, w)) as [p' w']. cbn [fst snd] in *.
  apply registry_ok_similar; [|done].
  intros sid'. destruct (decide (sid = sid')) as [<-|Hne].
  - rewrite lookup_insert_eq, Hp. by constructor.
  - rewrite lookup_insert_ne by done. by destruct (processes !! sid'); constructor.
Qed.


(** [stopAll] signals every bound subprocess, so that none is left
    without a signal. *)
Lemma stopAll_signals_all (processes : gmap string ClaudeProcess) (w : World) :
  registry_ok (processes, w) →
  ∀ pid c, children (stopAll (processes, w)).2 !! pid = Some c → c_signals c ≠ [].
Proof.
  intros (_ & _ & Hlive). unfold stopAll. cbn [snd].
  assert (∀ pid c',
    children (map_fold (λ _ process w, (ClaudeProcess.stop (process, w)).2)
                w processes) !! pid = Some c' →
    ∃ c, children w !! pid = Some c ∧ c_session c' = c_session c
         ∧ (c_signals c' = [] →
              c_signals c = []
              ∧ ∀ sid p, processes !! sid = Some p → process p ≠ Some pid))
    as Hfold.
  { apply (map_fold_weak_ind
      (λ w' (m : gmap string ClaudeProcess),
         ∀ pid c', children w' !! pid = Some c' →
           ∃ c, children w !! pid = Some c ∧ c_session c' = c_session c
                ∧ (c_signals c' = [] →
                     c_signals c = []
                     ∧ ∀ sid p, m !! sid = Some p → process p ≠ Some pid))).
    - intros pid c' Hc'. exists c'. split_and!; [done..|].
      intros Hsig. split; [done|]. intros sid p. by rewrite lookup_empty.
    - intros sid0 p0 m w' Hfresh IH pid c' Hc'.
      pose proof (stop_effect p0 w') as (_ & _ & _ & _ & Hch).
      cbn [fst snd] in Hch. rewrite Hch in Hc'. clear Hch.
      assert (∃ c1, children w' !! pid = Some c1 ∧ c_session c' = c_session c1
                    ∧ (c_signals c' = [] →
                         c_signals c1 = [] ∧ process p0 ≠ Some pid))
        as (c1 & Hc1 & Hs1 & Hsig1).
      { destruct (process p0) as [pid0|]; [|by exists c'].
        destruct (decide (pid0 = pid)) as [->|Hne].
        - rewrite list_lookup_alter_eq in Hc'.
          destruct (children w' !! pid) as [c1|]; simplify_eq/=.
          exists c1. split_and!; [done..|]. intros Hsig.
          by destruct (sigterm_signalled c1).
        - rewrite list_lookup_alter_ne in Hc' by done. exists c'.
          split_and!; [done..|]. intros Hsig. split; [done|congruence]. }
      destruct (IH pid c1 Hc1) as (c & Hc & Hs & Hsig).
      exists c. split_and!; [done|congruence|].
      intros Hsig'. destruct (Hsig1 Hsig') as [Hsig1' Hnot].
      destruct (Hsig Hsig1') as [Hsig0 Hothers]. split; [done|].
      intros sid p. destruct (decide (sid0 = sid)) as [<-|Hne].
      + rewrite lookup_insert_eq. by intros [= <-].
      + rewrite lookup_insert_ne by done. apply Hothers. }
  intros pid c' Hc' Hsig'.
  destruct (Hfold pid c' Hc') as (c & Hc & _ & Hsig).
  destruct (Hsig Hsig') as [Hsig0 Hothers].
  destruct (Hlive pid c Hc Hsig0) as (p & Hp & Hpid).
  by apply (Hothers _ _ Hp).
Qed.

Lemma no_unsignalled_registry_ok (w : World) :
  (∀ pid c, children w !! pid = Some c → c_signals c ≠ []) → registry_ok (∅, w).
Proof.
  intros Hall. unfold registry_ok. cbn [fst snd]. split_and!.
  - intros sid p. by rewrite lookup_empty.
  - intros sid p pid. by rewrite lookup_empty.
  - intros pid c Hc Hsig. by destruct (Hall pid c Hc).
Qed.

Lemma stopAll_keeps_registry_ok (mw : gmap string ClaudeProcess * World) :
  registry_ok mw → registry_ok (stopAll mw).
Proof.
  destruct mw as [processes w]. intros Hok.
  pose proof (stopAll_signals_all processes w Hok) as Hall.
  unfold stopAll in *. by apply no_unsignalled_registry_ok.
Qed.

(** Under the invariant a session has at most one subprocess that no signal
    was sent to. *)
Lemma live_children_le_1 (mw : gmap string ClaudeProcess * World) (sid : string) :
  registry_ok mw → length (live_children sid mw.2) ≤ 1.
Proof.
  intros Hok. destruct (mw.1 !! sid) as [p|] eqn:Hp.
  - eapply at_most_one; [apply live_children_NoDup|].
    intros pid. by apply (live_children_bound mw sid p pid).
  - destruct (live_children sid mw.2) as [|pid l] eqn:Hl; [simpl; lia|]. exfalso.
    assert (pid ∈ live_children sid mw.2) as Hin by (rewrite Hl; by left).
    unfold live_children in Hin.
    rewrite list_elem_of_In, List.filter_In in Hin. destruct Hin as [_ Hf].
    destruct (children mw.2 !! pid) as [c|] eqn:Hc; [|done].
    apply andb_true_iff in Hf as [Hs%bool_decide_eq_true Hsig%bool_decide_eq_true].
    destruct Hok as (_ & _ & Hlive).
    destruct (Hlive pid c Hc Hsig) as (p & Hp' & _). congruence.
Qed.

(** X8. Each call of the registry keeps the binding invariant: from a
    state that satisfies it, the state after [start], [send], [stop],
    [stopAll] or [removeSession] satisfies it again. In a state that
    satisfies it every session has at most one subprocess that has not
    been sent SIGTERM, and it is the one the session's object is bound
    to. The invariant is a precondition here: the close event of a
    subprocess that has been replaced does not keep it. *)
Theorem registry_calls_keep_binding_invariant (env : Env)
    (sid cwd message : string) (r : option string)
    (mw : gmap string ClaudeProcess * World) :
  registry_ok mw →
  registry_ok (ClaudeProcessManager.start env sid cwd r mw)
  ∧ registry_ok (ClaudeProcessManager.send sid message mw)
  ∧ registry_ok (ClaudeProcessManager.stop sid mw)
  ∧ registry_ok (stopAll mw)
  ∧ registry_ok (removeSession sid mw)
  ∧ ∀ sid', length (live_children sid' mw.2) ≤ 1
      ∧ ∀ pid, pid ∈ live_children sid' mw.2 →
          ∃ p, mw.1 !! sid' = Some p ∧ process p = Some pid.
Proof.
  intros Hok. split_and!.
  - by apply start_keeps_registry_ok.
  - by apply send_keeps_registry_ok.
  - by apply stop_keeps_registry_ok.
  - by apply stopAll_keeps_registry_ok.
  - by apply removeSession_keeps_registry_ok.
  - intros sid'. split; [by apply live_children_le_1|].
    intros pid Hin. unfold live_children in Hin.
    rewrite list_elem_of_In, List.filter_In in Hin. destruct Hin as [_ Hf].
    destruct (children _ !! pid) as [c|] eqn:Hc; [|done].
    apply andb_true_iff in Hf as [Hs%bool_decide_eq_true Hsig%bool_decide_eq_true].
    destruct Hok as (_ & _ & Hlive).
    destruct (Hlive pid c Hc Hsig) as (p & Hp & Hpid). exists p. by rewrite <- Hs.
Qed.

Lemma registry_calls_keep_binding_invariant_witness :
  let mw :=
    ClaudeProcessManager.start sample_env "s1" "/home/user/b" None
      (ClaudeProcessManager.start sample_env "s1" "/home/user/a" None
         (∅, sample_world)) in
  registry_ok (ClaudeProcessManager.start sample_env "s1" "/home/user/c" None mw)
  ∧ registry_ok (removeSession "s1" mw)
  ∧ length (live_children "s1" mw.2) ≤ 1.
Proof.
  pose proof (registry_calls_keep_binding_invariant sample_env "s1" "/home/user/c"
    "hello" None
    (ClaudeProcessManager.start sample_env "s1" "/home/user/b" None
       (ClaudeProcessManager.start sample_env "s1" "/home/user/a" None
          (∅, sample_world)))
    ltac:(do 2 apply start_keeps_registry_ok; by apply registry_ok_empty))
    as (H1 & _ & _ & _ & H2 & H3).
  cbn zeta. split_and!; [exact H1|exact H2|apply (H3 "s1")].
Defined.

Lemma live_children_nil (sid : string) (w : World) :
  (∀ pid c, children w !! pid = Some c → c_session c = sid → c_signals c ≠ []) →
  live_children sid w = [].
Proof.
  intros Hall. destruct (live_children sid w) as [|pid l] eqn:Hl; [done|]. exfalso.
  assert (pid ∈ live_children sid w) as Hin by (rewrite Hl; by left).
  unfold live_children in Hin.
  rewrite list_elem_of_In, List.filter_In in Hin. destruct Hin as [_ Hf].
  destruct (children w !! pid) as [c|] eqn:Hc; [|done].
  apply andb_true_iff in Hf as [Hs%bool_decide_eq_true Hsig%bool_decide_eq_true].
  by destruct (Hall pid c Hc Hs).
Qed.

(** X9. [stopAll] leaves the registry empty and no subprocess without a
    SIGTERM: afterwards no session is running or has a live subprocess. *)
Theorem stopAll_stops_everything (mw : gmap string ClaudeProcess * World) :
  registry_ok mw →
  let mw' := stopAll mw in
  mw'.1 = ∅
  ∧ (∀ sid, live_children sid mw'.2 = []
            ∧ ClaudeProcessManager.isRunning sid mw'.1 = false)
  ∧ length (children mw'.2) = length (children mw.2)
  ∧ registry_ok mw'.
Proof.
  destruct mw as [processes w]. intros Hok. cbn zeta.
  pose proof (stopAll_signals_all processes w Hok) as Hall.
  split_and!.
  - done.
  - intros sid. split.
    + apply live_children_nil. intros pid c Hc _. by apply (Hall pid c).
    + unfold ClaudeProcessManager.isRunning, stopAll. cbn [fst].
      by rewrite lookup_empty.
  - unfold stopAll. cbn [snd].
    apply (map_fold_weak_ind
      (λ w' (_ : gmap string ClaudeProcess),
         length (children w') = length (children w))); [done|].
    intros sid0 p0 m w' _ IH.
    pose proof (stop_effect p0 w') as (_ & _ & _ & _ & Hch).
    cbn [fst snd] in Hch. rewrite Hch.
    destruct (process p0); by rewrite ?length_alter.
  - by apply (stopAll_keeps_registry_ok (processes, w)).
Qed.

Lemma stopAll_stops_everything_witness :
  let mw :=
    ClaudeProcessManager.start sample_env "s2" "/home/user/b" None
      (ClaudeProcessManager.start sample_env "s1" "/home/user/a" None
         (∅, sample_world)) in
  let mw' := stopAll mw in
  mw'.1 = ∅
  ∧ (∀ sid, live_children sid mw'.2 = []
            ∧ ClaudeProcessManager.isRunning sid mw'.1 = false)
  ∧ length (children mw'.2) = length (children mw.2)
  ∧ registry_ok mw'.
Proof.
  apply (stopAll_stops_everything
           (ClaudeProcessManager.start sample_env "s2" "/home/user/b" None
              (ClaudeProcessManager.start sample_env "s1" "/home/user/a" None
                 (∅, sample_world)))).
  do 2 apply start_keeps_registry_ok. by apply registry_ok_empty.
Defined.

(** What [removeSession] does to its session and to the others. *)
Lemma removeSession_effect (sid : string)
    (mw : gmap string ClaudeProcess * World) :
  registry_ok mw →
  let mw' := removeSession sid mw in
  mw'.1 !! sid = None
  ∧ ClaudeProcessManager.isRunning sid mw'.1 = false
  ∧ ClaudeProcessManager.getCwd sid mw'.1 = None
  ∧ live_children sid mw'.2 = []
  ∧ (∀ sid', sid' ≠ sid →
       mw'.1 !! sid' = mw.1 !! sid'
       ∧ live_children sid' mw'.2 = live_children sid' mw.2)
  ∧ registry_ok mw'.
Proof.
  intros Hok. cbn zeta.
  pose proof (removeSession_keeps_registry_ok sid mw Hok) as Hok'.
  destruct mw as [processes w]. unfold removeSession in *.
  destruct (processes !! sid) as [p|] eqn:Hp.
  - assert (children (if ClaudeProcess.isRunning p
                      then ClaudeProcess.stop (p, w) else (p, w)).2
            = match process p with
              | Some pid => alter sigterm pid (children w)
              | None => children w
              end) as Hch.
    { unfold ClaudeProcess.isRunning.
      pose proof (stop_effect p w) as (_ & _ & _ & _ & Hch).
      destruct (process p); [exact Hch|done]. }
    destruct (if ClaudeProcess.isRunning p then _ else _) as [p' w'].
    cbn [fst snd] in *.
    unfold ClaudeProcessManager.isRunning, ClaudeProcessManager.getCwd.
    rewrite lookup_delete_eq. split_and!; [done..| | |done].
    + apply live_children_nil. intros pid c Hc Hs Hsig.
      destruct Hok' as (_ & _ & Hlive). cbn [fst snd] in Hlive.
      destruct (Hlive pid c Hc Hsig) as (p0 & Hp0 & _).
      by rewrite Hs, lookup_delete_eq in Hp0.
    + intros sid' Hne. rewrite lookup_delete_ne by done. split; [done|].
      unfold live_children. rewrite Hch.
      destruct (process p) as [pid0|] eqn:Hpid0; [|done].
      rewrite length_alter. apply List.filter_ext. intros pid.
      destruct (decide (pid0 = pid)) as [->|Hne'].
      * rewrite list_lookup_alter_eq.
        destruct Hok as (_ & Hbound & _).
        destruct (Hbound sid p pid Hp Hpid0) as (c & Hc & Hs & _).
        cbn [fst snd] in Hc. rewrite Hc. simpl.
        rewrite Hs. by rewrite !bool_decide_eq_false_2 by done.
      * by rewrite list_lookup_alter_ne.
  - cbn [fst snd].
    unfold ClaudeProcessManager.isRunning, ClaudeProcessManager.getCwd.
    rewrite Hp. split_and!; [done..| |done|done].
    apply live_children_nil. intros pid c Hc Hs Hsig.
    destruct Hok as (_ & _ & Hlive).
    destruct (Hlive pid c Hc Hsig) as (p0 & Hp0 & _). cbn [fst] in Hp0. congruence.
Qed.

(** X10. [removeSession] forgets the session: its object is gone from the
    registry, so it is neither running nor has a working directory, and its
    subprocess, if it had one, has been sent SIGTERM; the objects and the
    live subprocesses of all other sessions are as before. *)
Theorem removeSession_forgets (sid : string)
    (mw : gmap string ClaudeProcess * World) :
  registry_ok mw →
  let mw' := removeSession sid mw in
  mw'.1 !! sid = None
  ∧ ClaudeProcessManager.isRunning sid mw'.1 = false
  ∧ ClaudeProcessManager.getCwd sid mw'.1 = None
  ∧ live_children sid mw'.2 = []
  ∧ (∀ sid', sid' ≠ sid →
       mw'.1 !! sid' = mw.1 !! sid'
       ∧ live_children sid' mw'.2 = live_children sid' mw.2)
  ∧ registry_ok mw'.
Proof. apply removeSession_effect. Qed.

Lemma removeSession_forgets_witness :
  let mw :=
    ClaudeProcessManager.start sample_env "s2" "/home/user/b" None
      (ClaudeProcessManager.start sample_env "s1" "/home/user/a" None
         (∅, sample_world)) in
  let mw' := removeSession "s1" mw in
  mw'.1 !! "s1" = None
  ∧ ClaudeProcessManager.isRunning "s1" mw'.1 = false
  ∧ ClaudeProcessManager.getCwd "s1" mw'.1 = None
  ∧ live_children "s1" mw'.2 = []
  ∧ (∀ sid', sid' ≠ "s1" →
       mw'.1 !! sid' = mw.1 !! sid'
       ∧ live_children sid' mw'.2 = live_children sid' mw.2)
  ∧ registry_ok mw'.
Proof.
  apply (removeSession_forgets "s1"
           (ClaudeProcessManager.start sample_env "s2" "/home/user/b" None
              (ClaudeProcessManager.start sample_env "s1" "/home/user/a" None
                 (∅, sample_world)))).
  do 2 apply start_keeps_registry_ok. by apply registry_ok_empty.
Defined.

(** X11. A message sent to a session whose object is bound reaches the
    standard input of that session's own subprocess, as one user record
    after what was written before; no other subprocess is written to, no
    event goes to the renderer, and the registry is as before. *)
Theorem send_reaches_own_subprocess (sid message : string)
    (mw : gmap string ClaudeProcess * World) (p : ClaudeProcess) (pid : nat)
    (c : Child) :
  registry_ok mw → mw.1 !! sid = Some p → process p = Some pid →
  children mw.2 !! pid = Some c → c_stdin_error c = None →
  let mw' := ClaudeProcessManager.send sid message mw in
  c_session c = sid
  ∧ children mw'.2 !! pid = Some (set_c_stdin (c_stdin c ++ [UserLine message]) c)
  ∧ (∀ pid', pid' ≠ pid → children mw'.2 !! pid' = children mw.2 !! pid')
  ∧ sent mw'.2 = sent mw.2 ∧ immediates mw'.2 = immediates mw.2
  ∧ mw'.1 = mw.1.
Proof.
  destruct mw as [processes w]. cbn [fst snd].
  intros (_ & Hbound & _) Hp Hpid Hc Herr. cbn zeta.
  destruct (Hbound sid p pid Hp Hpid) as (c' & Hc' & Hs & _).
  cbn [fst snd] in Hc'. assert (c' = c) as -> by congruence.
  unfold ClaudeProcessManager.send, ClaudeProcess.isRunning, ClaudeProcess.send.
  rewrite Hp, Hpid. cbn [negb]. rewrite Hc. cbn [mbind option_bind].
  rewrite Herr. cbn [fst snd]. unfold write_stdin. simpl.
  split_and!; [done| |intros pid' Hne|done|done|by apply insert_id].
  - by rewrite list_lookup_alter_eq, Hc.
  - by rewrite list_lookup_alter_ne.
Qed.

Lemma send_reaches_own_subprocess_witness :
  let mw :=
    ClaudeProcessManager.start sample_env "s1" "/home/user/a" None (∅, sample_world) in
  let mw' := ClaudeProcessManager.send "s1" "hello" mw in
  (c_stdin <$> children mw'.2 !! 0) = Some [UserLine "hello"].
Proof.
  pose proof (send_reaches_own_subprocess "s1" "hello"
    (ClaudeProcessManager.start sample_env "s1" "/home/user/a" None (∅, sample_world))
    (startHeartbeat
       (set_eventCounter 1
          (set_stderrRl true
             (set_process (Some 0)
                (set_currentCwd (Some "/home/user/a")
                   (ClaudeProcess.new sample_env "s1"))))))
    0
    {| c_command := "/usr/local/bin/claude"; c_args := spawn_args None;
       c_cwd := "/home/user/a"; c_shell := false; c_session := "s1";
       c_stdin := []; c_stdin_error := None; c_signals := [] |}
    ltac:(apply start_keeps_registry_ok; by apply registry_ok_empty)
    eq_refl eq_refl eq_refl eq_refl) as (_ & H & _).
  cbn zeta. by rewrite H.
Defined.

End RegistryCallsFacts.

Module RegistryCloseFacts.
Import Js Protocol ClaudeProcess ClaudeProcessManager.
Import DeltaBatcherFacts RegistryFacts LifecycleFacts RegistryCallsFacts.

(** With a CLI installed, [start] finds an executable whatever path the
    object has kept. *)
Lemma cli_found_any (env : Env) (p : ClaudeProcess) :
  truthy (str_or (env_findClaudeCli env) "") = true → truthy (cli_path env p) = true.
Proof.
  intros Hcli. unfold cli_path.
  by destruct (truthy (str_or (claudePath p) "")) eqn:Hp.
Qed.

(** The registry's [start] with a CLI installed: the subprocess that the
    session's object was bound to is signalled, one subprocess is spawned
    for the session and the object is bound to it. *)
Lemma manager_start_found (env : Env) (sid cwd : string) (r : option string)
    (processes : gmap string ClaudeProcess) (w : World) :
  truthy (str_or (env_findClaudeCli env) "") = true →
  (∀ p, processes !! sid = Some p → sessionId p = sid) →
  let ch := match processes !! sid ≫= process with
            | Some pid => alter sigterm pid (children w)
            | None => children w
            end in
  let mw' := ClaudeProcessManager.start env sid cwd r (processes, w) in
  ∃ p' child,
    mw'.1 = <[sid := p']> processes
    ∧ sessionId p' = sid
    ∧ process p' = Some (length ch)
    ∧ children mw'.2 = ch ++ [child]
    ∧ c_session child = sid ∧ c_signals child = [].
Proof.
  intros Hcli Hown. cbn zeta. unfold ClaudeProcessManager.start.
  assert (∃ p1 w1,
    match processes !! sid with
    | Some process =>
      if ClaudeProcess.isRunning process
      then ClaudeProcess.stop (process, w) else (process, w)
    | None => (ClaudeProcess.new env sid, w)
    end = (p1, w1)
    ∧ sessionId p1 = sid
    ∧ match process p1 with
      | Some pid => alter sigterm pid (children w1)
      | None => children w1
      end = match processes !! sid ≫= process with
            | Some pid => alter sigterm pid (children w)
            | None => children w
            end) as (p1 & w1 & -> & Hsid & Hch).
  { destruct (processes !! sid) as [p0|] eqn:Hp0; cbn [mbind option_bind].
    - unfold ClaudeProcess.isRunning. destruct (process p0) as [pid|] eqn:Hpid.
      + pose proof (stop_effect p0 w) as (H1 & H2 & _ & _ & H5).
        destruct (ClaudeProcess.stop (p0, w)) as [p1 w1]. cbn [fst snd] in *.
        exists p1, w1. rewrite H1, H5, Hpid. split_and!; [done| |done].
        rewrite H2. by apply Hown.
      + exists p0, w. rewrite Hpid. split_and!; [done| |done]. by apply Hown.
    - by exists (ClaudeProcess.new env sid), w. }
  pose proof (start_spec env cwd r p1 w1) as Hspec. cbn zeta in Hspec.
  rewrite (cli_found_any env p1 Hcli), Hch in Hspec.
  pose proof (start_effect env cwd r p1 w1) as (Hsid' & _).
  destruct (ClaudeProcess.start env cwd r (p1, w1)) as [p2 w2]. cbn [fst snd] in *.
  destruct Hspec as (Hchildren & Hproc & _).
  eexists p2, _. split_and!; [done|congruence|done|exact Hchildren|done..].
Qed.

(** The close event leaves the subprocesses as they are and unbinds the
    object of the session, whichever subprocess it is bound to. *)
Lemma child_closed_effect (sid : string) (code : option Z)
    (processes : gmap string ClaudeProcess) (w : World) (p : ClaudeProcess) :
  processes !! sid = Some p →
  let mw' := child_closed sid code (processes, w) in
  ∃ p', mw'.1 = <[sid := p']> processes
    ∧ process p' = None ∧ sessionId p' = sessionId p
    ∧ children mw'.2 = children w.
Proof.
  intros Hp. cbn zeta. unfold child_closed, on_close. cbn [fst snd]. rewrite Hp.
  match goal with
  | |- context [sendToRenderer ?d ?pw] =>
    pose proof (sendToRenderer_only_events d pw) as (_ & H2 & _ & H4 & _);
    destruct (sendToRenderer d pw) as [p1 w1]
  end.
  cbn [fst snd] in *. eexists. by split_and!.
Qed.

Lemma live_children_cons_aux (sid : string) (w : World) (l : list Child) :
  children w = l →
  live_children sid w
  = List.filter
      (λ pid, match l !! pid with
              | Some c => bool_decide (c_session c = sid)
                          && bool_decide (c_signals c = [])
              | None => false
              end)
      (seq 0 (length l)).
Proof. intros <-. reflexivity. Qed.

(** C3. The invariant does not hold of the code. Two calls of [start] in
    succession do stop the first subprocess and bind the second. But the
    first subprocess closes only later, on the SIGTERM it was sent, and its
    [close] handler then unbinds the object from the second subprocess,
    which runs on: the registry reports the session as not running, and no
    later call signals that subprocess. From there every further [start]
    adds a live subprocess beside it, so that after two more calls of
    [start] in succession the session has two subprocesses that no signal
    was sent to, one of them bound. *)
Theorem late_close_leaves_two_processes (env : Env)
    (sid cwd1 cwd2 cwd3 cwd4 : string) (r1 r2 r3 r4 : option string)
    (code : option Z) (w : World) :
  truthy (str_or (env_findClaudeCli env) "") = true → children w = [] →
  let mw2 :=
    ClaudeProcessManager.start env sid cwd2 r2
      (ClaudeProcessManager.start env sid cwd1 r1 (∅, w)) in
  let mw3 := child_closed sid code mw2 in
  let mw4 := ClaudeProcessManager.start env sid cwd3 r3 mw3 in
  let mw5 := ClaudeProcessManager.start env sid cwd4 r4 mw4 in
  (c_signals <$> children mw2.2 = [["SIGTERM"]; []]
   ∧ live_children sid mw2.2 = [1]
   ∧ mw2.1 !! sid ≫= process = Some 1)
  ∧ (children mw3.2 = children mw2.2
     ∧ live_children sid mw3.2 = [1]
     ∧ mw3.1 !! sid ≫= process = None
     ∧ ClaudeProcessManager.isRunning sid mw3.1 = false
     ∧ ¬ registry_ok mw3)
  ∧ (c_session <$> children mw4.2 = [sid; sid; sid]
     ∧ c_signals <$> children mw4.2 = [["SIGTERM"]; []; []]
     ∧ live_children sid mw4.2 = [1; 2]
     ∧ mw4.1 !! sid ≫= process = Some 2)
  ∧ (c_session <$> children mw5.2 = [sid; sid; sid; sid]
     ∧ c_signals <$> children mw5.2 = [["SIGTERM"]; []; ["SIGTERM"]; []]
     ∧ live_children sid mw5.2 = [1; 3]
     ∧ mw5.1 !! sid ≫= process = Some 3).
Proof.
  intros Hcli Hw. cbn zeta.
  (* the first start *)
  pose proof (manager_start_found env sid cwd1 r1 ∅ w Hcli) as H1.
  cbn zeta in H1. rewrite lookup_empty in H1. cbn [mbind option_bind] in H1.
  rewrite Hw in H1.
  destruct (ClaudeProcessManager.start env sid cwd1 r1 (∅, w)) as [m1 w1].
  destruct H1 as (p1 & c0 & Hm1 & Hs1 & Hp1 & Hc1 & Hc0s & Hc0g); [done|].
  cbn [fst snd app length] in *. subst m1.
  (* the second start *)
  pose proof (manager_start_found env sid cwd2 r2 (<[sid:=p1]> ∅) w1 Hcli) as H2.
  cbn zeta in H2. rewrite lookup_insert_eq in H2. cbn [mbind option_bind] in H2.
  rewrite Hp1, Hc1 in H2.
  destruct (ClaudeProcessManager.start env sid cwd2 r2 (<[sid:=p1]> ∅, w1)) as [m2 w2].
  destruct H2 as (p2 & c1 & Hm2 & Hs2 & Hp2 & Hc2 & Hc1s & Hc1g);
    [by intros ? [= <-]|].
  cbn [fst snd app length alter list_alter] in *. subst m2.
  rewrite insert_insert_eq in *.
  (* the first subprocess closes *)
  pose proof (child_closed_effect sid code (<[sid:=p2]> ∅) w2 p2
                ltac:(apply lookup_insert_eq)) as H3.
  cbn zeta in H3.
  destruct (child_closed sid code (<[sid:=p2]> ∅, w2)) as [m3 w3].
  destruct H3 as (p3 & Hm3 & Hp3 & Hs3 & Hc3).
  cbn [fst snd] in *. subst m3. rewrite insert_insert_eq in *. rewrite Hc2 in Hc3.
  (* the third start *)
  pose proof (manager_start_found env sid cwd3 r3 (<[sid:=p3]> ∅) w3 Hcli) as H4.
  cbn zeta in H4. rewrite lookup_insert_eq in H4. cbn [mbind option_bind] in H4.
  rewrite Hp3, Hc3 in H4.
  destruct (ClaudeProcessManager.start env sid cwd3 r3 (<[sid:=p3]> ∅, w3)) as [m4 w4].
  destruct H4 as (p4 & c2 & Hm4 & Hs4 & Hp4 & Hc4 & Hc2s & Hc2g);
    [intros ? [= <-]; congruence|].
  cbn [fst snd app length] in *. subst m4. rewrite insert_insert_eq in *.
  (* the fourth start *)
  pose proof (manager_start_found env sid cwd4 r4 (<[sid:=p4]> ∅) w4 Hcli) as H5.
  cbn zeta in H5. rewrite lookup_insert_eq in H5. cbn [mbind option_bind] in H5.
  rewrite Hp4, Hc4 in H5.
  destruct (ClaudeProcessManager.start env sid cwd4 r4 (<[sid:=p4]> ∅, w4)) as [m5 w5].
  destruct H5 as (p5 & c3 & Hm5 & Hs5 & Hp5 & Hc5 & Hc3s & Hc3g);
    [by intros ? [= <-]|].
  cbn [fst snd app length alter list_alter] in *. subst m5.
  unfold ClaudeProcessManager.isRunning, ClaudeProcess.isRunning.
  rewrite !lookup_insert_eq. cbn [mbind option_bind].
  rewrite Hp2, Hp3, Hp4, Hp5.
  rewrite (live_children_cons_aux sid w2 _ Hc2), (live_children_cons_aux sid w3 _ Hc3),
    (live_children_cons_aux sid w4 _ Hc4), (live_children_cons_aux sid w5 _ Hc5).
  rewrite Hc2, Hc3, Hc4, Hc5. unfold sigterm.
  cbn [fmap list_fmap length seq List.filter lookup list_lookup
       c_session c_signals set_c_signals app].
  rewrite Hc0s, Hc0g, Hc1s, Hc1g, Hc2s, Hc2g, Hc3s, Hc3g.
  rewrite !bool_decide_eq_true_2 by done. cbn [andb app].
  rewrite !bool_decide_eq_false_2 by done.
  split_and!; try done.
  intros (_ & _ & Hlive). cbn [fst snd] in Hlive.
  destruct (Hlive 1 c1) as (p & Hp & Hpid); [by rewrite Hc3|done|].
  rewrite Hc1s, lookup_insert_eq in Hp. congruence.
Qed.

Lemma late_close_leaves_two_processes_witness :
  let mw2 :=
    ClaudeProcessManager.start sample_env "s1" "/home/user/b" None
      (ClaudeProcessManager.start sample_env "s1" "/home/user/a" None
         (∅, sample_world)) in
  let mw5 :=
    ClaudeProcessManager.start sample_env "s1" "/home/user/d" None
      (ClaudeProcessManager.start sample_env "s1" "/home/user/c" None
         (child_closed "s1" None mw2)) in
  live_children "s1" mw2.2 = [1]
  ∧ c_signals <$> children mw5.2 = [["SIGTERM"]; []; ["SIGTERM"]; []]
  ∧ live_children "s1" mw5.2 = [1; 3].
Proof.
  pose proof (late_close_leaves_two_processes sample_env "s1" "/home/user/a"
    "/home/user/b" "/home/user/c" "/home/user/d" None None None None
    None sample_world eq_refl eq_refl)
    as ((_ & H1 & _) & _ & _ & (_ & H2 & H3 & _)).
  by split_and!.
Defined.

End RegistryCloseFacts.

Module SessionStoreFacts.
Import Js Protocol ClaudeProcess ClaudeProcessManager IpcHandlers.
Import RegistryFacts RegistryCallsFacts PersistenceFacts.



Lemma findIndex_take {A} (f : A → bool) (l : list A) (i n : nat) :
  findIndex f l = Some i → i < n → findIndex f (take n l) = Some i.
Proof.
  revert i n. induction l as [|z l IH]; intros i n; simpl; [done|].
  destruct n as [|n]; [lia|]. simpl.
  destruct (f z) eqn:Hz; [done|].
  destruct (findIndex f l) as [j|] eqn:Hj; simpl; [|done].
  intros [= <-] Hlt. rewrite (IH j n); [done|done|lia].
Qed.












Section MessagesFacts.
Context {M : Type}.
Variable sessionsPath : string.
Variable getMessagesPath : string → string.


(** When the message path of the session is that of sessions.json, the
    handler unlinks the list it has just written. *)
Lemma sessions_delete_unlinks_the_list (sid : string) (m : Main (M:=M)) :
  canUnlink (messageFiles m) (getMessagesPath sid) = true →
  getMessagesPath sid = sessionsPath →
  let r := sessions_delete_handler sessionsPath getMessagesPath sid m in
  sessionsFile (disk r.2) = None ∧ loadSessions (disk r.2) = [].
Proof.
  intros Hfw Hpath. cbn zeta.
  unfold sessions_delete_handler, sessions_delete, deleteMessages.
  rewrite Hfw. cbn [negb]. by rewrite bool_decide_eq_true_2 by done.
Qed.

End MessagesFacts.


End SessionStoreFacts.

Module StreamRendererFacts.
Import Js QuantumStreamRenderer.
Import LineFramerFacts.

Lemma text_snoc (l : list string) (s : string) : text (l ++ [s]) = text l +:+ s.
Proof.
  induction l as [|t l IH]; cbn [text foldr app].
  - by rewrite string_app_nil_r.
  - fold (text (l ++ [s])). fold (text l). by rewrite IH, string_app_assoc.
Qed.

Lemma join_app (l k : list ascii) : join (l ++ k) = join l +:+ join k.
Proof. induction l as [|a l IH]; [done|]. simpl. by rewrite IH. Qed.

Lemma join_chars (s : string) : join (list_ascii_of_string s) = s.
Proof. apply string_of_list_ascii_of_string. Qed.

Lemma join_nonempty (l : list ascii) : length l ≠ 0 → join l ≠ "".
Proof. by destruct l. Qed.

Lemma splice0_app {A} (n : Z) (l : list A) : (splice0 n l).1 ++ (splice0 n l).2 = l.
Proof. unfold splice0. cbn [fst snd]. apply take_drop. Qed.

(** [extractBatch] takes a prefix of the buffer and calls nothing. *)
Lemma extractBatch_prefix (count : Z) (r : Renderer) :
  (extractBatch count r).1 ++ buffer (extractBatch count r).2 = buffer r
  ∧ rendered (extractBatch count r).2 = rendered r
  ∧ scrolled (extractBatch count r).2 = scrolled r
  ∧ onScroll (extractBatch count r).2 = onScroll r.
Proof.
  unfold extractBatch. cbv zeta.
  match goal with
  | |- context [splice0 ?n (buffer r)] =>
    pose proof (splice0_app n (buffer r)) as Happ;
    destruct (splice0 n (buffer r)) as [batch rest]
  end.
  by cbn [fst snd buffer rendered scrolled onScroll set_buffer] in *.
Qed.

(** What every step keeps: the text handed to [onRender] so far, followed
    by the buffer, is the text received so far; [onRender] never gets the
    empty string, and [onScroll], when there is one, is called once after
    each [onRender]. *)
Definition conserves (received : string) (r : Renderer) : Prop :=
  text (rendered r) +:+ join (buffer r) = received
  ∧ Forall (λ t, t ≠ "") (rendered r)
  ∧ scrolled r = if onScroll r then length (rendered r) else 0.

Lemma call_conserves (received : string) (batch rest : list ascii) (r : Renderer) :
  length batch ≠ 0 →
  text (rendered r) +:+ join (batch ++ rest) = received →
  Forall (λ t, t ≠ "") (rendered r) →
  scrolled r = (if onScroll r then length (rendered r) else 0) →
  buffer r = rest →
  conserves received (call_onScroll (call_onRender (join batch) r)).
Proof.
  intros Hlen Htext Hne Hscroll Hbuffer.
  unfold conserves, call_onScroll, call_onRender.
  cbn [buffer rendered scrolled onScroll].
  destruct (onScroll r) eqn:Hon; cbn [buffer rendered scrolled onScroll];
    rewrite ?Hon, text_snoc, ?length_app, string_app_assoc, <- join_app, Hbuffer;
    (split_and!; [done| |simpl; lia]);
    (apply Forall_app; split; [done|]; constructor; [|done]; by apply join_nonempty).
Qed.

Lemma render_conserves (charsToRender : Z) (received : string) (r : Renderer) :
  conserves received r → conserves received (render charsToRender r).
Proof.
  intros (Htext & Hne & Hscroll). unfold render.
  destruct (bool_decide _); [done|].
  destruct (charsToRender =? 0)%Z; [done|].
  pose proof (extractBatch_prefix charsToRender r) as (Happ & Hr & Hs & Hon).
  destruct (extractBatch charsToRender r) as [batch r']. cbn [fst snd] in *.
  destruct (bool_decide (length batch = 0)) eqn:Hlen.
  - apply bool_decide_eq_true in Hlen. destruct batch; [|done].
    unfold conserves. by rewrite Hr, Hs, Hon, <- Happ in *.
  - apply bool_decide_eq_false in Hlen.
    apply (call_conserves received batch (buffer r')); [done| | | |done].
    + by rewrite Hr, Happ.
    + by rewrite Hr.
    + by rewrite Hs, Hon, Hr.
Qed.

Lemma flush_conserves (received : string) (r : Renderer) :
  conserves received r → conserves received (flush r) ∧ buffer (flush r) = [].
Proof.
  intros (Htext & Hne & Hscroll). unfold flush.
  destruct (bool_decide (0 < length (buffer r))) eqn:Hlen.
  - apply bool_decide_eq_true in Hlen. split.
    + apply (call_conserves received (buffer r) []); [lia| |done|done|done].
      by rewrite app_nil_r.
    + unfold call_onScroll, call_onRender, set_buffer.
      cbn [buffer rendered scrolled onScroll]. by destruct (onScroll r).
  - apply bool_decide_eq_false in Hlen. split; [done|].
    destruct (buffer r); [done|simpl in Hlen; lia].
Qed.

Lemma onData_conserves (room : nat) (chunk received : string) (r r' : Renderer) :
  onData room chunk r = Some r' →
  conserves received r → conserves (received +:+ chunk) r'.
Proof.
  unfold onData. destruct (String.length chunk <=? room); [|done].
  intros [= <-] (Htext & Hne & Hscroll). unfold conserves, set_buffer.
  cbn [buffer rendered scrolled onScroll].
  by rewrite join_app, join_chars, <- string_app_assoc, Htext.
Qed.

Lemma onData_None (room : nat) (chunk : string) (r : Renderer) :
  onData room chunk r = None ↔ (String.length chunk <=? room) = false.
Proof. unfold onData. by destruct (String.length chunk <=? room). Qed.

Lemma steps_conserve (steps : list Step) (received : string) (r : Renderer) :
  conserves received r →
  conserves (received +:+ text (taken steps)) (foldl step r steps).
Proof.
  revert received r. induction steps as [|s steps IH]; intros received r Hr.
  - simpl. by rewrite string_app_nil_r.
  - cbn [foldl]. destruct s as [room chunk|charsToRender|]; cbn [step].
    + unfold taken. cbn [omap list_omap]. fold (taken steps).
      destruct (onData room chunk r) as [r'|] eqn:Hdata; cbn [default from_option id].
      * assert ((String.length chunk <=? room) = true) as ->.
        { unfold onData in Hdata. by destruct (String.length chunk <=? room). }
        cbn [text foldr]. rewrite <- string_app_assoc.
        by apply IH, (onData_conserves room chunk received r).
      * apply onData_None in Hdata as ->. by apply IH.
    + change (taken (Frame charsToRender :: steps)) with (taken steps).
      by apply IH, render_conserves.
    + change (taken (Flush :: steps)) with (taken steps).
      by apply IH, flush_conserves.
Qed.

(** X15. Of the chunks that [onData] takes in, a renderer loses, repeats
    and reorders nothing: after any sequence of chunks, frames (whatever
    amount each asks for) and flushes, the texts handed to [onRender] so
    far, followed by what is still buffered, are exactly the chunks taken
    in, in order. A chunk is taken in when its characters fit the arguments
    of one call; for a longer one [onData] throws and the chunk is lost
    whole, the renderer being as before. [onRender] is never called with the
    empty string, [onScroll], when there is one, is called once per
    [onRender], and a flush hands over all the rest. *)
Theorem renders_all_text_in_order (onScroll : bool) (steps : list Step) :
  let r := run onScroll steps in
  text (rendered r) +:+ join (buffer r) = text (taken steps)
  ∧ Forall (λ t, t ≠ "") (rendered r)
  ∧ scrolled r = (if onScroll then length (rendered r) else 0)
  ∧ text (rendered (flush r)) = text (taken steps)
  ∧ hasPendingData (flush r) = false.
Proof.
  cbn zeta.
  assert (conserves "" (new onScroll)) as Hnew.
  { unfold conserves. simpl. split_and!; [done..|]. by destruct onScroll. }
  assert (∀ steps r, QuantumStreamRenderer.onScroll (foldl step r steps)
                     = QuantumStreamRenderer.onScroll r) as Hon.
  { clear. induction steps as [|s steps IH]; intros r; [done|].
    cbn [foldl]. rewrite IH.
    destruct s as [room chunk|charsToRender|]; cbn [step].
    - unfold onData. by destruct (String.length chunk <=? room).
    - unfold render. destruct (bool_decide _); [done|].
      destruct (charsToRender =? 0)%Z; [done|].
      pose proof (extractBatch_prefix charsToRender r) as (_ & _ & _ & Hon).
      destruct (extractBatch charsToRender r) as [batch r']. cbn [snd] in Hon.
      destruct (bool_decide _); [done|].
      unfold call_onScroll, call_onRender. cbn [QuantumStreamRenderer.onScroll].
      by destruct (QuantumStreamRenderer.onScroll r').
    - unfold flush. destruct (bool_decide _); [|done].
      unfold call_onScroll, call_onRender, set_buffer.
      cbn [QuantumStreamRenderer.onScroll].
      by destruct (QuantumStreamRenderer.onScroll r). }
  pose proof (steps_conserve steps "" (new onScroll) Hnew) as Hrun.
  change ("" +:+ text (taken steps)) with (text (taken steps)) in Hrun.
  fold (run onScroll steps) in Hrun.
  destruct (flush_conserves _ _ Hrun) as [(Hflush & _ & _) Hempty].
  destruct Hrun as (Htext & Hne & Hscroll).
  split_and!; [done|done| | |].
  - rewrite Hscroll. unfold run. by rewrite Hon.
  - rewrite Hempty in Hflush. simpl in Hflush. by rewrite string_app_nil_r in Hflush.
  - unfold hasPendingData. rewrite Hempty.
    apply bool_decide_eq_false_2. simpl. lia.
Qed.

(** A chunk too long for one call is lost whole; the others are rendered. *)
Example long_chunk_is_lost :
  rendered (run false [Data 4 "ab"; Data 4 "cdefg"; Data 4 "h"; Flush]) = ["abh"].
Proof. reflexivity. Qed.

Lemma indexOf_join_Some (c : ascii) (l : list ascii) (i : nat) :
  indexOf c (join l) = Some i →
  l !! i = Some c ∧ ∀ j, j < i → l !! j ≠ Some c.
Proof.
  revert i. induction l as [|a l IH]; intros i; simpl; [done|].
  destruct (Ascii.eqb a c) eqn:Ha.
  - intros [= <-]. apply Ascii.eqb_eq in Ha as ->. split; [done|lia].
  - destruct (indexOf c (join l)) as [i'|] eqn:Hi; simpl; [|done].
    intros [= <-]. destruct (IH i' eq_refl) as [Hc Hbefore]. split; [done|].
    intros [|j] Hj; simpl.
    + intros [= ->]. by rewrite Ascii.eqb_refl in Ha.
    + apply Hbefore. lia.
Qed.

Lemma indexOf_join_None (c : ascii) (l : list ascii) (j : nat) :
  indexOf c (join l) = None → l !! j ≠ Some c.
Proof.
  revert j. induction l as [|a l IH]; intros j; simpl; [done|].
  destruct (Ascii.eqb a c) eqn:Ha; [done|].
  destruct (indexOf c (join l)) as [i'|] eqn:Hi; simpl; [done|].
  intros _. destruct j as [|j]; simpl.
  - intros [= ->]. by rewrite Ascii.eqb_refl in Ha.
  - by apply IH.
Qed.

(** The look-ahead of [extractBatch] when [count] is inside the buffer. *)
Lemma lookAhead_lookup (count k : nat) (l : list ascii) :
  count < length l → k < 10 →
  slice (Z.of_nat count) (Z.of_nat count + 10) l !! k
  = if decide (count + k < length l) then l !! (count + k) else None.
Proof.
  intros Hc Hk. unfold slice, relative_index.
  rewrite !(proj2 (Z.ltb_ge _ _)) by lia.
  rewrite (Z.min_l (Z.of_nat count)) by lia. rewrite Nat2Z.id.
  destruct (decide (count + k < length l)) as [Hin|Hout].
  - rewrite lookup_take_lt by lia. by rewrite lookup_drop.
  - apply lookup_ge_None_2. rewrite length_take, length_drop. lia.
Qed.

Lemma splice0_take {A} (n : nat) (l : list A) :
  (splice0 (Z.of_nat n) l).1 = take n l.
Proof.
  unfold splice0. cbn [fst]. rewrite Z.max_l by lia.
  destruct (decide (n ≤ length l)).
  - by rewrite Z.min_l, Nat2Z.id by lia.
  - rewrite Z.min_r, Nat2Z.id by lia. by rewrite !take_ge by lia.
Qed.

(** X16. [extractBatch] does not stop just before the end of a word: when
    the first space after the [count] characters asked for is one to four
    characters further on, the batch runs up to and including that space;
    when a space follows at once, or none within four characters, the
    batch is the [count] first characters (the whole buffer if it is
    shorter). *)
Theorem extractBatch_word_boundary (count : nat) (r : Renderer) :
  let batch := (extractBatch (Z.of_nat count) r).1 in
  (∀ k, 1 ≤ k ≤ 4 → buffer r !! (count + k) = Some " "%char →
        (∀ j, j < k → buffer r !! (count + j) ≠ Some " "%char) →
        batch = take (count + k + 1) (buffer r))
  ∧ (buffer r !! count = Some " "%char
     ∨ (∀ k, 1 ≤ k ≤ 4 → buffer r !! (count + k) ≠ Some " "%char) →
     batch = take count (buffer r)).
Proof.
  cbn zeta. unfold extractBatch. cbv zeta.
  match goal with
  | |- context [splice0 ?n (buffer r)] =>
    assert ((let '(batch, rest) := splice0 n (buffer r) in (batch, set_buffer rest r)).1
            = (splice0 n (buffer r)).1) as -> by by destruct (splice0 n (buffer r))
  end.
  destruct (Z.of_nat count <? Z.of_nat (length (buffer r)))%Z eqn:Hin.
  - apply Z.ltb_lt in Hin. assert (count < length (buffer r)) as Hc by lia.
    pose proof (λ k, lookAhead_lookup count k (buffer r) Hc) as Hla.
    unfold indexOf_space.
    destruct (indexOf " "%char _) as [i|] eqn:Hi.
    + apply indexOf_join_Some in Hi as [Hspace Hbefore].
      destruct ((0 <? Z.of_nat i)%Z && (Z.of_nat i <? 5)%Z) eqn:Hnear.
      * apply andb_true_iff in Hnear as [Hpos%Z.ltb_lt Hlt%Z.ltb_lt].
        rewrite Hla in Hspace by lia.
        destruct (decide (count + i < length (buffer r))); [|done].
        replace (Z.of_nat count + Z.of_nat i + 1)%Z
          with (Z.of_nat (count + i + 1)) by lia.
        rewrite splice0_take. split.
        -- intros k Hk Hk_space Hk_before.
           destruct (lt_eq_lt_dec k i) as [[Hlt'| ->]|Hgt]; [|done|].
           ++ exfalso. apply (Hbefore k Hlt'). rewrite Hla by lia.
              rewrite decide_True; [done|]. by apply lookup_lt_Some in Hk_space.
           ++ by destruct (Hk_before i Hgt).
        -- intros [Hnow|Hnone]; exfalso.
           ++ apply (Hbefore 0); [lia|]. rewrite Hla by lia.
              rewrite Nat.add_0_r. by rewrite decide_True.
           ++ apply (Hnone i); [lia|done].
      * rewrite splice0_take. split; [|done].
        intros k Hk Hk_space Hk_before. exfalso.
        apply andb_false_iff in Hnear as [Hz%Z.ltb_ge|Hfar%Z.ltb_ge].
        -- assert (i = 0) as -> by lia. rewrite Hla in Hspace by lia.
           rewrite Nat.add_0_r in Hspace.
           rewrite decide_True in Hspace by done.
           apply (Hk_before 0); [lia|]. by rewrite Nat.add_0_r.
        -- apply (Hbefore k); [lia|]. rewrite Hla by lia.
           rewrite decide_True; [done|]. by apply lookup_lt_Some in Hk_space.
    + change ((0 <? -1)%Z) with false. cbn [andb].
      rewrite splice0_take. split; [|done].
      intros k Hk Hk_space _. exfalso.
      apply (indexOf_join_None _ _ k Hi). rewrite Hla by lia.
      rewrite decide_True; [done|]. by apply lookup_lt_Some in Hk_space.
  - apply Z.ltb_ge in Hin. rewrite splice0_take. split; [|done].
    intros k Hk Hk_space _. apply lookup_lt_Some in Hk_space. lia.
Qed.

End StreamRendererFacts.

Module IsolationFacts.
Import Js Protocol App.
Import JsMapFacts ReducerFacts.

(** What work on behalf of session [sid] does to the state, whichever
    handler or callback does it. *)
Definition tracked (sid : string) (st st' : State) : Prop :=
  currentSessionId st' = currentSessionId st
  ∧ (∀ c, captures st' c → captures st c)
  ∧ (view st' = view st ∨ captures st (Some sid))
  ∧ (∀ sid', sid' ≠ sid → slots sid' st' = slots sid' st)
  ∧ header <$> messages st `prefix_of` header <$> messages st'
  ∧ (∀ sid', header <$> default [] (messagesPerSession st !! sid')
             `prefix_of` header <$> default [] (messagesPerSession st' !! sid')).

Definition touches (sid : string) (st st' : State) : Prop :=
  tracked sid st st' ∧ activeSessionIds st' = activeSessionIds st.

Lemma touches_refl sid st : touches sid st st.
Proof. unfold touches, tracked. split_and!; try done; try (by left). Qed.

Lemma tracked_trans sid st1 st2 st3 :
  tracked sid st1 st2 → tracked sid st2 st3 → tracked sid st1 st3.
Proof.
  intros (Hc1 & Hcap1 & Hv1 & Hs1 & Hm1 & Hp1) (Hc2 & Hcap2 & Hv2 & Hs2 & Hm2 & Hp2).
  unfold tracked. split_and!.
  - congruence.
  - auto.
  - destruct Hv2 as [Hv2|Hv2]; [|right; auto].
    destruct Hv1 as [Hv1|Hv1]; [left; congruence|by right].
  - intros sid' Hne. rewrite Hs2, Hs1; done.
  - by etrans.
  - intros sid'. etrans; [apply Hp1|apply Hp2].
Qed.

Lemma touches_trans sid st1 st2 st3 :
  touches sid st1 st2 → touches sid st2 st3 → touches sid st1 st3.
Proof.
  intros [H1 Ha1] [H2 Ha2]. split; [by eapply tracked_trans|congruence].
Qed.

Lemma touches_let sid st (a : State) (k : State → State) :
  touches sid st a → (∀ st1, touches sid st1 (k st1)) →
  touches sid st (let st1 := a in k st1).
Proof. intros Ha Hk. exact (touches_trans _ _ _ _ Ha (Hk a)). Qed.

Lemma captures_current sid st :
  isCurrentSession sid st = true → captures st (Some sid).
Proof. intros H%bool_decide_eq_true. by left. Qed.

Lemma captures_focus st : captures st (currentSessionId st).
Proof. by left. Qed.

(** A change of fields other than the focus, the renderers and the
    timers does not change what is captured. *)
Lemma captures_ext st st' c :
  currentSessionId st' = currentSessionId st →
  quantumRenderer st' = quantumRenderer st →
  toolJsonFlushTimer st' = toolJsonFlushTimer st →
  captures st' c ↔ captures st c.
Proof. unfold captures. by intros -> -> ->. Qed.

(** Association lists: what [set] and [delete] leave in them. *)
Lemma get_elem {V} (k : Z) (v : V) (m : list (Z * V)) :
  JsMap.get k m = Some v → (k, v) ∈ m.
Proof.
  induction m as [|[k' v'] m IH]; simpl; [done|].
  destruct (decide (k' = k)) as [->|Hne].
  - intros [= ->]. by left.
  - intros H. right. by apply IH.
Qed.

Lemma set_elem {V} (k i : Z) (v x : V) (m : list (Z * V)) :
  (i, x) ∈ JsMap.set k v m → (i, x) = (k, v) ∨ (i, x) ∈ m.
Proof.
  induction m as [|[k' v'] m IH]; simpl.
  - intros ?%list_elem_of_singleton. by left.
  - destruct (decide (k' = k)) as [->|Hne].
    + intros [->|H]%elem_of_cons; [by left|]. right. by right.
    + intros [->|H]%elem_of_cons; [right; by left|].
      destruct (IH H) as [?|?]; [by left|]. right. by right.
Qed.

Lemma delete_elem {V} (k i : Z) (x : V) (m : list (Z * V)) :
  (i, x) ∈ JsMap.delete k m → (i, x) ∈ m.
Proof.
  induction m as [|[k' v'] m IH]; simpl; [done|].
  destruct (decide (k' = k)) as [->|Hne].
  - intros H. by right.
  - intros [->|H]%elem_of_cons; [by left|]. right. by apply IH.
Qed.

Lemma getSessionMap_ne {V} (sid sid' : string) (m : gmap string (list (Z * V))) :
  sid' ≠ sid → getSessionMap sid m !! sid' = m !! sid'.
Proof.
  intros Hne. unfold getSessionMap. destruct (m !! sid); [done|].
  by rewrite lookup_insert_ne.
Qed.

Lemma getSessionMap_elem {V} (sid sid' : string) (m : gmap string (list (Z * V)))
    (l : list (Z * V)) (e : Z * V) :
  getSessionMap sid m !! sid' = Some l → e ∈ l → m !! sid' = Some l.
Proof.
  unfold getSessionMap. destruct (m !! sid) eqn:Hm; [done|].
  destruct (decide (sid = sid')) as [->|Hne].
  - rewrite lookup_insert_eq. intros [= <-] H. by apply elem_of_nil in H.
  - by rewrite lookup_insert_ne.
Qed.

(** The leaves: one record update, or a few. *)
Ltac solve_touches :=
  unfold touches, tracked, view, slots; state_proj;
  split_and!;
  [ done
  | first [ by intros ?c; apply captures_ext | idtac ]
  | first [ by left | by right; apply captures_current | by right | idtac ]
  | first [ by intros ?sid' ?Hne;
               rewrite ?lookup_insert_ne, ?getSessionMap_ne by done
          | idtac ]
  | first [ done | idtac ]
  | first [ done | idtac ]
  | first [ done | idtac ] ].

(** Messages are only rewritten in place or appended to. *)
Definition extends (f : list Message → list Message) : Prop :=
  ∀ l, header <$> l `prefix_of` header <$> f l.

Lemma map_message_extends msgId (g : Message → Message) :
  (∀ m, header (g m) = header m) → extends (map_message msgId g).
Proof.
  intros Hg l. unfold map_message.
  assert (header <$> ((λ msg, if decide (msg_id msg = msgId) then g msg else msg) <$> l)
          = header <$> l) as ->; [|done].
  induction l as [|m l IH]; [done|]. rewrite !fmap_cons, IH. f_equal.
  by destruct (decide _).
Qed.

Lemma append_extends (m : Message) : extends (λ prev, prev ++ [m]).
Proof. intros l. rewrite fmap_app. by apply prefix_app_r. Qed.

Lemma map_block_header blockIndex f msg : header (map_block blockIndex f msg) = header msg.
Proof. unfold map_block. by destruct (at_index _ _). Qed.

Lemma updateSessionInfo_touches sid f st : touches sid st (updateSessionInfo sid f st).
Proof.
  unfold updateSessionInfo. destruct (decide (Some sid = currentSessionId st)).
  - assert (isCurrentSession sid st = true) by by apply bool_decide_eq_true_2.
    solve_touches.
  - solve_touches.
Qed.

Lemma update_messages_touches captured sid f st :
  captures st captured → extends f →
  touches sid st (update_messages captured sid f st).
Proof.
  intros Hcap Hf. unfold update_messages.
  destruct (decide (Some sid = captured)) as [<-|Hne].
  - solve_touches.
  - solve_touches. intros sid'.
    destruct (decide (sid = sid')) as [<-|Hne'].
    + rewrite lookup_insert_eq. apply Hf.
    + by rewrite lookup_insert_ne.
Qed.

Lemma updateSessionMessages_touches sid f st :
  extends f → touches sid st (updateSessionMessages sid f st).
Proof. apply update_messages_touches, captures_focus. Qed.

Lemma update_messages_captures captured sid f st c :
  captures (update_messages captured sid f st) c ↔ captures st c.
Proof.
  unfold update_messages. destruct (decide _); by apply captures_ext.
Qed.

Lemma onRender_touches captured sid blockIndex text st :
  captures st captured → touches sid st (onRender captured sid blockIndex text st).
Proof.
  intros Hcap. unfold onRender. destruct (current_msgId sid st); [|apply touches_refl].
  apply update_messages_touches; [done|].
  apply map_message_extends. intros m. apply map_block_header.
Qed.

Lemma onRender_captures captured sid blockIndex text st c :
  captures (onRender captured sid blockIndex text st) c ↔ captures st c.
Proof.
  unfold onRender. destruct (current_msgId sid st); [|done].
  apply update_messages_captures.
Qed.

Lemma onRender_renderers captured sid blockIndex text st :
  quantumRenderer (onRender captured sid blockIndex text st) = quantumRenderer st.
Proof.
  unfold onRender, update_messages. destruct (current_msgId sid st); [|done].
  by destruct (decide _).
Qed.

Lemma renderer_flush_touches sid st entry :
  captures st (r_current entry.2) → touches sid st (renderer_flush sid st entry).
Proof.
  destruct entry as [i r]. intros Hcap. unfold renderer_flush.
  destruct (truthy (r_buffer r)); [by apply onRender_touches|apply touches_refl].
Qed.

Lemma renderer_flush_captures sid st entry c :
  captures (renderer_flush sid st entry) c ↔ captures st c.
Proof.
  destruct entry as [i r]. unfold renderer_flush.
  destruct (truthy (r_buffer r)); [apply onRender_captures|done].
Qed.

Lemma renderer_flush_renderers sid st entry :
  quantumRenderer (renderer_flush sid st entry) = quantumRenderer st.
Proof.
  destruct entry as [i r]. unfold renderer_flush.
  destruct (truthy (r_buffer r)); [apply onRender_renderers|done].
Qed.

Lemma flush_all_touches sid renderers st :
  (∀ entry, entry ∈ renderers → captures st (r_current entry.2)) →
  touches sid st (foldl (renderer_flush sid) st renderers)
  ∧ quantumRenderer (foldl (renderer_flush sid) st renderers) = quantumRenderer st.
Proof.
  revert st. induction renderers as [|entry renderers IH]; intros st Hall.
  - split; [apply touches_refl|done].
  - cbn [foldl].
    destruct (IH (renderer_flush sid st entry)) as [Ht Hq].
    { intros e He. apply renderer_flush_captures. apply Hall. by right. }
    split.
    + eapply touches_trans; [|exact Ht].
      apply renderer_flush_touches, Hall. by left.
    + by rewrite Hq, renderer_flush_renderers.
Qed.

Lemma captures_renderer st sid renderers i r :
  quantumRenderer st !! sid = Some renderers → (i, r) ∈ renderers →
  captures st (r_current r).
Proof. intros Hq Hin. right. left. by exists sid, renderers, i, r. Qed.

Lemma cleanupQuantumRenderers_touches sid st :
  touches sid st (cleanupQuantumRenderers sid st).
Proof.
  unfold cleanupQuantumRenderers.
  destruct (quantumRenderer st !! sid) as [renderers|] eqn:Hq; [|apply touches_refl].
  destruct (flush_all_touches sid renderers st) as [Ht Hsame].
  { intros [i r] Hin. by eapply captures_renderer. }
  cbv zeta. eapply touches_trans; [exact Ht|].
  generalize (foldl (renderer_flush sid) st renderers). intros st1.
  solve_touches.
  - intros c [->|[(sid' & rs & i & r & Hrs & Hin & Hc)|Htimer]];
      [by left| |by right; right].
    cbn [quantumRenderer set_quantumRenderer] in Hrs.
    destruct (decide (sid = sid')) as [<-|Hne].
    + rewrite lookup_insert_eq in Hrs. injection Hrs as <-. by apply elem_of_nil in Hin.
    + rewrite lookup_insert_ne in Hrs by done. right. left. by exists sid', rs, i, r.
Qed.

Lemma session_map_elem {V} (sid : string) (m : gmap string (list (Z * V)))
    (e : Z * V) :
  e ∈ session_map sid m → m !! sid = Some (session_map sid m).
Proof.
  unfold session_map. destruct (m !! sid); [done|].
  intros H. by apply elem_of_nil in H.
Qed.

(** Renderers and timers: what is put into the refs for [sid] must have
    closed over a value that was captured before. *)
Lemma set_renderers_touches sid st (rs : list (Z * Renderer)) :
  (∀ e, e ∈ rs → captures st (r_current e.2)) →
  touches sid st (set_quantumRenderer (<[sid := rs]> (quantumRenderer st)) st).
Proof.
  intros Hrs. solve_touches.
  intros c [->|[(sid' & rs' & i & r & Hrs' & Hin & Hc)|Htimer]];
    [by left| |by right; right].
  cbn [quantumRenderer set_quantumRenderer] in Hrs'.
  destruct (decide (sid = sid')) as [<-|Hne].
  - rewrite lookup_insert_eq in Hrs'. injection Hrs' as <-.
    rewrite <- Hc. by apply (Hrs (i, r)).
  - rewrite lookup_insert_ne in Hrs' by done. right. left. by exists sid', rs', i, r.
Qed.

Lemma set_timer_touches sid st (t : option Timer) :
  (∀ timer, t = Some timer → captures st (t_current timer)) →
  touches sid st (set_toolJsonFlushTimer (<[sid := t]> (toolJsonFlushTimer st)) st).
Proof.
  intros Ht. solve_touches.
  intros c [->|[Hrenderer|(sid' & timer & Htimer & Hc)]];
    [by left|by right; left|].
  cbn [toolJsonFlushTimer set_toolJsonFlushTimer] in Htimer.
  destruct (decide (sid = sid')) as [<-|Hne].
  - rewrite lookup_insert_eq in Htimer. injection Htimer as ->.
    rewrite <- Hc. by apply Ht.
  - rewrite lookup_insert_ne in Htimer by done. right. right. by exists sid', timer.
Qed.

Lemma ensureFlushTimer_touches sid st : touches sid st (ensureFlushTimer sid st).
Proof.
  unfold ensureFlushTimer.
  destruct (toolJsonFlushTimer st !! sid) as [[timer|]|];
    [apply touches_refl|..];
    apply set_timer_touches; intros timer [= <-]; by left.
Qed.

Lemma stopFlushTimer_touches sid st : touches sid st (stopFlushTimer sid st).
Proof.
  unfold stopFlushTimer.
  destruct (toolJsonFlushTimer st !! sid) as [[timer|]|]; [|apply touches_refl..].
  by apply set_timer_touches.
Qed.

Lemma renderer_onData_touches sid blockIndex chunk st :
  touches sid st (renderer_onData sid blockIndex chunk st).
Proof.
  unfold renderer_onData. cbv zeta. apply set_renderers_touches.
  intros [i r] [[= -> ->]|Hin]%set_elem; cbn [snd r_current set_r_buffer].
  - destruct (JsMap.get blockIndex (session_map sid (quantumRenderer st)))
      as [r|] eqn:Hget; cbn [default from_option Datatypes.id r_current];
      [|by left].
    apply get_elem in Hget. pose proof (session_map_elem _ _ _ Hget).
    by eapply captures_renderer.
  - pose proof (session_map_elem _ _ _ Hin). by eapply captures_renderer.
Qed.

Lemma renderer_frame_touches sid blockIndex n st :
  touches sid st (renderer_frame sid blockIndex n st).
Proof.
  unfold renderer_frame.
  destruct (JsMap.get blockIndex (session_map sid (quantumRenderer st)))
    as [r|] eqn:Hget; [|apply touches_refl].
  destruct (negb (truthy (r_buffer r)) || (n =? 0)); [apply touches_refl|].
  cbv zeta. apply get_elem in Hget. pose proof (session_map_elem _ _ _ Hget) as Hq.
  match goal with
  | |- touches _ _ (onRender _ _ _ _ ?s1) => apply (touches_trans _ _ s1)
  end.
  - apply set_renderers_touches.
    intros [i r0] [[= -> ->]|Hin]%set_elem; cbn [snd r_current set_r_buffer];
      by eapply captures_renderer.
  - apply onRender_touches. right. left.
    exists sid, (JsMap.set blockIndex (set_r_buffer (substring_from n (r_buffer r)) r)
                   (session_map sid (quantumRenderer st))),
      blockIndex, (set_r_buffer (substring_from n (r_buffer r)) r).
    cbn [quantumRenderer set_quantumRenderer]. rewrite lookup_insert_eq.
    split_and!; [done| |done]. apply get_elem, get_set_eq.
Qed.

Lemma stop_renderer_touches sid blockIndex st :
  touches sid st (stop_renderer sid blockIndex st).
Proof.
  unfold stop_renderer.
  destruct (quantumRenderer st !! sid) as [sessionRenderers|] eqn:Hq;
    [|apply touches_refl].
  destruct (JsMap.get blockIndex sessionRenderers) as [renderer|] eqn:Hget;
    [|apply touches_refl].
  cbv zeta. apply get_elem in Hget.
  apply (touches_trans _ _ (renderer_flush sid st (blockIndex, renderer))).
  - apply renderer_flush_touches. by eapply captures_renderer.
  - apply set_renderers_touches. intros [i r] Hin%delete_elem.
    apply renderer_flush_captures. by eapply captures_renderer.
Qed.

Lemma foldl_flush_block_header accumulator indices msg :
  header (foldl (flush_block accumulator) msg indices) = header msg.
Proof.
  revert msg. induction indices as [|idx indices IH]; intros msg; [done|].
  cbn [foldl]. rewrite IH. unfold flush_block.
  destruct (JsMap.get idx accumulator) as [accumulated|]; [|done].
  destruct (truthy accumulated); [apply map_block_header|done].
Qed.

Lemma flushToolJson_touches captured sid blockIndex st :
  captures st captured → touches sid st (flushToolJson captured sid blockIndex st).
Proof.
  intros Hcap. unfold flushToolJson.
  destruct (current_msgId sid st) as [msgId|]; [|apply touches_refl].
  cbv zeta.
  destruct (length _ =? 0); [solve_touches|].
  destruct (negb _); [solve_touches|].
  eapply touches_trans; [|apply update_messages_touches].
  - solve_touches.
  - refine (proj2 (captures_ext st _ _ _ _ _) Hcap); reflexivity.
  - apply map_message_extends. intros m. apply foldl_flush_block_header.
Qed.

Lemma flush_timer_tick_touches sid st : touches sid st (flush_timer_tick sid st).
Proof.
  unfold flush_timer_tick.
  destruct (toolJsonFlushTimer st !! sid) as [[timer|]|] eqn:Ht;
    [|apply touches_refl..].
  apply flushToolJson_touches. right. right. by exists sid, timer.
Qed.

Lemma touches_tracked sid st st' : touches sid st st' → tracked sid st st'.
Proof. by intros [? _]. Qed.

Lemma set_activeSessionIds_tracked sid v st :
  tracked sid st (set_activeSessionIds v st).
Proof.
  unfold tracked, view, slots; state_proj.
  split_and!; [done|by intros c; apply captures_ext|by left|done..].
Qed.

Ltac solve_extends :=
  first [ apply append_extends
        | apply map_message_extends; intros ?m;
          first [ apply map_block_header | reflexivity ] ].

(** A handler is followed through its successive states; each step is one
    of the operations above. *)
Ltac touch :=
  tryif lazymatch goal with |- touches _ ?s ?t => constr_eq s t end
  then apply touches_refl
  else lazymatch goal with
  | |- touches ?sid ?s (let x := ?a in @?k x) =>
    let T := type of a in
    lazymatch T with
    | State =>
      refine (touches_let sid s a k _ _);
      [touch | let st := fresh "st" in intros st; cbv beta; touch]
    | _ => change (touches sid s (k a)); cbv beta; touch
    end
  | |- touches ?sid ?s (snd (let x := ?a in @?k x)) =>
    change (touches sid s (let x := a in snd (k x))); touch
  | |- touches ?sid ?s (snd (_, ?b)) => change (touches sid s b); touch
  | |- touches _ ?s (updateSessionInfo _ _ ?s') =>
    touch_via s s' ltac:(apply updateSessionInfo_touches)
  | |- touches _ ?s (updateSessionMessages _ _ ?s') =>
    touch_via s s' ltac:(apply updateSessionMessages_touches; solve_extends)
  | |- touches _ ?s (renderer_onData _ _ _ ?s') =>
    touch_via s s' ltac:(apply renderer_onData_touches)
  | |- touches _ ?s (ensureFlushTimer _ ?s') =>
    touch_via s s' ltac:(apply ensureFlushTimer_touches)
  | |- touches _ ?s (stopFlushTimer _ ?s') =>
    touch_via s s' ltac:(apply stopFlushTimer_touches)
  | |- touches _ ?s (stop_renderer _ _ ?s') =>
    touch_via s s' ltac:(apply stop_renderer_touches)
  | |- touches _ ?s (cleanupQuantumRenderers _ ?s') =>
    touch_via s s' ltac:(apply cleanupQuantumRenderers_touches)
  | |- touches _ _ (match (_, _) with _ => _ end) => cbv beta iota; touch
  | |- touches _ _ (match (match ?c with _ => _ end) with _ => _ end) =>
    destruct c eqn:?; touch
  | |- touches _ _ (match ?o with _ => _ end) => destruct o eqn:?; touch
  | |- touches _ _ (snd (match ?o with _ => _ end)) => destruct o eqn:?; touch
  | |- _ => solve_touches
  end
with touch_via s s' tac :=
  tryif constr_eq s s' then tac
  else (apply (touches_trans _ s s'); [touch | tac]).

Section Cases.
Context (generateId_at : nat → string).
Context (JSON_parse : string → option json).
Context (stringify_input : option json → string).
Context (stringify_block : BlockInit → string).

Local Abbreviation handle :=
  (handleStreamEvent generateId_at JSON_parse stringify_input stringify_block).
Local Abbreviation step :=
  (App.step generateId_at JSON_parse stringify_input stringify_block).
Local Abbreviation run :=
  (App.run generateId_at JSON_parse stringify_input stringify_block).

Lemma case_system_touches sid data st : touches sid st (case_system sid data st).
Proof. cbv beta delta [case_system]. touch. Qed.

Lemma case_message_start_touches now sid data st :
  touches sid st (case_message_start generateId_at now sid data st).
Proof. cbv beta delta [case_message_start generateId]. touch. Qed.

Lemma case_content_block_start_touches sid data st :
  touches sid st (case_content_block_start generateId_at sid data st).
Proof. cbv beta delta [case_content_block_start generateId]. touch. Qed.

Lemma case_content_block_delta_touches sid data st :
  touches sid st (case_content_block_delta sid data st).
Proof. cbv beta delta [case_content_block_delta]. touch. Qed.

Lemma take_accumulated_touches sid blockIndex st :
  touches sid st (take_accumulated sid blockIndex st).2.
Proof. cbv beta delta [take_accumulated]. touch. Qed.

Lemma take_tool_input_touches sid blockIndex finalJsonContent st :
  touches sid st (take_tool_input JSON_parse sid blockIndex finalJsonContent st).2.
Proof. cbv beta delta [take_tool_input]. touch. Qed.

Lemma case_content_block_stop_touches sid data st :
  touches sid st (case_content_block_stop JSON_parse sid data st).
Proof.
  cbv beta delta [case_content_block_stop].
  destruct (current_msgId sid st) as [msgId|]; [|apply touches_refl].
  cbv zeta.
  apply (touches_trans _ _ (stop_renderer sid (event_blockIndex sid data st) st));
    [apply stop_renderer_touches|].
  generalize (stop_renderer sid (event_blockIndex sid data st) st).
  generalize (event_blockIndex sid data st). intros blockIndex st1.
  pose proof (take_accumulated_touches sid blockIndex st1) as H1.
  destruct (take_accumulated sid blockIndex st1) as [finalJsonContent st2].
  cbn [snd] in H1. eapply touches_trans; [exact H1|]. clear H1.
  pose proof (take_tool_input_touches sid blockIndex finalJsonContent st2) as H2.
  destruct (take_tool_input JSON_parse sid blockIndex finalJsonContent st2)
    as [preParsedInput st3].
  cbn [snd] in H2. eapply touches_trans; [exact H2|]. clear H2.
  touch.
Qed.

Lemma case_message_delta_touches sid data st :
  touches sid st (case_message_delta sid data st).
Proof. cbv beta delta [case_message_delta]. touch. Qed.

Lemma case_message_stop_touches sid st : touches sid st (case_message_stop sid st).
Proof. cbv beta delta [case_message_stop]. touch. Qed.

Lemma case_assistant_touches now sid data st :
  touches sid st
    (case_assistant generateId_at stringify_input stringify_block now sid data st).
Proof. cbv beta delta [case_assistant generateId]. touch. Qed.

Lemma case_result_touches sid data st : touches sid st (case_result sid data st).
Proof. cbv beta delta [case_result]. touch. Qed.

Lemma handle_other now event st :
  String.eqb (e_type event) "status" = false →
  touches (e_sessionId event) st (handle now event st).
Proof.
  intros Hstatus. cbv beta delta [handleStreamEvent]. cbv zeta. rewrite Hstatus.
  destruct (String.eqb (e_type event) "error"); [touch|].
  destruct (String.eqb (e_type event) "heartbeat"); [apply touches_refl|].
  destruct (reducer_data event) as [data|]; [|apply touches_refl].
  destruct (negb (truthy (e_sessionId event))); [apply touches_refl|].
  destruct (bool_decide (p_type data = Some "system")); [apply case_system_touches|].
  destruct (bool_decide (p_type data = Some "message_start"));
    [apply case_message_start_touches|].
  destruct (bool_decide (p_type data = Some "content_block_start"));
    [apply case_content_block_start_touches|].
  destruct (bool_decide (p_type data = Some "content_block_delta"));
    [apply case_content_block_delta_touches|].
  destruct (bool_decide (p_type data = Some "content_block_stop"));
    [apply case_content_block_stop_touches|].
  destruct (bool_decide (p_type data = Some "message_delta"));
    [apply case_message_delta_touches|].
  destruct (bool_decide (p_type data = Some "message_stop"));
    [apply case_message_stop_touches|].
  destruct (bool_decide (p_type data = Some "assistant"));
    [apply case_assistant_touches|].
  destruct (bool_decide (p_type data = Some "result"));
    [apply case_result_touches|apply touches_refl].
Qed.

(** The status events: the only ones that change the list of active
    sessions. *)
Lemma handle_status now event st :
  String.eqb (e_type event) "status" = true →
  tracked (e_sessionId event) st (handle now event st)
  ∧ activeSessionIds (handle now event st) =
      if truthy (e_sessionId event) then
        if bool_decide (e_status event = Some "started") then
          if bool_decide (e_sessionId event ∈ activeSessionIds st)
          then activeSessionIds st
          else activeSessionIds st ++ [e_sessionId event]
        else if bool_decide (e_status event = Some "stopped") then
          filter (λ id, id ≠ e_sessionId event) (activeSessionIds st)
        else activeSessionIds st
      else activeSessionIds st.
Proof.
  intros Hstatus. cbv beta delta [handleStreamEvent]. cbv zeta. rewrite Hstatus.
  destruct (truthy (e_sessionId event)); [|split; [apply touches_tracked, touches_refl|done]].
  destruct (bool_decide (e_status event = Some "started")).
  - match goal with
    | |- context [set_activeSessionIds ?l st] =>
      generalize l; intros l';
      pose proof (set_activeSessionIds_tracked (e_sessionId event) l' st) as Ht;
      assert (activeSessionIds (set_activeSessionIds l' st) = l') as Ha by done;
      revert Ht Ha; generalize (set_activeSessionIds l' st); intros st1 Ht Ha
    end.
    assert (touches (e_sessionId event) st1
              (if isCurrentSession (e_sessionId event) st1
               then set_isConnected true st1 else st1)) as [Ht' Ha'] by touch.
    split; [by eapply tracked_trans|congruence].
  - destruct (bool_decide (e_status event = Some "stopped"));
      [|split; [apply touches_tracked, touches_refl|done]].
    match goal with
    | |- context [set_activeSessionIds ?l st] =>
      generalize l; intros l';
      pose proof (set_activeSessionIds_tracked (e_sessionId event) l' st) as Ht;
      assert (activeSessionIds (set_activeSessionIds l' st) = l') as Ha by done;
      revert Ht Ha; generalize (set_activeSessionIds l' st); intros st1 Ht Ha
    end.
    match goal with
    | |- tracked _ _ ?s ∧ _ =>
      assert (touches (e_sessionId event) st1 s) as [Ht' Ha'] by touch
    end.
    split; [by eapply tracked_trans|congruence].
Qed.

Lemma step_tracked st input : tracked (input_session input) st (step st input).
Proof.
  destruct input as [now event|sid blockIndex amount|sid]; cbn [App.step input_session].
  - destruct (String.eqb (e_type event) "status") eqn:Hstatus.
    + by apply handle_status.
    + by apply touches_tracked, handle_other.
  - apply touches_tracked, renderer_frame_touches.
  - apply touches_tracked, flush_timer_tick_touches.
Qed.

Lemma step_active sid st input :
  sid ∈ activeSessionIds (step st input) ↔
    match status_of sid input with
    | Some b => b = true
    | None => sid ∈ activeSessionIds st
    end.
Proof.
  destruct input as [now event|sid' blockIndex amount|sid'];
    cbn [App.step status_of].
  - destruct (String.eqb (e_type event) "status") eqn:Hstatus.
    + destruct (handle_status now event st Hstatus) as [_ ->]. cbn [andb].
      destruct (truthy (e_sessionId event)); [|done]. cbn [andb].
      destruct (bool_decide (e_status event = Some "started")).
      * destruct (bool_decide (e_sessionId event ∈ activeSessionIds st)) eqn:Hin.
        -- apply bool_decide_eq_true in Hin.
           destruct (bool_decide (e_sessionId event = sid)) eqn:Hsid; [|done].
           apply bool_decide_eq_true in Hsid as <-. done.
        -- rewrite elem_of_app, list_elem_of_singleton.
           destruct (bool_decide (e_sessionId event = sid)) eqn:Hsid.
           ++ apply bool_decide_eq_true in Hsid. split; [done|]. intros _. by right.
           ++ apply bool_decide_eq_false in Hsid. split; [|by left].
              intros [?|?]; [done|]. by destruct Hsid.
      * destruct (bool_decide (e_status event = Some "stopped")).
        -- rewrite list_elem_of_filter.
           destruct (bool_decide (e_sessionId event = sid)) eqn:Hsid.
           ++ apply bool_decide_eq_true in Hsid. split; [by intros [? _]|done].
           ++ apply bool_decide_eq_false in Hsid. split; [by intros [_ ?]|].
              intros ?. split; [|done]. intros ->. by apply Hsid.
        -- by destruct (bool_decide (e_sessionId event = sid)).
    + destruct (handle_other now event st Hstatus) as [_ ->]. done.
  - by destruct (renderer_frame_touches sid' blockIndex amount st) as [_ ->].
  - by destruct (flush_timer_tick_touches sid' st) as [_ ->].
Qed.

Lemma step_NoDup st input :
  NoDup (activeSessionIds st) → NoDup (activeSessionIds (step st input)).
Proof.
  intros Hnd.
  destruct input as [now event|sid' blockIndex amount|sid']; cbn [App.step].
  - destruct (String.eqb (e_type event) "status") eqn:Hstatus.
    + destruct (handle_status now event st Hstatus) as [_ ->].
      destruct (truthy (e_sessionId event)); [|done].
      destruct (bool_decide (e_status event = Some "started")).
      * destruct (bool_decide (e_sessionId event ∈ activeSessionIds st)) eqn:Hin;
          [done|].
        apply bool_decide_eq_false in Hin. apply NoDup_app. split_and!; [done| |].
        -- intros x Hx ->%list_elem_of_singleton. done.
        -- apply NoDup_singleton.
      * destruct (bool_decide (e_status event = Some "stopped")); [|done].
        by apply NoDup_filter.
    + by destruct (handle_other now event st Hstatus) as [_ ->].
  - by destruct (renderer_frame_touches sid' blockIndex amount st) as [_ ->].
  - by destruct (flush_timer_tick_touches sid' st) as [_ ->].
Qed.

(** X17. Work on behalf of some sessions leaves the refs of every other
    session as they were: its messages, counters, to-do list, streaming
    flag, thinking status, in-flight message, block cursor, agent session
    id, start time, accumulated tool input, flush timer, flushed lengths,
    tool names and renderers. *)
Theorem other_sessions_untouched (inputs : list Input) (st : State) (sid : string) :
  Forall (λ input, input_session input ≠ sid) inputs →
  slots sid (run inputs st) = slots sid st.
Proof.
  revert st. induction inputs as [|input inputs IH]; intros st Hall; [done|].
  apply Forall_cons in Hall as [Hne Hall]. cbn [App.run foldl].
  fold (run inputs (step st input)). rewrite IH by done.
  destruct (step_tracked st input) as (_ & _ & _ & Hslots & _). by apply Hslots.
Qed.

Lemma step_focus_captured st input :
  focus_captured st → focus_captured (step st input).
Proof.
  intros Hf c Hc. destruct (step_tracked st input) as (Hcur & Hcap & _).
  rewrite Hcur. by apply Hf, Hcap.
Qed.

(** X18. While the callbacks see the focus as it is, inputs of background
    sessions leave all that is shown of the focused session as it was:
    its messages, streaming and connection flags, counters, agent session
    id, error, thinking status, to-do list and stream start. *)
Theorem background_leaves_view (inputs : list Input) (st : State) :
  focus_captured st →
  Forall (λ input, Some (input_session input) ≠ currentSessionId st) inputs →
  view (run inputs st) = view st.
Proof.
  revert st. induction inputs as [|input inputs IH]; intros st Hf Hall; [done|].
  apply Forall_cons in Hall as [Hne Hall]. cbn [App.run foldl].
  fold (run inputs (step st input)).
  destruct (step_tracked st input) as (Hcur & _ & Hview & _).
  rewrite IH.
  - destruct Hview as [Hview|Hcap]; [done|]. by destruct (Hne (Hf _ Hcap)).
  - by apply step_focus_captured.
  - by rewrite Hcur.
Qed.

Lemma focus_captured_initial current : focus_captured (initial_state current).
Proof.
  intros c [->|[(sid & rs & i & r & Hrs & _)|(sid & timer & Ht & _)]]; [done|..].
  - cbv [initial_state quantumRenderer] in Hrs. by rewrite lookup_empty in Hrs.
  - cbv [initial_state toolJsonFlushTimer] in Ht. by rewrite lookup_empty in Ht.
Qed.

Lemma focus_captured_closures_ok st : focus_captured st → closures_ok st.
Proof.
  intros Hf. split.
  - intros sid renderers i r Hrs Hget%get_elem. apply Hf. by eapply captures_renderer.
  - intros sid timer Ht. apply Hf. right. right. by exists sid, timer.
Qed.

(** X19. The reducer never changes the focus, and every renderer and
    flush timer it creates closes over the focus as it is: from the
    initial state, after any inputs, their callbacks see the same
    [currentSessionId] as the reducer. *)
Theorem callbacks_see_the_focus (inputs : list Input) (current : option string) :
  let st := run inputs (initial_state current) in
  currentSessionId st = current ∧ focus_captured st ∧ closures_ok st.
Proof.
  cbn zeta.
  assert (∀ st, focus_captured st →
            currentSessionId (run inputs st) = currentSessionId st
            ∧ focus_captured (run inputs st)) as Hrun.
  { induction inputs as [|input inputs IH]; intros st Hf; [done|].
    cbn [App.run foldl]. fold (run inputs (step st input)).
    destruct (IH (step st input)) as [Hcur Hf']; [by apply step_focus_captured|].
    split; [|done]. rewrite Hcur. by destruct (step_tracked st input) as [? _]. }
  destruct (Hrun _ (focus_captured_initial current)) as [Hcur Hf].
  split_and!; [done|done|by apply focus_captured_closures_ok].
Qed.

(** X20. A conversation only grows: after any inputs the messages of every
    session begin with the messages it had before, in the same order and
    each with the same id, role and timestamp; inputs rewrite the content
    of messages and append new ones, but never drop or reorder them. *)
Theorem history_is_append_only (inputs : list Input) (st : State) (sid : string) :
  header <$> session_messages sid st
  `prefix_of` header <$> session_messages sid (run inputs st).
Proof.
  revert st. induction inputs as [|input inputs IH]; intros st; [done|].
  cbn [App.run foldl]. fold (run inputs (step st input)).
  etrans; [|apply IH].
  destruct (step_tracked st input) as (Hcur & _ & _ & _ & Hview & Hrefs).
  unfold session_messages. rewrite Hcur.
  destruct (decide (Some sid = currentSessionId st)); [done|apply Hrefs].
Qed.

(** X21. The list of active sessions follows the status events: after any
    inputs, a session is listed exactly when the latest "started" or
    "stopped" status for it was "started" (or, with no such status among
    the inputs, when it was listed before), and a list without duplicates
    stays without duplicates. *)
Theorem active_sessions_follow_status (inputs : list Input) (st : State)
    (sid : string) :
  (sid ∈ activeSessionIds (run inputs st) ↔
     match last_status sid inputs with
     | Some started => started = true
     | None => sid ∈ activeSessionIds st
     end)
  ∧ (NoDup (activeSessionIds st) → NoDup (activeSessionIds (run inputs st))).
Proof.
  revert st. induction inputs as [|input inputs IH]; intros st; [done|].
  cbn [App.run foldl last_status]. destruct (IH (step st input)) as [IHin IHnd].
  split.
  - fold (run inputs (step st input)). rewrite IHin.
    destruct (last_status sid inputs); [done|]. apply step_active.
  - intros Hnd. by apply IHnd, step_NoDup.
Qed.

End Cases.

Lemma other_sessions_untouched_witness :
  slots "s2"
    (App.run (λ _, "id") (λ _, None) (λ _, "") (λ _, "")
       (arrivals Z.of_nat (scenario1 "s1" None None)
        ++ [Frame "s1" 0 3; FlushTick "s1"])
       (initial_state (Some "s2")))
  = slots "s2" (initial_state (Some "s2")).
Proof.
  apply (other_sessions_untouched (λ _, "id") (λ _, None) (λ _, "") (λ _, "")
           (arrivals Z.of_nat (scenario1 "s1" None None)
            ++ [Frame "s1" 0 3; FlushTick "s1"])
           (initial_state (Some "s2")) "s2").
  repeat (constructor; [by vm_compute|]). constructor.
Defined.

Lemma background_leaves_view_witness :
  view
    (App.run (λ _, "id") (λ _, None) (λ _, "") (λ _, "")
       (arrivals Z.of_nat (scenario1 "s1" None None)
        ++ [Frame "s1" 0 3; FlushTick "s1"])
       (initial_state (Some "s2")))
  = view (initial_state (Some "s2")).
Proof.
  apply (background_leaves_view (λ _, "id") (λ _, None) (λ _, "") (λ _, "")
           (arrivals Z.of_nat (scenario1 "s1" None None)
            ++ [Frame "s1" 0 3; FlushTick "s1"])
           (initial_state (Some "s2"))).
  - apply focus_captured_initial.
  - repeat (constructor; [by vm_compute|]). constructor.
Defined.

End IsolationFacts.

Module AutoTitleFacts.
Import Js App.
Import LineFramerFacts.

Lemma length_substring_to (n : nat) (s : string) :
  String.length (substring_to n s) ≤ n
  ∧ String.length (substring_to n s) ≤ String.length s.
Proof.
  revert s. induction n as [|n IH]; intros [|a s]; simpl; try lia.
  destruct (IH s). lia.
Qed.

Lemma length_rev_app (s t : string) :
  String.length (String.rev_app s t) = String.length s + String.length t.
Proof.
  revert t. induction s as [|a s IH]; intros t; [done|].
  simpl. rewrite IH. simpl. lia.
Qed.

Lemma length_rev (s : string) : String.length (String.rev s) = String.length s.
Proof. unfold String.rev. rewrite length_rev_app. simpl. lia. Qed.

Lemma length_strip_start (p : ascii → bool) (s : string) :
  String.length (strip_start p s) ≤ String.length s.
Proof. induction s as [|a s IH]; simpl; [lia|]. destruct (p a); simpl; lia. Qed.

Lemma length_strip_end (p : ascii → bool) (s : string) :
  String.length (strip_end p s) ≤ String.length s.
Proof.
  unfold strip_end. rewrite length_rev.
  etrans; [apply length_strip_start|]. by rewrite length_rev.
Qed.

Lemma length_trimStart (s : string) :
  String.length (trimStart s) ≤ String.length s.
Proof.
  induction s as [|a s IH]; simpl; [lia|]. destruct (is_whitespace a); simpl; lia.
Qed.

Lemma length_trim (s : string) : String.length (trim s) ≤ String.length s.
Proof.
  unfold trim, trimEnd. rewrite length_rev.
  etrans; [apply length_trimStart|]. rewrite length_rev. apply length_trimStart.
Qed.

Lemma lastIndexOf_lt (c : ascii) (s : string) (i : nat) :
  lastIndexOf c s = Some i → i < String.length s.
Proof.
  revert i. induction s as [|a s IH]; intros i; simpl; [done|].
  destruct (lastIndexOf c s) as [j|].
  - intros [= <-]. specialize (IH j eq_refl). lia.
  - destruct (Ascii.eqb a c); [|done]. intros [= <-]. lia.
Qed.

Lemma truthy_length (s : string) : truthy s = false → String.length s = 0.
Proof. by destruct s. Qed.

Section Facts.
Context (toUpperCase : string → string).

(** X22. A session title is never empty and never longer than 62
    characters, whatever the first message is and however long; a message
    that is empty or blank gives "New Session". *)
Theorem auto_title_bounds (firstMessage : string) :
  let title := generateAutoTitle toUpperCase firstMessage in
  title ≠ ""
  ∧ String.length title ≤ 62
  ∧ (trim firstMessage = "" → title = "New Session").
Proof.
  cbn zeta. unfold generateAutoTitle.
  destruct (negb (truthy firstMessage) || (String.length (trim firstMessage) =? 0))
    eqn:Hblank.
  { split_and!; [done|simpl; lia|done]. }
  apply orb_false_iff in Hblank as [_ Hlen%Nat.eqb_neq].
  cbv zeta.
  match goal with
  | |- context [trim_phrase toUpperCase ?l ?t ?ps] =>
    generalize (trim_phrase toUpperCase l t ps)
  end.
  intros title.
  match goal with
  | |- context [strip_end is_trailing_punctuation ?t] =>
    assert (String.length t ≤ 62) as Hbound; [|revert Hbound; generalize t]
  end.
  { destruct ((0 <? _)%Z && (_ <? 60)%Z) eqn:Hsentence.
    - apply andb_true_iff in Hsentence as [_ Hlt%Z.ltb_lt].
      destruct (length_substring_to
                  (Z.to_nat (index_or_minus1 (search is_sentence_end title))) title).
      lia.
    - destruct (60 <? String.length title) eqn:Hlong.
      + destruct (30 <? _)%Z eqn:Hbreak.
        * rewrite string_app_length. change (String.length "...") with 3.
          destruct (lastIndexOf " " (substring_to 60 title)) as [i|] eqn:Hi;
            [|done].
          apply lastIndexOf_lt in Hi. destruct (length_substring_to 60 title).
          cbn [index_or_minus1]. rewrite Nat2Z.id.
          destruct (length_substring_to i title). lia.
        * rewrite string_app_length. change (String.length "...") with 3.
          destruct (length_substring_to 57 title). lia.
      + apply Nat.ltb_ge in Hlong. lia. }
  intros cut Hcut.
  pose proof (length_trim (strip_end is_trailing_punctuation cut)) as Htrim.
  pose proof (length_strip_end is_trailing_punctuation cut) as Hstrip.
  unfold or_else.
  destruct (truthy (trim (strip_end is_trailing_punctuation cut))) eqn:Ht.
  - split_and!; [by intros Heq; rewrite Heq in Ht|lia|].
    intros Hempty. by rewrite Hempty in Hlen.
  - split_and!; [done|simpl; lia|done].
Qed.

End Facts.

(** The bound is reached: 59 letters, a space and two more letters give a
    title of 62 characters. *)
Example auto_title_62 :
  String.length
    (generateAutoTitle (λ s, s)
       "aaaaaaaaaaaaaaaaaaaaaaaaaaaaaaaaaaaaaaaaaaaaaaaaaaaaaaaaaaa bb")
  = 62.
Proof. vm_compute. done. Qed.

End AutoTitleFacts.

Module PreviewFacts.
Import Js ToolBlock.
Import LineFramerFacts.



(** A character that is written as it is, is read as it is. *)
Lemma read_value_plain (a : ascii) (s : string) :
  Ascii.eqb a BACKSLASH = false → Ascii.eqb a QUOTE = false →
  read_value (String a s) = String a (read_value s).
Proof. intros Hb Hq. destruct s as [|b s]; simpl; by rewrite ?Hb, Hq. Qed.

(** An escape is read as the character it stands for. *)
Lemma read_value_escape (nextChar : ascii) (s : string) :
  read_value (String BACKSLASH (String nextChar s))
  = String (unescape nextChar) (read_value s).
Proof. done. Qed.

(** The characters and their escapes. *)
Lemma escape_char_cases (a : ascii) :
  (escape_char a = String a "" ∧ Ascii.eqb a BACKSLASH = false
   ∧ Ascii.eqb a QUOTE = false)
  ∨ (∃ x, escape_char a = String BACKSLASH (String x "") ∧ unescape x = a).
Proof.
  unfold escape_char.
  destruct (Ascii.eqb a QUOTE) eqn:Hq.
  { right. apply Ascii.eqb_eq in Hq as ->. by exists QUOTE. }
  destruct (Ascii.eqb a BACKSLASH) eqn:Hb.
  { right. apply Ascii.eqb_eq in Hb as ->. by exists BACKSLASH. }
  destruct (Ascii.eqb a LF) eqn:Hn.
  { right. apply Ascii.eqb_eq in Hn as ->. by exists "n"%char. }
  destruct (Ascii.eqb a TAB) eqn:Ht.
  { right. apply Ascii.eqb_eq in Ht as ->. by exists "t"%char. }
  destruct (Ascii.eqb a CR) eqn:Hr.
  { right. apply Ascii.eqb_eq in Hr as ->. by exists "r"%char. }
  by left.
Qed.

Lemma read_value_json_escape (c rest : string) :
  read_value (json_escape c +:+ String QUOTE rest) = c.
Proof.
  induction c as [|a c IH]; [by destruct rest|].
  cbn [json_escape]. rewrite string_app_assoc.
  destruct (escape_char_cases a) as [(-> & Hb & Hq)|(x & -> & Hx)].
  - change (String a "" +:+ ?s) with (String a s).
    by rewrite read_value_plain, IH.
  - change (String BACKSLASH (String x "") +:+ ?s) with (String BACKSLASH (String x s)).
    by rewrite read_value_escape, Hx, IH.
Qed.


Lemma substring_from_length (n : nat) (s : string) :
  substring_from n s ≠ "" → n < String.length s.
Proof.
  revert s. induction n as [|n IH]; intros [|a s]; simpl; try done; try lia.
  intros H. specialize (IH s H). lia.
Qed.

Lemma first_match_truthy (fieldName json match0 : string) :
  first_match fieldName json = Some match0 → truthy json = true.
Proof. by destruct json. Qed.

(** The preview, once the field has been found. *)
Lemma extract_found (json fieldName match0 : string) (p : nat) :
  first_match fieldName json = Some match0 →
  String.index 0 match0 json = Some p →
  extractStreamingCode json fieldName =
    if decide (substring_from (p + String.length match0) json = "") then None
    else Some (read_value (substring_from (p + String.length match0) json)).
Proof.
  intros Hmatch Hindex. unfold extractStreamingCode, indexOf_text.
  rewrite (first_match_truthy _ _ _ Hmatch), Hmatch, Hindex. cbn [negb].
  cbv zeta. rewrite <- Nat2Z.inj_add, Nat2Z.id.
  destruct (decide (substring_from (p + String.length match0) json = ""))
    as [Hempty|Hrest].
  - rewrite (proj2 (Z.leb_le _ _)); [done|].
    apply inj_le. clear -Hempty.
    revert Hempty. generalize (p + String.length match0). intros n. revert json.
    induction n as [|n IH]; intros [|a s]; simpl; try done; try lia.
    intros H. specialize (IH s H). lia.
  - apply substring_from_length in Hrest.
    rewrite (proj2 (Z.leb_gt _ _)); [done|lia].
Qed.

(** X23. The preview reads back what JSON wrote: when the field is found
    in the text and its value has arrived up to the closing quote, the
    preview is the string that the value stands for, with the escapes for
    quote, backslash, newline, tab and carriage return undone. *)
Theorem preview_reads_back (json fieldName match0 : string) (p : nat)
    (c rest : string) :
  first_match fieldName json = Some match0 →
  String.index 0 match0 json = Some p →
  substring_from (p + String.length match0) json
    = json_escape c +:+ String QUOTE rest →
  extractStreamingCode json fieldName = Some c.
Proof.
  intros Hmatch Hindex Hvalue.
  rewrite (extract_found _ _ _ _ Hmatch Hindex), Hvalue.
  rewrite decide_False by by destruct (json_escape c).
  by rewrite read_value_json_escape.
Qed.


Lemma preview_reads_back_witness :
  extractStreamingCode
    (sample_input (json_escape sample_content +:+ String QUOTE "}")) "content"
  = Some sample_content.
Proof.
  apply (preview_reads_back _ "content" (quoted "content" +:+ ": " +:+ String QUOTE "")
           22 sample_content "}"); by vm_compute.
Defined.


(** An escape that the function does not know: the value written stands
    for the one letter A, and the preview shows the escape without its
    backslash. *)
Example unicode_escape_not_read_back :
  extractStreamingCode
    (sample_input (String BACKSLASH "u0041" +:+ String QUOTE "}")) "content"
  = Some "u0041".
Proof. by vm_compute. Qed.

End PreviewFacts.

Module DiffFacts.
Import Js DiffView.

Lemma split_lines_nonempty (s : string) : split_lines s ≠ [].
Proof.
  induction s as [|a s IH]; simpl; [done|].
  destruct (Ascii.eqb a LF); [done|]. by destruct (split_lines s).
Qed.

Lemma join_cons (line : string) (lines : list string) :
  lines ≠ [] →
  join_lines (line :: lines) = line +:+ String LF (join_lines lines).
Proof. by destruct lines. Qed.

Lemma join_split (s : string) : join_lines (split_lines s) = s.
Proof.
  induction s as [|a s IH]; [done|]. cbn [split_lines].
  pose proof (split_lines_nonempty s) as Hne.
  destruct (Ascii.eqb a LF) eqn:Ha.
  - apply Ascii.eqb_eq in Ha as ->. rewrite join_cons by done. by rewrite IH.
  - destruct (split_lines s) as [|line lines]; [done|].
    destruct lines as [|line' lines].
    + unfold join_lines in *. simpl in *. congruence.
    + rewrite join_cons by done. rewrite join_cons in IH by done.
      by rewrite <- IH.
Qed.

Section Lines.
Context (type : LineType) (old new : nat → option nat).

Local Abbreviation line_at :=
  (λ (i : nat) (line : string),
     {| d_type := type; d_content := line;
        d_oldLineNum := old i; d_newLineNum := new i |}).

Lemma imap_S (k : nat) (lines : list string) :
  imap ((λ i, line_at (k + i)) ∘ S) lines = imap (λ i, line_at (S k + i)) lines.
Proof. apply imap_ext. intros i x _. simpl. by rewrite Nat.add_succ_r. Qed.

Lemma content_imap (k : nat) (lines : list string) :
  d_content <$> imap (λ i, line_at (k + i)) lines = lines.
Proof.
  revert k. induction lines as [|line lines IH]; intros k; [done|].
  cbn [imap fmap list_fmap]. rewrite imap_S. f_equal. apply IH.
Qed.

Lemma filter_imap_all (keep : DiffLine → bool) (k : nat) (lines : list string) :
  (∀ i line, keep (line_at i line) = true) →
  List.filter keep (imap (λ i, line_at (k + i)) lines)
  = imap (λ i, line_at (k + i)) lines.
Proof.
  intros Hkeep. revert k. induction lines as [|line lines IH]; intros k; [done|].
  cbn [imap List.filter]. rewrite Hkeep, imap_S. f_equal. apply IH.
Qed.

Lemma filter_imap_none (keep : DiffLine → bool) (k : nat) (lines : list string) :
  (∀ i line, keep (line_at i line) = false) →
  List.filter keep (imap (λ i, line_at (k + i)) lines) = [].
Proof.
  intros Hkeep. revert k. induction lines as [|line lines IH]; intros k; [done|].
  cbn [imap List.filter]. rewrite Hkeep, imap_S. apply IH.
Qed.

Lemma oldLineNum_imap (k : nat) (lines : list string) :
  d_oldLineNum <$> imap (λ i, line_at (k + i)) lines = old <$> seq k (length lines).
Proof.
  revert k. induction lines as [|line lines IH]; intros k; [done|].
  cbn [imap fmap list_fmap length seq]. rewrite imap_S, Nat.add_0_r. f_equal.
  apply IH.
Qed.

Lemma newLineNum_imap (k : nat) (lines : list string) :
  d_newLineNum <$> imap (λ i, line_at (k + i)) lines = new <$> seq k (length lines).
Proof.
  revert k. induction lines as [|line lines IH]; intros k; [done|].
  cbn [imap fmap list_fmap length seq]. rewrite imap_S, Nat.add_0_r. f_equal.
  apply IH.
Qed.

Lemma length_imap_lines (k : nat) (lines : list string) :
  length (imap (λ i, line_at (k + i)) lines) = length lines.
Proof. apply length_imap. Qed.

End Lines.

Lemma numbered_from_1 (n : nat) :
  (λ i, Some (S i)) <$> seq 0 n = Some <$> seq 1 n.
Proof. rewrite <- fmap_S_seq, <- list_fmap_compose. done. Qed.

(** X25. A diff shows both texts in full: its lines that are not
    additions, joined by line breaks, are the old text, and its lines that
    are not removals are the new text; each side is numbered 1, 2, 3, ...
    in order. *)
Theorem diff_shows_both_texts (oldStr newStr : string) :
  let diff := generateUnifiedDiff oldStr newStr in
  join_lines (d_content <$> old_side diff) = oldStr
  ∧ join_lines (d_content <$> new_side diff) = newStr
  ∧ d_oldLineNum <$> old_side diff = Some <$> seq 1 (length (old_side diff))
  ∧ d_newLineNum <$> new_side diff = Some <$> seq 1 (length (new_side diff)).
Proof.
  cbn zeta. unfold generateUnifiedDiff, old_side, new_side. cbv zeta.
  cbn [Nat.add].
  destruct (String.eqb oldStr newStr) eqn:Heq.
  - apply String.eqb_eq in Heq as <-.
    pose proof (filter_imap_all Context (λ i, Some (1 + i)) (λ i, Some (1 + i))
                  (λ d, negb (is_add d)) 0 (split_lines oldStr)) as Hold.
    pose proof (filter_imap_all Context (λ i, Some (1 + i)) (λ i, Some (1 + i))
                  (λ d, negb (is_remove d)) 0 (split_lines oldStr)) as Hnew.
    cbn [Nat.add] in Hold, Hnew. rewrite Hold, Hnew by done.
    pose proof (content_imap Context (λ i, Some (1 + i)) (λ i, Some (1 + i)) 0
                  (split_lines oldStr)) as Hc.
    pose proof (oldLineNum_imap Context (λ i, Some (1 + i)) (λ i, Some (1 + i)) 0
                  (split_lines oldStr)) as Ho.
    pose proof (newLineNum_imap Context (λ i, Some (1 + i)) (λ i, Some (1 + i)) 0
                  (split_lines oldStr)) as Hn.
    cbn [Nat.add] in Hc, Ho, Hn.
    rewrite Hc, Ho, Hn, length_imap, numbered_from_1, join_split. done.
  - rewrite !List.filter_app.
    pose proof (filter_imap_all Remove (λ i, Some (1 + i)) (λ _, None)
                  (λ d, negb (is_add d)) 0 (split_lines oldStr)) as Hold1.
    pose proof (filter_imap_none Add (λ _, None) (λ i, Some (1 + i))
                  (λ d, negb (is_add d)) 0 (split_lines newStr)) as Hold2.
    pose proof (filter_imap_none Remove (λ i, Some (1 + i)) (λ _, None)
                  (λ d, negb (is_remove d)) 0 (split_lines oldStr)) as Hnew1.
    pose proof (filter_imap_all Add (λ _, None) (λ i, Some (1 + i))
                  (λ d, negb (is_remove d)) 0 (split_lines newStr)) as Hnew2.
    cbn [Nat.add] in Hold1, Hold2, Hnew1, Hnew2.
    rewrite Hold1, Hold2, Hnew1, Hnew2 by done.
    rewrite app_nil_r, app_nil_l.
    pose proof (content_imap Remove (λ i, Some (1 + i)) (λ _, None) 0
                  (split_lines oldStr)) as Hc1.
    pose proof (content_imap Add (λ _, None) (λ i, Some (1 + i)) 0
                  (split_lines newStr)) as Hc2.
    pose proof (oldLineNum_imap Remove (λ i, Some (1 + i)) (λ _, None) 0
                  (split_lines oldStr)) as Ho.
    pose proof (newLineNum_imap Add (λ _, None) (λ i, Some (1 + i)) 0
                  (split_lines newStr)) as Hn.
    cbn [Nat.add] in Hc1, Hc2, Ho, Hn.
    rewrite Hc1, Hc2, Ho, Hn, !length_imap, !numbered_from_1, !join_split. done.
Qed.

End DiffFacts.
